(** * goPaperMC: version resolution and verified artifact retrieval

    A shallow embedding of the [api] package of goPaperMC (the v3 client):
    [FlattenVersions] and the semver ordering it sorts with, the
    list-returning client calls and their [Limit], [FindPromotedBuild],
    [GetRecommendedVersion], [isSnapshotOrPreRelease] and [DownloadFile].

    Go strings are byte strings: they are [string] here, one [ascii] per
    byte, and [<] on them is [String.ltb].  Go's [int] and [int32] are [Z].
    A Go map that the code ranges over is a list of its entries in the
    order the range loop meets them, an order Go leaves unspecified. *)

From Stdlib Require Import ZArith List Bool Ascii String DecimalString Lia.
From Stdlib Require Import Permutation Sorted.
Import ListNotations.

Open Scope string_scope.
Open Scope Z_scope.

(** ** Byte strings *)

Definition byte_le (a b : ascii) : bool := (a <=? b)%char.

Definition isDigit (c : ascii) : bool := byte_le "0" c && byte_le c "9".

(** [v[:i], v[i:]] for the first [i] with [v[i]] not a digit. *)
Fixpoint span_digits (v : string) : string * string :=
  match v with
  | String c v' =>
      if isDigit c then let (t, rest) := span_digits v' in (String c t, rest)
      else ("", v)
  | "" => ("", "")
  end.

(** ** golang.org/x/mod/semver

    [FlattenVersions] sorts with [semver.Compare] of the module
    golang.org/x/mod/semver.  The functions below follow that package:
    [parse], [parseInt], [parsePrerelease], [parseBuild], [compareInt],
    [comparePrerelease] and [Compare], with Go's [-1], [0], [+1] in [Z]. *)
Module semver.

Record parsed := mkParsed {
  major : string;
  minor : string;
  patch : string;
  short : string;
  prerelease : string;
  build : string
}.

(** [parseInt]: a decimal number without leading zeros; [None] is Go's
    [ok = false]. *)
Definition parseInt (v : string) : option (string * string) :=
  match v with
  | "" => None
  | String c _ =>
      if negb (isDigit c) then None
      else
        let (t, rest) := span_digits v in
        if Ascii.eqb c "0" && negb (String.length t =? 1)%nat then None
        else Some (t, rest)
  end.

Definition isIdentChar (c : ascii) : bool :=
  (byte_le "A" c && byte_le c "Z")
  || (byte_le "a" c && byte_le c "z")
  || (byte_le "0" c && byte_le c "9")
  || Ascii.eqb c "-".

Fixpoint isNum (v : string) : bool :=
  match v with
  | "" => true
  | String c v' => isDigit c && isNum v'
  end.

Definition isBadNum (v : string) : bool :=
  isNum v && (1 <? String.length v)%nat
  && match v with String c _ => Ascii.eqb c "0" | "" => false end.

(** The loop of [parsePrerelease] from index [i]: [cur] is [v[start:i]] and
    [rest] is [v[i:]].  It returns [v[1:i]] and [v[i:]] at the exit. *)
Fixpoint scanPrerelease (cur rest : string) : option (string * string) :=
  match rest with
  | "" => if (cur =? "")%string || isBadNum cur then None else Some ("", "")
  | String c rest' =>
      if Ascii.eqb c "+" then
        if (cur =? "")%string || isBadNum cur then None else Some ("", rest)
      else if negb (isIdentChar c) && negb (Ascii.eqb c ".") then None
      else if Ascii.eqb c "." then
        if (cur =? "")%string || isBadNum cur then None
        else match scanPrerelease "" rest' with
             | Some (t, r) => Some (String c t, r)
             | None => None
             end
      else match scanPrerelease (cur ++ String c "") rest' with
           | Some (t, r) => Some (String c t, r)
           | None => None
           end
  end.

Definition parsePrerelease (v : string) : option (string * string) :=
  match v with
  | String c v' =>
      if negb (Ascii.eqb c "-") then None
      else match scanPrerelease "" v' with
           | Some (t, r) => Some (String c t, r)
           | None => None
           end
  | "" => None
  end.

(** The loop of [parseBuild]; [cur_empty] is [start == i]. *)
Fixpoint scanBuild (cur_empty : bool) (rest : string) : option (string * string) :=
  match rest with
  | "" => if cur_empty then None else Some ("", "")
  | String c rest' =>
      if negb (isIdentChar c) && negb (Ascii.eqb c ".") then None
      else if Ascii.eqb c "." then
        if cur_empty then None
        else match scanBuild true rest' with
             | Some (t, r) => Some (String c t, r)
             | None => None
             end
      else match scanBuild false rest' with
           | Some (t, r) => Some (String c t, r)
           | None => None
           end
  end.

Definition parseBuild (v : string) : option (string * string) :=
  match v with
  | String c v' =>
      if negb (Ascii.eqb c "+") then None
      else match scanBuild true v' with
           | Some (t, r) => Some (String c t, r)
           | None => None
           end
  | "" => None
  end.

Definition starts_with (c : ascii) (v : string) : bool :=
  match v with String d _ => Ascii.eqb d c | "" => false end.

Definition tail (v : string) : string :=
  match v with String _ v' => v' | "" => "" end.

(** The end of [parse], after the patch number. *)
Definition parseTail (ma mi pa v : string) : option parsed :=
  match (if starts_with "-" v then parsePrerelease v else Some ("", v)) with
  | None => None
  | Some (pre, v1) =>
      match (if starts_with "+" v1 then parseBuild v1 else Some ("", v1)) with
      | None => None
      | Some (bd, v2) =>
          if negb (v2 =? "")%string then None
          else Some (mkParsed ma mi pa "" pre bd)
      end
  end.

Definition parse (v : string) : option parsed :=
  if negb (starts_with "v" v) then None
  else
    match parseInt (tail v) with
    | None => None
    | Some (ma, v) =>
        if (v =? "")%string then Some (mkParsed ma "0" "0" ".0.0" "" "")
        else if negb (starts_with "." v) then None
        else
          match parseInt (tail v) with
          | None => None
          | Some (mi, v) =>
              if (v =? "")%string then Some (mkParsed ma mi "0" ".0" "" "")
              else if negb (starts_with "." v) then None
              else
                match parseInt (tail v) with
                | None => None
                | Some (pa, v) => parseTail ma mi pa v
                end
          end
    end.

Definition compareInt (x y : string) : Z :=
  if (x =? y)%string then 0
  else if (String.length x <? String.length y)%nat then -1
  else if (String.length y <? String.length x)%nat then 1
  else if (x <? y)%string then -1
  else 1.

(** [nextIdent]: [x[:i], x[i:]] for the first [i] with [x[i] = '.']. *)
Fixpoint nextIdent (x : string) : string * string :=
  match x with
  | "" => ("", "")
  | String c x' =>
      if Ascii.eqb c "." then ("", x)
      else let (dx, rest) := nextIdent x' in (String c dx, rest)
  end.

(** Two identifiers of a prerelease that differ. *)
Definition compareIdent (dx dy : string) : Z :=
  let ix := isNum dx in
  let iy := isNum dy in
  if negb (Bool.eqb ix iy) then (if ix then -1 else 1)
  else if ix && (String.length dx <? String.length dy)%nat then -1
  else if ix && (String.length dy <? String.length dx)%nat then 1
  else if (dx <? dy)%string then -1
  else 1.

(** The loop [for x != "" && y != ""] of [comparePrerelease]; every turn
    shortens [x], so [String.length x] turns are enough. *)
Fixpoint comparePrereleaseLoop (fuel : nat) (x y : string) : Z :=
  match x, y with
  | String _ x1, String _ y1 =>
      match fuel with
      | O => 0
      | S fuel' =>
          let (dx, x2) := nextIdent x1 in
          let (dy, y2) := nextIdent y1 in
          if negb (dx =? dy)%string then compareIdent dx dy
          else comparePrereleaseLoop fuel' x2 y2
      end
  | "", _ => -1
  | _, _ => 1
  end.

Definition comparePrerelease (x y : string) : Z :=
  if (x =? y)%string then 0
  else if (x =? "")%string then 1
  else if (y =? "")%string then -1
  else comparePrereleaseLoop (String.length x) x y.

Definition Compare (v w : string) : Z :=
  match parse v, parse w with
  | None, None => 0
  | None, Some _ => -1
  | Some _, None => 1
  | Some pv, Some pw =>
      let c := compareInt (major pv) (major pw) in
      if negb (c =? 0) then c
      else
        let c := compareInt (minor pv) (minor pw) in
        if negb (c =? 0) then c
        else
          let c := compareInt (patch pv) (patch pw) in
          if negb (c =? 0) then c
          else comparePrerelease (prerelease pv) (prerelease pw)
  end.

End semver.

(** ** package sort

    [sort.Slice(x, less)] sorts in place and is not stable.  On a slice of
    at most 12 elements it runs [insertionSortLessFunc]:
<<
    for i := a + 1; i < b; i++ {
        for j := i; j > a && data.Less(j, j-1); j-- { data.Swap(j, j-1) }
    }
>>
    which is what [Slice] below runs on every slice.  On a longer slice Go
    runs pdqsort: it returns the same slice when no two different elements
    tie under [less], and when the slice is already in order (its first
    pass, [partialInsertionSort], finds no descent and returns); otherwise
    it may arrange the elements that tie in another way. *)
Module sort.
Section Slice.
Context {A : Type} (less : A -> A -> bool).

(** The inner loop: [x = data[i]] moves left past each element it is
    less than.  [before] is [data[a:i]] from right to left; the result
    is [data[a:i+1]] from right to left. *)
Fixpoint insertLeft (x : A) (before : list A) : list A :=
  match before with
  | [] => [x]
  | y :: before' =>
      if less x y then y :: insertLeft x before' else x :: before
  end.

(** The outer loop, [before] from right to left. *)
Fixpoint insertionSort (before rest : list A) : list A :=
  match rest with
  | [] => rev before
  | x :: rest' => insertionSort (insertLeft x before) rest'
  end.

Definition Slice (data : list A) : list A := insertionSort [] data.
End Slice.
End sort.

(** ** package api: models *)

(** A Go map with string keys: its entries in the order of a range loop. *)
Definition gomap (V : Type) : Type := list (string * V).

Fixpoint lookup {V : Type} (m : gomap V) (k : string) : option V :=
  match m with
  | [] => None
  | (k', v) :: m' => if (k' =? k)%string then Some v else lookup m' k
  end.

Record ProjectMeta := {
  ProjectMeta_ID : string;
  ProjectMeta_Name : string
}.

Record ChecksumsV3 := { SHA256 : string }.

Record DownloadV3 := {
  Name : string;
  URL : string;
  Checksums : ChecksumsV3;
  Size : Z
}.

Record ProjectV3Info := {
  Info_Project : ProjectMeta;
  Info_Versions : gomap (list string)
}.

Record ProjectsV3Response := { Projects : list ProjectV3Info }.

Record ProjectV3Response := {
  Project : ProjectMeta;
  Versions : gomap (list string)
}.

(** [VersionMeta] keeps its identifier; support and Java data play no part. *)
Record VersionMeta := { VersionMeta_ID : string }.

Record VersionV3Response := {
  Version : VersionMeta;
  Builds : list Z
}.

Record BuildV3Response := {
  ID : Z;
  Channel_of : string;
  Downloads : gomap DownloadV3
}.

Definition Channel := string.
Definition ChannelAlpha : Channel := "alpha".
Definition ChannelBeta : Channel := "beta".
Definition ChannelStable : Channel := "stable".
Definition ChannelRecommended : Channel := "recommended".

Definition semverLess (a b : string) : bool :=
  semver.Compare (String "v" a) (String "v" b) <? 0.

(** [FlattenVersions]: every group's versions appended in the order of the
    range loop over [p.Versions], then sorted with [sort.Slice]. *)
Definition FlattenVersions (p : ProjectV3Response) : list string :=
  let allVersions :=
    fold_left (fun all (kv : string * list string) => (all ++ snd kv)%list)
              (Versions p) [] in
  sort.Slice semverLess allVersions.

(** The first entry of a range loop over [m], [dflt] on an empty map. *)
Definition rangeFirst {V R : Type} (m : gomap V) (f : V -> R) (dflt : R) : R :=
  match m with
  | (_, v) :: _ => f v
  | [] => dflt
  end.

(** The three getters range over [b.Downloads] when it has no
    ["server:default"]; [order] is the order of that range loop. *)
Definition GetDownloadURL (order : gomap DownloadV3 -> gomap DownloadV3)
    (b : BuildV3Response) : string :=
  match lookup (Downloads b) "server:default" with
  | Some download => URL download
  | None => rangeFirst (order (Downloads b)) URL ""
  end.

Definition GetDownloadName (order : gomap DownloadV3 -> gomap DownloadV3)
    (b : BuildV3Response) : string :=
  match lookup (Downloads b) "server:default" with
  | Some download => Name download
  | None => rangeFirst (order (Downloads b)) Name ""
  end.

Definition GetDownloadSHA256 (order : gomap DownloadV3 -> gomap DownloadV3)
    (b : BuildV3Response) : string :=
  match lookup (Downloads b) "server:default" with
  | Some download => SHA256 (Checksums download)
  | None => rangeFirst (order (Downloads b)) (fun d => SHA256 (Checksums d)) ""
  end.

(** ** package api: client *)

(** Arguments of a format string. *)
Inductive fmtarg :=
| ArgS (s : string)
| ArgD (n : Z).

(** Errors of github.com/cockroachdb/errors, and those that the HTTP
    client, the JSON decoder and the file system hand to the package. *)
Inductive error :=
| errors_New (msg : string)
| errors_Newf (format : string) (args : list fmtarg)
| errors_Wrap (err : error) (msg : string)
| foreign (msg : string).

(** What [makeRequest] followed by [json.Decode] gives for one URL. *)
Inductive fetched (T : Type) :=
| Fetched (v : T)
| RequestFailed (err : error)
| DecodeFailed (err : error).
Arguments Fetched {T} v.
Arguments RequestFailed {T} err.
Arguments DecodeFailed {T} err.

(** A value or an error: [(v, nil)] or [(nil, err)]. *)
Inductive result (T : Type) :=
| Ok (v : T)
| Err (err : error).
Arguments Ok {T} v.
Arguments Err {T} err.

(** The body of a download: the bytes that arrive and the error, if any,
    that ends the stream in place of [io.EOF]. *)
Record Body := {
  body_bytes : list Byte.byte;
  body_err : option error
}.

(** The metadata service as the client sees it, by URL. *)
Record Remote := {
  get_projects : string -> fetched ProjectsV3Response;
  get_project : string -> fetched ProjectV3Response;
  get_versions : string -> fetched (list VersionV3Response);
  get_version : string -> fetched VersionV3Response;
  get_builds : string -> fetched (list BuildV3Response);
  get_build : string -> fetched BuildV3Response;
  get_body : string -> result Body
}.

Record Client := {
  BaseURL : string;
  HTTPClient : Remote;
  Limit : Z;
  Channel_filter : Channel
}.

Definition channelToAPI (ch : Channel) : option string :=
  if (ch =? ChannelAlpha)%string then Some "ALPHA"
  else if (ch =? ChannelBeta)%string then Some "BETA"
  else if (ch =? ChannelStable)%string then Some "STABLE"
  else if (ch =? ChannelRecommended)%string then Some "RECOMMENDED"
  else None.

Definition len {T : Type} (l : list T) : Z := Z.of_nat (List.length l).

Definition fmt_d (n : Z) : string :=
  DecimalString.NilEmpty.string_of_int (Z.to_int n).

Definition GetProjects (c : Client) : result ProjectsV3Response :=
  let url := BaseURL c ++ "/v3/projects" in
  match get_projects (HTTPClient c) url with
  | RequestFailed err => Err (errors_Wrap err "failed to request projects")
  | DecodeFailed err => Err (errors_Wrap err "failed to decode projects response")
  | Fetched projectsResp =>
      if (Limit c >? 0) && (len (Projects projectsResp) >? Limit c) then
        let start := len (Projects projectsResp) - Limit c in
        Ok {| Projects := skipn (Z.to_nat start) (Projects projectsResp) |}
      else Ok projectsResp
  end.

Definition GetProject (c : Client) (projectID : string) : result ProjectV3Response :=
  let url := BaseURL c ++ "/v3/projects/" ++ projectID in
  match get_project (HTTPClient c) url with
  | RequestFailed err => Err (errors_Wrap err "failed to request project")
  | DecodeFailed err => Err (errors_Wrap err "failed to decode project response")
  | Fetched projectResp => Ok projectResp
  end.

Definition GetVersions (c : Client) (projectID : string)
    : result (list VersionV3Response) :=
  let url := BaseURL c ++ "/v3/projects/" ++ projectID ++ "/versions" in
  match get_versions (HTTPClient c) url with
  | RequestFailed err => Err (errors_Wrap err "failed to request versions")
  | DecodeFailed err => Err (errors_Wrap err "failed to decode versions response")
  | Fetched versions =>
      if (Limit c >? 0) && (len versions >? Limit c) then
        let start := len versions - Limit c in
        Ok (skipn (Z.to_nat start) versions)
      else Ok versions
  end.

Definition GetVersion (c : Client) (projectID version : string)
    : result VersionV3Response :=
  let url := BaseURL c ++ "/v3/projects/" ++ projectID ++ "/versions/" ++ version in
  match get_version (HTTPClient c) url with
  | RequestFailed err => Err (errors_Wrap err "failed to request version")
  | DecodeFailed err => Err (errors_Wrap err "failed to decode version response")
  | Fetched versionResp =>
      if (Limit c >? 0) && (len (Builds versionResp) >? Limit c) then
        let start := len (Builds versionResp) - Limit c in
        Ok {| Version := Version versionResp;
              Builds := skipn (Z.to_nat start) (Builds versionResp) |}
      else Ok versionResp
  end.

(** The query parameters of [GetBuilds]: one for each known channel. *)
Fixpoint channelStrs (channels : list Channel) : list string :=
  match channels with
  | [] => []
  | ch :: channels' =>
      match channelToAPI ch with
      | Some apiCh => ("channel=" ++ apiCh) :: channelStrs channels'
      | None => channelStrs channels'
      end
  end.

Definition buildsURL (c : Client) (projectID version : string)
    (channels : list Channel) : string :=
  let url := BaseURL c ++ "/v3/projects/" ++ projectID ++ "/versions/"
               ++ version ++ "/builds" in
  if (len channels >? 0) && (len (channelStrs channels) >? 0)
  then url ++ "?" ++ String.concat "&" (channelStrs channels)
  else url.

Definition GetBuilds (c : Client) (projectID version : string)
    (channels : list Channel) : result (list BuildV3Response) :=
  let url := buildsURL c projectID version channels in
  match get_builds (HTTPClient c) url with
  | RequestFailed err => Err (errors_Wrap err "failed to request builds")
  | DecodeFailed err => Err (errors_Wrap err "failed to decode builds response")
  | Fetched builds =>
      if (Limit c >? 0) && (len builds >? Limit c) then
        let start := len builds - Limit c in
        Ok (skipn (Z.to_nat start) builds)
      else Ok builds
  end.

(** The loop of [GetLatestBuildV3] that keeps the build with the highest ID. *)
Definition highestID (first : BuildV3Response) (builds : list BuildV3Response)
    : BuildV3Response :=
  fold_left (fun latest b => if ID b >? ID latest then b else latest)
            builds first.

Definition GetLatestBuildV3 (c : Client) (projectID version : string)
    : result BuildV3Response :=
  if negb (Channel_filter c =? "")%string then
    match GetBuilds c projectID version [Channel_filter c] with
    | Err err => Err (errors_Wrap err "failed to get builds with channel filter")
    | Ok [] => Err (errors_Newf "no builds found for channel %s"
                                [ArgS (Channel_filter c)])
    | Ok (first :: rest) => Ok (highestID first (first :: rest))
    end
  else
    let url := BaseURL c ++ "/v3/projects/" ++ projectID ++ "/versions/"
                 ++ version ++ "/builds/latest" in
    match get_build (HTTPClient c) url with
    | RequestFailed err => Err (errors_Wrap err "failed to request latest build")
    | DecodeFailed err => Err (errors_Wrap err "failed to decode build response")
    | Fetched buildResp => Ok buildResp
    end.

Definition GetBuild (c : Client) (projectID version : string) (build : Z)
    : result BuildV3Response :=
  let url := BaseURL c ++ "/v3/projects/" ++ projectID ++ "/versions/"
               ++ version ++ "/builds/" ++ fmt_d build in
  match get_build (HTTPClient c) url with
  | RequestFailed err => Err (errors_Wrap err "failed to request build")
  | DecodeFailed err => Err (errors_Wrap err "failed to decode build response")
  | Fetched buildResp => Ok buildResp
  end.

Definition DownloadBuild (c : Client) (downloadURL : string) : result Body :=
  match get_body (HTTPClient c) downloadURL with
  | Err err => Err (errors_Wrap err "failed to download build")
  | Ok body => Ok body
  end.

(** ** package api: high-level calls *)

(** [builds[len(builds)-1].ID]: the ID of the last build of a slice. *)
Definition lastID (builds : list BuildV3Response) : Z :=
  match rev builds with
  | b :: _ => ID b
  | [] => 0
  end.

Definition FindPromotedBuild (c : Client) (projectID version : string)
    : Z * option error :=
  match GetBuilds c projectID version [ChannelRecommended] with
  | Ok (b :: builds) => (lastID (b :: builds), None)
  | _ =>
      match GetBuilds c projectID version [ChannelStable] with
      | Ok (b :: builds) => (lastID (b :: builds), None)
      | _ =>
          match GetLatestBuildV3 c projectID version with
          | Err err => (0, Some (errors_Wrap err "failed to get latest build"))
          | Ok latestBuild => (ID latestBuild, None)
          end
      end
  end.

(** [strings.ToLower] on the bytes ['A'..'Z'].  Go also maps the upper-case
    letters outside ASCII to their lower case; none of them becomes a byte
    of ["snapshot"], ["-pre"] or ["-rc"], so [strings.Contains] of these on
    the result is the same. *)
Definition toLowerByte (c : ascii) : ascii :=
  if byte_le "A" c && byte_le c "Z"
  then ascii_of_nat (nat_of_ascii c + 32)
  else c.

Fixpoint ToLower (s : string) : string :=
  match s with
  | "" => ""
  | String c s' => String (toLowerByte c) (ToLower s')
  end.

(** [strings.Contains]. *)
Fixpoint Contains (s substr : string) : bool :=
  String.prefix substr s
  || match s with
     | "" => false
     | String _ s' => Contains s' substr
     end.

Definition isSnapshotOrPreRelease (version : string) : bool :=
  let lower := ToLower version in
  Contains lower "snapshot" || Contains lower "-pre" || Contains lower "-rc".

(** The loop of [GetRecommendedVersion] from the last index down to 0. *)
Definition lastStable (versions : list string) : option string :=
  find (fun version => negb (isSnapshotOrPreRelease version)) (rev versions).

Definition recommendedOf (versions : list string) : string * option error :=
  match versions with
  | [] => ("", Some (errors_New "no versions found for this project"))
  | _ :: _ =>
      match lastStable versions with
      | Some version => (version, None)
      | None => (last versions "", None)
      end
  end.

Definition GetRecommendedVersion (c : Client) (projectID : string)
    : string * option error :=
  match GetProject c projectID with
  | Err err => ("", Some (errors_Wrap err "failed to get project info"))
  | Ok projectInfo => recommendedOf (FlattenVersions projectInfo)
  end.

(** ** crypto/sha256 and encoding/hex

    SHA-256 (FIPS 180-4) on 32-bit words kept in [Z]. *)
Module sha256.

Definition w32 (x : Z) : Z := x mod 2 ^ 32.

Definition add32 (x y : Z) : Z := w32 (x + y).

Definition rotr (n x : Z) : Z :=
  Z.lor (Z.shiftr x n) (w32 (Z.shiftl x (32 - n))).

Definition not32 (x : Z) : Z := Z.lxor x 0xffffffff.

Definition Ch (x y z : Z) : Z :=
  Z.lxor (Z.land x y) (Z.land (not32 x) z).

Definition Maj (x y z : Z) : Z :=
  Z.lxor (Z.lxor (Z.land x y) (Z.land x z)) (Z.land y z).

Definition bsig0 (x : Z) : Z :=
  Z.lxor (Z.lxor (rotr 2 x) (rotr 13 x)) (rotr 22 x).

Definition bsig1 (x : Z) : Z :=
  Z.lxor (Z.lxor (rotr 6 x) (rotr 11 x)) (rotr 25 x).

Definition ssig0 (x : Z) : Z :=
  Z.lxor (Z.lxor (rotr 7 x) (rotr 18 x)) (Z.shiftr x 3).

Definition ssig1 (x : Z) : Z :=
  Z.lxor (Z.lxor (rotr 17 x) (rotr 19 x)) (Z.shiftr x 10).

(** The first 64 primes. *)
Definition primes : list Z :=
  [2; 3; 5; 7; 11; 13; 17; 19; 23; 29; 31; 37; 41; 43; 47; 53; 59; 61; 67;
   71; 73; 79; 83; 89; 97; 101; 103; 107; 109; 113; 127; 131; 137; 139; 149;
   151; 157; 163; 167; 173; 179; 181; 191; 193; 197; 199; 211; 223; 227; 229;
   233; 239; 241; 251; 257; 263; 269; 271; 277; 281; 283; 293; 307; 311].

(** The greatest [r + d] with [d < 2 ^ bits] and [(r + d) ^ 3 <= x]. *)
Fixpoint root3_from (bits : nat) (r x : Z) : Z :=
  match bits with
  | O => r
  | S bits' =>
      let r' := r + 2 ^ Z.of_nat bits' in
      root3_from bits' (if r' * r' * r' <=? x then r' else r) x
  end.

(** The round constants: the first 32 bits of the fractional parts of the
    cube roots of the primes. *)
Definition K : list Z :=
  Eval vm_compute in map (fun p => w32 (root3_from 40 0 (p * 2 ^ 96))) primes.

(** The eight words of a digest in progress. *)
Definition state : Type := Z * Z * Z * Z * Z * Z * Z * Z.

(** The first 32 bits of the fractional part of the square root of [p]. *)
Definition frac_sqrt (p : Z) : Z := w32 (Z.sqrt (p * 2 ^ 64)).

Definition init : state :=
  Eval vm_compute in
    (frac_sqrt 2, frac_sqrt 3, frac_sqrt 5, frac_sqrt 7,
     frac_sqrt 11, frac_sqrt 13, frac_sqrt 17, frac_sqrt 19).

(** Big-endian words of a block of bytes. *)
Fixpoint words (bytes : list Z) : list Z :=
  match bytes with
  | b0 :: b1 :: b2 :: b3 :: bytes' =>
      (((b0 * 256 + b1) * 256 + b2) * 256 + b3) :: words bytes'
  | _ => []
  end.

(** The message schedule, last word first: [n] more words after [ws]. *)
Fixpoint schedule (n : nat) (ws : list Z) : list Z :=
  match n with
  | O => ws
  | S n' =>
      let w := add32 (add32 (ssig1 (nth 1 ws 0)) (nth 6 ws 0))
                     (add32 (ssig0 (nth 14 ws 0)) (nth 15 ws 0)) in
      schedule n' (w :: ws)
  end.

Definition round (s : state) (kw : Z * Z) : state :=
  let '(a, b, c, d, e, f, g, h) := s in
  let t1 := add32 (add32 (add32 h (bsig1 e)) (add32 (Ch e f g) (fst kw)))
                  (snd kw) in
  let t2 := add32 (bsig0 a) (Maj a b c) in
  (add32 t1 t2, a, b, c, add32 d t1, e, f, g).

Definition block (s : state) (bytes : list Z) : state :=
  let ws := rev (schedule 48 (rev (words bytes))) in
  let '(a, b, c, d, e, f, g, h) := fold_left round (combine K ws) s in
  let '(a0, b0, c0, d0, e0, f0, g0, h0) := s in
  (add32 a0 a, add32 b0 b, add32 c0 c, add32 d0 d,
   add32 e0 e, add32 f0 f, add32 g0 g, add32 h0 h).

Fixpoint blocks (n : nat) (s : state) (bytes : list Z) : state :=
  match n with
  | O => s
  | S n' => blocks n' (block s (firstn 64 bytes)) (skipn 64 bytes)
  end.

(** The [n] big-endian bytes of [x], the most significant first. *)
Fixpoint be_bytes (n : nat) (x : Z) : list Z :=
  match n with
  | O => []
  | S n' => (x / 256 ^ Z.of_nat n') mod 256 :: be_bytes n' x
  end.

Definition pad (bytes : list Z) : list Z :=
  let l := Z.of_nat (List.length bytes) in
  (bytes ++ [128] ++ repeat 0 (Z.to_nat ((55 - l) mod 64))
     ++ be_bytes 8 (8 * l))%list.

Definition digest (s : state) : list Z :=
  let '(a, b, c, d, e, f, g, h) := s in
  (be_bytes 4 a ++ be_bytes 4 b ++ be_bytes 4 c ++ be_bytes 4 d
     ++ be_bytes 4 e ++ be_bytes 4 f ++ be_bytes 4 g ++ be_bytes 4 h)%list.

Definition byteZ (b : Byte.byte) : Z := Z.of_N (Byte.to_N b).

(** [h := sha256.New(); h.Write(data); h.Sum(nil)], bytes as numbers. *)
Definition Sum (data : list Byte.byte) : list Z :=
  let padded := pad (map byteZ data) in
  digest (blocks (List.length padded / 64) init padded).

End sha256.

Module hex.

Definition hextable : string := "0123456789abcdef".

Definition digit (n : Z) : ascii :=
  match String.get (Z.to_nat n) hextable with
  | Some c => c
  | None => "0"%char
  end.

(** [hex.EncodeToString]: two lower-case digits for each byte. *)
Fixpoint EncodeToString (src : list Z) : string :=
  match src with
  | [] => ""
  | b :: src' =>
      String (digit (b / 16)) (String (digit (b mod 16)) (EncodeToString src'))
  end.

End hex.

(** ** package api: download *)

Record DownloadResult := {
  Filename : string;
  ExpectedSHA256 : string;
  ActualSHA256 : string;
  Valid : bool
}.

(** What the Go runtime and the operating system decide during a call of
    [DownloadFile]: the order of the two range loops over [Downloads], the
    directory of a path, and the outcome of each file system call. *)
Record System := {
  range_url : gomap DownloadV3 -> gomap DownloadV3;
  range_sha : gomap DownloadV3 -> gomap DownloadV3;
  filepath_Dir : string -> string;
  os_MkdirAll : string -> option error;
  os_Create : string -> option error;
  file_Write : string -> list Byte.byte -> option error
}.

(** [io.Copy(io.MultiWriter(file, hasher), reader)]: the bytes go to the
    file and to the hasher; a failed write or a failed read is the error. *)
Definition io_Copy (sys : System) (destPath : string) (reader : Body)
    : option error :=
  match file_Write sys destPath (body_bytes reader) with
  | Some err => Some err
  | None => body_err reader
  end.

Definition DownloadFile (c : Client) (sys : System)
    (projectID version : string) (build : Z) (destPath : string)
    : option DownloadResult * option error :=
  match GetBuild c projectID version build with
  | Err err => (None, Some (errors_Wrap err "failed to get build info"))
  | Ok buildInfo =>
      let downloadURL := GetDownloadURL (range_url sys) buildInfo in
      if (downloadURL =? "")%string then
        (None, Some (errors_Newf "no download URL found for build %d" [ArgD build]))
      else
        let expectedSHA256 := GetDownloadSHA256 (range_sha sys) buildInfo in
        match DownloadBuild c downloadURL with
        | Err err => (None, Some (errors_Wrap err "failed to download build"))
        | Ok reader =>
            match os_MkdirAll sys (filepath_Dir sys destPath) with
            | Some err =>
                (None, Some (errors_Wrap err "failed to create destination directory"))
            | None =>
                match os_Create sys destPath with
                | Some err =>
                    (None, Some (errors_Wrap err "failed to create destination file"))
                | None =>
                    match io_Copy sys destPath reader with
                    | Some err => (None, Some (errors_Wrap err "failed to copy data"))
                    | None =>
                        let actualSHA256 :=
                          hex.EncodeToString (sha256.Sum (body_bytes reader)) in
                        let valid := (actualSHA256 =? expectedSHA256)%string in
                        let result := {| Filename := destPath;
                                         ExpectedSHA256 := expectedSHA256;
                                         ActualSHA256 := actualSHA256;
                                         Valid := valid |} in
                        if negb valid && negb (expectedSHA256 =? "")%string then
                          (Some result,
                           Some (errors_Newf "SHA256 mismatch: expected %s, got %s"
                                   [ArgS expectedSHA256; ArgS actualSHA256]))
                        else (Some result, None)
                    end
                end
            end
        end
  end.

(** ** Notions used in the statements *)

(** [out] is [decoded] cut to the limit [L]: the whole list when [L] is
    not positive or the list has at most [L] elements, else its last [L]
    elements. *)
Definition limited {T : Type} (L : Z) (decoded out : list T) : Prop :=
  (L <= 0 \/ len decoded <= L -> out = decoded)
  /\ (0 < L < len decoded ->
      len out = L /\ exists dropped, decoded = (dropped ++ out)%list).

(** The greatest ID of a list of builds, 0 for none. *)
Definition maxID (builds : list BuildV3Response) : Z :=
  match builds with
  | [] => 0
  | b :: builds' => fold_right (fun b' m => Z.max (ID b') m) (ID b) builds'
  end.

(** [DownloadFile] gets as far as the end of the copy: the build is
    found and names a URL, the stream opens, the directory and the file are
    created and every byte is copied. *)
Definition copyCompletes (c : Client) (sys : System)
    (projectID version : string) (build : Z) (destPath : string)
    (buildInfo : BuildV3Response) (reader : Body) : Prop :=
  GetBuild c projectID version build = Ok buildInfo
  /\ GetDownloadURL (range_url sys) buildInfo <> ""
  /\ DownloadBuild c (GetDownloadURL (range_url sys) buildInfo) = Ok reader
  /\ os_MkdirAll sys (filepath_Dir sys destPath) = None
  /\ os_Create sys destPath = None
  /\ io_Copy sys destPath reader = None.

(** A network or file system failure of [DownloadFile]: the stream does
    not open, the directory or the file is not created, or the copy of
    the stream that did open fails. *)
Definition transferFails (c : Client) (sys : System) (destPath : string)
    (downloadURL : string) : Prop :=
  (exists err, DownloadBuild c downloadURL = Err err)
  \/ os_MkdirAll sys (filepath_Dir sys destPath) <> None
  \/ os_Create sys destPath <> None
  \/ (exists reader, DownloadBuild c downloadURL = Ok reader
                     /\ io_Copy sys destPath reader <> None).

(** Letters that differ at most in their ASCII case. *)
Definition isUpper (c : ascii) : bool := byte_le "A" c && byte_le c "Z".

Definition sameLetter (a b : ascii) : Prop :=
  a = b
  \/ (isUpper a = true /\ b = ascii_of_nat (nat_of_ascii a + 32))
  \/ (isUpper b = true /\ a = ascii_of_nat (nat_of_ascii b + 32)).

Inductive equalFold : string -> string -> Prop :=
| equalFold_nil : equalFold "" ""
| equalFold_cons a b s t :
    sameLetter a b -> equalFold s t -> equalFold (String a s) (String b t).

(** [v] contains [pattern], letter case apart. *)
Definition containsFold (v pattern : string) : Prop :=
  exists before w after, v = before ++ w ++ after /\ equalFold w pattern.

(** [v] is the last element of [versions] that [isSnapshotOrPreRelease]
    does not flag. *)
Definition newestStable (versions : list string) (v : string) : Prop :=
  exists older newer,
    versions = (older ++ v :: newer)%list
    /\ isSnapshotOrPreRelease v = false
    /\ Forall (fun w => isSnapshotOrPreRelease w = true) newer.

(** ** Sample data *)
Module Sample.

Definition unreachable : error := foreign "connection refused".

Definition download (sha : string) : DownloadV3 :=
  {| Name := "paper-1.21.11-74.jar";
     URL := "https://example.com/paper-1.21.11-74.jar";
     Checksums := {| SHA256 := sha |};
     Size := 3 |}.

(** A build of channel [ch] whose default download declares [sha]. *)
Definition build (id : Z) (ch sha : string) : BuildV3Response :=
  {| ID := id;
     Channel_of := ch;
     Downloads := [("server:default", download sha)] |}.

Definition abc : Body :=
  {| body_bytes := [Byte.x61; Byte.x62; Byte.x63]; body_err := None |}.

(** A service that lists the recommended builds of paper 1.21.11 newest
    first, as the v3 service lists builds, serves build 74 with the
    checksum [sha], and whose download stream is [body]. *)
Definition remote (sha : string) (body : result Body) : Remote :=
  {| get_projects := fun _ => RequestFailed unreachable;
     get_project := fun _ => RequestFailed unreachable;
     get_versions := fun _ => RequestFailed unreachable;
     get_version := fun _ =>
       Fetched {| Version := {| VersionMeta_ID := "1.21.11" |};
                  Builds := [74; 73; 72] |};
     get_builds := fun url =>
       if (url =? "https://fill.papermc.io/v3/projects/paper/versions/1.21.11/builds?channel=RECOMMENDED")%string
       then Fetched [build 74 "RECOMMENDED" sha; build 73 "RECOMMENDED" sha]
       else Fetched [];
     get_build := fun _ => Fetched (build 74 "STABLE" sha);
     get_body := fun _ => body |}.

Definition client (limit : Z) (sha : string) (body : result Body) : Client :=
  {| BaseURL := "https://fill.papermc.io";
     HTTPClient := remote sha body;
     Limit := limit;
     Channel_filter := "" |}.

(** A system on which every file system call succeeds. *)
Definition system : System :=
  {| range_url := fun m => m;
     range_sha := fun m => m;
     filepath_Dir := fun _ => "server";
     os_MkdirAll := fun _ => None;
     os_Create := fun _ => None;
     file_Write := fun _ _ => None |}.

Definition project (versions : gomap (list string)) : ProjectV3Response :=
  {| Project := {| ProjectMeta_ID := "paper"; ProjectMeta_Name := "Paper" |};
     Versions := versions |}.

End Sample.

Module SampleCatalog.

(** A service that knows one project, with the version groups
    [versions]. *)
Definition remote (versions : gomap (list string)) : Remote :=
  {| get_projects := fun _ => RequestFailed Sample.unreachable;
     get_project := fun _ => Fetched (Sample.project versions);
     get_versions := fun _ => RequestFailed Sample.unreachable;
     get_version := fun _ => RequestFailed Sample.unreachable;
     get_builds := fun _ => RequestFailed Sample.unreachable;
     get_build := fun _ => RequestFailed Sample.unreachable;
     get_body := fun _ => Err Sample.unreachable |}.

Definition client (versions : gomap (list string)) : Client :=
  {| BaseURL := "https://fill.papermc.io";
     HTTPClient := remote versions;
     Limit := 0;
     Channel_filter := "" |}.

Definition groups : gomap (list string) :=
  [("1.21", ["1.21.11-rc3"; "1.21.10"]); ("1.7", ["1.7.10"])].

End SampleCatalog.

(** ** Comparators

    A comparator in the manner of Go returns a negative number, zero or a
    positive number.  The order of [semver.Compare] is rebuilt below from
    small comparators, to show that it is a total preorder. *)
Module Cmp.

(** [cmp] is a total preorder: turning the arguments round turns the
    sign, and [<= 0] is transitive. *)
Definition total {A : Type} (cmp : A -> A -> Z) : Prop :=
  (forall x y, cmp y x = - cmp x y)
  /\ (forall x y z, cmp x y <= 0 -> cmp y z <= 0 -> cmp x z <= 0).

(** [c1], and [c2] where [c1] ties: Go's [if c != 0 { return c }]. *)
Definition lex {A : Type} (c1 c2 : A -> A -> Z) (x y : A) : Z :=
  if negb (c1 x y =? 0) then c1 x y else c2 x y.

Definition on {A B : Type} (f : A -> B) (cmp : B -> B -> Z) (x y : A) : Z :=
  cmp (f x) (f y).

Definition num (x y : Z) : Z :=
  if x <? y then -1 else if y <? x then 1 else 0.

(** Byte strings in the order of Go's [<]. *)
Definition str (x y : string) : Z :=
  if (x =? y)%string then 0 else if (x <? y)%string then -1 else 1.

(** [None] before every [Some]. *)
Definition noneFirst {A : Type} (cmp : A -> A -> Z) (x y : option A) : Z :=
  match x, y with
  | None, None => 0
  | None, Some _ => -1
  | Some _, None => 1
  | Some a, Some b => cmp a b
  end.

(** [None] after every [Some]. *)
Definition noneLast {A : Type} (cmp : A -> A -> Z) (x y : option A) : Z :=
  match x, y with
  | None, None => 0
  | None, Some _ => 1
  | Some _, None => -1
  | Some a, Some b => cmp a b
  end.

(** Lists, element by element; a list before the lists it begins. *)
Fixpoint lists {A : Type} (cmp : A -> A -> Z) (l1 l2 : list A) : Z :=
  match l1, l2 with
  | [], [] => 0
  | [], _ :: _ => -1
  | _ :: _, [] => 1
  | a :: l1', b :: l2' =>
      if negb (cmp a b =? 0) then cmp a b else lists cmp l1' l2'
  end.

End Cmp.

Module SemverOrder.

Definition strlen (s : string) : Z := Z.of_nat (String.length s).

(** The order of [semver.compareInt]: shorter numbers first. *)
Definition number : string -> string -> Z :=
  Cmp.lex (Cmp.on strlen Cmp.num) Cmp.str.

(** The order of the identifiers of a prerelease: numbers first, by
    length and then as strings; the others as strings. *)
Definition identClass (d : string) : Z := if semver.isNum d then 0 else 1.

Definition identLength (d : string) : Z :=
  if semver.isNum d then strlen d else 0.

Definition ident : string -> string -> Z :=
  Cmp.lex (Cmp.on identClass Cmp.num)
          (Cmp.lex (Cmp.on identLength Cmp.num) Cmp.str).

(** The identifiers between the dots of [s]. *)
Fixpoint splitDot (s : string) : list string :=
  match s with
  | "" => [""]
  | String c s' =>
      if Ascii.eqb c "." then "" :: splitDot s'
      else match splitDot s' with
           | d :: ds => String c d :: ds
           | [] => [String c ""]
           end
  end.

(** A prerelease as [semver.parse] leaves it: [None] for the empty one of
    a release, else the identifiers after the hyphen. *)
Definition idents (pre : string) : option (list string) :=
  match pre with
  | "" => None
  | String _ s => Some (splitDot s)
  end.

(** The order of [semver.comparePrerelease]. *)
Definition pre : option (list string) -> option (list string) -> Z :=
  Cmp.noneLast (Cmp.lists ident).

(** What [semver.Compare] looks at in a version. *)
Definition key (p : semver.parsed) : (string * string * string) * option (list string) :=
  ((semver.major p, semver.minor p, semver.patch p),
   idents (semver.prerelease p)).

Definition version : semver.parsed -> semver.parsed -> Z :=
  Cmp.lex (Cmp.on semver.major number)
    (Cmp.lex (Cmp.on semver.minor number)
       (Cmp.lex (Cmp.on semver.patch number)
          (Cmp.on (fun p => idents (semver.prerelease p)) pre))).

(** A prerelease as [semver.parse] leaves it: empty, or a hyphen and more. *)
Definition wellFormedPre (x : string) : Prop :=
  x = "" \/ exists s, x = String "-" s.

(** The loop of [semver.comparePrerelease] on the lists of identifiers. *)
Fixpoint loop (l1 l2 : list string) : Z :=
  match l1, l2 with
  | [], _ => -1
  | _ :: _, [] => 1
  | a :: l1', b :: l2' =>
      if negb (a =? b)%string then semver.compareIdent a b else loop l1' l2'
  end.

End SemverOrder.

(** The order in which [FlattenVersions] leaves two identifiers. *)
Definition semverLe (a b : string) : Prop :=
  semver.Compare (String "v" a) (String "v" b) <= 0.

(** No two different identifiers of [l] tie under [semver.Compare]. *)
Definition noTies (l : list string) : Prop :=
  forall a b, In a l -> In b l ->
              semver.Compare (String "v" a) (String "v" b) = 0 -> a = b.

(** All the identifiers of the groups, in the order of the entries. *)
Definition allVersionsOf (groups : gomap (list string)) : list string :=
  List.concat (map snd groups).

(** The same mapping in another order of the groups and of the lists
    inside them. *)
Definition sameGroups (g1 g2 : gomap (list string)) : Prop :=
  exists g, Permutation g1 g
            /\ Forall2 (fun a b => fst a = fst b /\ Permutation (snd a) (snd b))
                       g g2.

Definition noTiesb (l : list string) : bool :=
  forallb (fun a =>
    forallb (fun b =>
      implb (semver.Compare (String "v" a) (String "v" b) =? 0) (a =? b)%string)
      l) l.

(** ** The comparator of the specification

    Section 4.1 in its own words: an identifier is a numeric prefix, the
    numbers between the dots before the first hyphen, and an optional
    suffix after that hyphen; prefixes compare number by number, the
    shorter one padded with zeros; on equal prefixes a suffix comes before
    no suffix, and two suffixes compare as strings. *)
Module SpecOrder.

(** The text before the first hyphen, and the text after it if any. *)
Fixpoint splitHyphen (id : string) : string * option string :=
  match id with
  | "" => ("", None)
  | String c id' =>
      if Ascii.eqb c "-" then ("", Some id')
      else let (prefix, suffix) := splitHyphen id' in (String c prefix, suffix)
  end.

Definition digitValue (c : ascii) : Z := Z.of_nat (nat_of_ascii c) - 48.

(** The numbers between the dots of [s]; [acc] is the number being read. *)
Fixpoint numbers (acc : Z) (s : string) : list Z :=
  match s with
  | "" => [acc]
  | String c s' =>
      if Ascii.eqb c "." then acc :: numbers 0 s'
      else numbers (10 * acc + digitValue c) s'
  end.

Definition numericPrefix (id : string) : list Z :=
  numbers 0 (fst (splitHyphen id)).

Definition suffix (id : string) : option string := snd (splitHyphen id).

(** A prefix against as many zeros. *)
Fixpoint againstZeros (l : list Z) : Z :=
  match l with
  | [] => 0
  | x :: l' => if negb (Cmp.num x 0 =? 0) then Cmp.num x 0 else againstZeros l'
  end.

Fixpoint compareNumeric (a b : list Z) : Z :=
  match a, b with
  | [], _ => - againstZeros b
  | _ :: _, [] => againstZeros a
  | x :: a', y :: b' =>
      if negb (Cmp.num x y =? 0) then Cmp.num x y else compareNumeric a' b'
  end.

Definition compare : string -> string -> Z :=
  Cmp.lex (Cmp.on numericPrefix compareNumeric)
          (Cmp.on suffix (Cmp.noneLast Cmp.str)).

End SpecOrder.

Definition specLe (a b : string) : Prop := SpecOrder.compare a b <= 0.

(** ** Identifiers on which the two comparators agree

    One, two or three decimal numbers without leading zeros between dots,
    and after three numbers an optional hyphen and suffix: letters, digits
    and hyphens, not all of them digits. *)
Module Plain.

Fixpoint all (f : ascii -> bool) (s : string) : bool :=
  match s with
  | "" => true
  | String c s' => f c && all f s'
  end.

Definition number (n : string) : Prop :=
  n <> "" /\ semver.isNum n = true /\ semver.isBadNum n = false.

Definition suffix (s : string) : Prop :=
  s <> "" /\ all semver.isIdentChar s = true /\ semver.isNum s = false.

Inductive version : string -> Prop :=
| one ma : number ma -> version ma
| two ma mi : number ma -> number mi -> version (ma ++ "." ++ mi)
| three ma mi pa :
    number ma -> number mi -> number pa ->
    version (ma ++ "." ++ mi ++ "." ++ pa)
| pre ma mi pa suf :
    number ma -> number mi -> number pa -> suffix suf ->
    version (ma ++ "." ++ mi ++ "." ++ pa ++ "-" ++ suf).

(** The identifiers of three numbers. *)
Definition compose (ma mi pa : string) (suf : option string) : string :=
  ma ++ "." ++ mi ++ "." ++ pa
     ++ match suf with Some s => "-" ++ s | None => "" end.

Definition full (id : string) : Prop :=
  exists ma mi pa suf,
    number ma /\ number mi /\ number pa
    /\ (forall s, suf = Some s -> suffix s)
    /\ id = compose ma mi pa suf.

(** A string that does not go on with a digit. *)
Definition stops (rest : string) : Prop :=
  match rest with
  | "" => True
  | String c _ => isDigit c = false
  end.

(** The value of the decimal digits [s] after the value [acc]. *)
Fixpoint decimal (acc : Z) (s : string) : Z :=
  match s with
  | "" => acc
  | String c s' => decimal (10 * acc + SpecOrder.digitValue c) s'
  end.

(** The prerelease that [semver.parse] keeps for a suffix. *)
Definition prerelease (suf : option string) : string :=
  match suf with
  | Some s => String "-" s
  | None => ""
  end.

(** [id] has the numbers [ma], [mi], [pa] and the suffix [suf] under both
    comparators: [semver.parse] finds them, and the comparator of the
    specification sees their values, padded with zeros. *)
Definition keyed (id ma mi pa : string) (suf : option string) : Prop :=
  number ma /\ number mi /\ number pa
  /\ (forall s, suf = Some s -> suffix s)
  /\ (exists sh, semver.parse (String "v" id)
                 = Some (semver.mkParsed ma mi pa sh (prerelease suf) ""))
  /\ (exists l, SpecOrder.numericPrefix id = l
                /\ (l ++ repeat 0 (3 - List.length l))%list
                   = [decimal 0 ma; decimal 0 mi; decimal 0 pa])
  /\ SpecOrder.suffix id = suf.

End Plain.

(** [FlattenVersions p] as the specification describes it: all the
    identifiers, ascending under the comparator of the specification, and
    the same for every order of the groups and inside them. *)
Definition flattensAsSpecified (p : ProjectV3Response) : Prop :=
  Permutation (FlattenVersions p) (allVersionsOf (Versions p))
  /\ StronglySorted specLe (FlattenVersions p)
  /\ (forall p', sameGroups (Versions p) (Versions p') ->
                 FlattenVersions p' = FlattenVersions p).

Module SampleVersions.

(** The groups of the regression case of the specification. *)
Definition regression : gomap (list string) :=
  [("1.21", ["1.21.11"; "1.21.11-rc3"; "1.21.10"]); ("1.7", ["1.7.10"])].

(** The same groups in another order, inside and outside. *)
Definition regression' : gomap (list string) :=
  [("1.7", ["1.7.10"]); ("1.21", ["1.21.10"; "1.21.11"; "1.21.11-rc3"])].

(** Two prereleases of a version of two numbers, as PaperMC publishes
    them, and a release. *)
Definition prereleases : gomap (list string) :=
  [("1.13", ["1.13-pre7"; "1.13-pre5"]); ("1.7", ["1.7.10"])].

Definition prereleases' : gomap (list string) :=
  [("1.13", ["1.13-pre5"; "1.13-pre7"]); ("1.7", ["1.7.10"])].

End SampleVersions.

(** ** package api: the other high-level calls of the v3 client *)

(** The order of one range loop over the downloads of a build. *)
Definition rangeOrder : Type := gomap DownloadV3 -> gomap DownloadV3.

(** What the calls below need besides the client: the system of
    [DownloadFile], the order of the range loop of [GetDownloadName] and
    of the one of [GetDownloadURL] outside [DownloadFile], and
    [filepath.Join]. *)
Record Runtime := {
  rt_system : System;
  rt_range_name : rangeOrder;
  rt_range_url : rangeOrder;
  filepath_Join : string -> string -> string
}.

Definition GetLatestBuild (c : Client) (projectID version : string)
    : Z * option error :=
  match GetLatestBuildV3 c projectID version with
  | Err err => (0, Some (errors_Wrap err "failed to get latest build"))
  | Ok build => (ID build, None)
  end.

Definition GetLatestVersion (c : Client) (projectID : string)
    : string * option error :=
  match GetProject c projectID with
  | Err err => ("", Some (errors_Wrap err "failed to get project info"))
  | Ok projectInfo =>
      let versions := FlattenVersions projectInfo in
      if len versions =? 0
      then ("", Some (errors_New "no versions found for this project"))
      else (last versions "", None)
  end.

Definition GetDefaultDownloadName (c : Client) (rt : Runtime)
    (projectID version : string) (build : Z) : string * option error :=
  match GetBuild c projectID version build with
  | Err err => ("", Some (errors_Wrap err "failed to get build info"))
  | Ok buildInfo =>
      let name := GetDownloadName (rt_range_name rt) buildInfo in
      if (name =? "")%string
      then ("", Some (errors_New "no downloads found for this build"))
      else (name, None)
  end.

Definition DownloadLatestBuild (c : Client) (rt : Runtime)
    (projectID version destDir : string)
    : option DownloadResult * option error :=
  match GetLatestBuildV3 c projectID version with
  | Err err => (None, Some (errors_Wrap err "failed to get latest build"))
  | Ok build =>
      let downloadName := GetDownloadName (rt_range_name rt) build in
      if (downloadName =? "")%string
      then (None, Some (errors_New "no download found for this build"))
      else
        let destPath := filepath_Join rt destDir downloadName in
        match DownloadFile c (rt_system rt) projectID version (ID build) destPath with
        | (_, Some err) => (None, Some (errors_Wrap err "failed to download file"))
        | (result, None) => (result, None)
        end
  end.

Definition DownloadLatestStableVersion (c : Client) (rt : Runtime)
    (projectID destDir : string) : option DownloadResult * option error :=
  match GetLatestVersion c projectID with
  | (_, Some err) => (None, Some (errors_Wrap err "failed to get latest version"))
  | (version, None) =>
      match DownloadLatestBuild c rt projectID version destDir with
      | (_, Some err) => (None, Some (errors_Wrap err "failed to download latest build"))
      | (result, None) => (result, None)
      end
  end.

Definition DownloadPromotedBuild (c : Client) (rt : Runtime)
    (projectID version destDir : string)
    : option DownloadResult * option error :=
  match FindPromotedBuild c projectID version with
  | (_, Some err) => (None, Some (errors_Wrap err "failed to find promoted build"))
  | (buildNum, None) =>
      match GetDefaultDownloadName c rt projectID version buildNum with
      | (_, Some err) =>
          (None, Some (errors_Wrap err "failed to get default download name"))
      | (downloadName, None) =>
          let destPath := filepath_Join rt destDir downloadName in
          match DownloadFile c (rt_system rt) projectID version buildNum destPath with
          | (_, Some err) => (None, Some (errors_Wrap err "failed to download file"))
          | (result, None) => (result, None)
          end
      end
  end.

Definition GetLatestBuildURL (c : Client) (rt : Runtime)
    (projectID version : string) : string * option error :=
  match GetLatestBuildV3 c projectID version with
  | Err err => ("", Some (errors_Wrap err "failed to get latest build"))
  | Ok build =>
      let url := GetDownloadURL (rt_range_url rt) build in
      if (url =? "")%string
      then ("", Some (errors_New "no download URL found for this build"))
      else (url, None)
  end.

Definition GetLatestVersionURL (c : Client) (rt : Runtime)
    (projectID : string) : string * option error :=
  match GetLatestVersion c projectID with
  | (_, Some err) => ("", Some (errors_Wrap err "failed to get latest version"))
  | (version, None) =>
      match GetLatestBuildURL c rt projectID version with
      | (_, Some err) => ("", Some (errors_Wrap err "failed to get latest build URL"))
      | (url, None) => (url, None)
      end
  end.

Definition GetPromotedBuildURL (c : Client) (rt : Runtime)
    (projectID version : string) : string * option error :=
  match FindPromotedBuild c projectID version with
  | (_, Some err) => ("", Some (errors_Wrap err "failed to find promoted build"))
  | (buildNum, None) =>
      match GetBuild c projectID version buildNum with
      | Err err => ("", Some (errors_Wrap err "failed to get build info"))
      | Ok build =>
          let url := GetDownloadURL (rt_range_url rt) build in
          if (url =? "")%string
          then ("", Some (errors_New "no download URL found for this build"))
          else (url, None)
      end
  end.

Definition GetBuildURL (c : Client) (rt : Runtime)
    (projectID version : string) (build : Z) : string * option error :=
  match GetBuild c projectID version build with
  | Err err => ("", Some (errors_Wrap err "failed to get build info"))
  | Ok buildInfo =>
      let url := GetDownloadURL (rt_range_url rt) buildInfo in
      if (url =? "")%string
      then ("", Some (errors_New "no download URL found for this build"))
      else (url, None)
  end.

(** [NewClient], over the HTTP client [http]. *)
Definition DefaultBaseURL : string := "https://fill.papermc.io".

Definition NewClient (http : Remote) : Client :=
  {| BaseURL := DefaultBaseURL;
     HTTPClient := http;
     Limit := 0;
     Channel_filter := "" |}.

Definition WithBaseURL (c : Client) (baseURL : string) : Client :=
  {| BaseURL := baseURL;
     HTTPClient := HTTPClient c;
     Limit := Limit c;
     Channel_filter := Channel_filter c |}.

Definition WithLimit (c : Client) (limit : Z) : Client :=
  {| BaseURL := BaseURL c;
     HTTPClient := HTTPClient c;
     Limit := limit;
     Channel_filter := Channel_filter c |}.

Definition WithChannel (c : Client) (channel : Channel) : Client :=
  {| BaseURL := BaseURL c;
     HTTPClient := HTTPClient c;
     Limit := Limit c;
     Channel_filter := channel |}.

(** ** package cmd: the commands of the v3 command line

    A command prints and may leave with status 1; what it prints is the
    value of [Printed], and [Exit1] carries the cause it reports. *)
Module cmd.

Inductive outcome (T : Type) :=
| Printed (out : T)
| Exit1 (cause : error).
Arguments Printed {T} out.
Arguments Exit1 {T} cause.

(** [errors.UnwrapAll]: the innermost cause. *)
Fixpoint UnwrapAll (err : error) : error :=
  match err with
  | errors_Wrap cause _ => UnwrapAll cause
  | _ => err
  end.

(** [sort.Sort(sort.Reverse(sort.StringSlice(data)))]: [Less(i, j)] is
    [data[j] < data[i]].  Strings that tie are equal, so every sort
    returns the list that the insertion sort returns. *)
Definition sortReverse (data : list string) : list string :=
  sort.Slice (fun a b => (b <? a)%string) data.

(** [list versions PROJECT_ID], with [limit] the value of [GetLimit()]:
    the lines it prints. *)
Definition listVersions (http : Remote) (limit : Z) (projectID : string)
    : outcome (list string) :=
  let client := NewClient http in
  match GetProject client projectID with
  | Err err => Exit1 (UnwrapAll err)
  | Ok projectInfo =>
      let versions := FlattenVersions projectInfo in
      let versions :=
        if (limit >? 0) && (len versions >? limit)
        then skipn (Z.to_nat (len versions - limit)) versions
        else versions in
      Printed (sortReverse versions)
  end.





End cmd.

(** The last [n] elements of [l], all of them when [n] is not positive. *)
Definition lastN {T : Type} (n : Z) (l : list T) : list T :=
  if n >? 0 then skipn (List.length l - Z.to_nat n) l else l.

(** A call of [GetBuilds] that gives no build: an error or an empty list. *)
Definition noBuilds (r : result (list BuildV3Response)) : Prop :=
  match r with
  | Ok (_ :: _) => False
  | _ => True
  end.

Module SampleRun.

(** A runtime on which every file system call succeeds and a range loop
    visits the entries in their order; [filepath.Join] of two clean
    names. *)
Definition runtime : Runtime :=
  {| rt_system := Sample.system;
     rt_range_name := fun m => m;
     rt_range_url := fun m => m;
     filepath_Join := fun dir name => dir ++ "/" ++ name |}.

End SampleRun.

Module SampleList.

(** Two groups whose newest version has the smaller first byte after
    ["1."]. *)
Definition groups : gomap (list string) :=
  [("1.9", ["1.9.4"]); ("1.10", ["1.10.2"])].

End SampleList.

Module SampleMatrix.

(** A service with the regression groups on which the release candidate
    has no latest build. *)
Definition remote : Remote :=
  {| get_projects := fun _ => RequestFailed Sample.unreachable;
     get_project := fun _ => Fetched (Sample.project SampleVersions.regression);
     get_versions := fun _ => RequestFailed Sample.unreachable;
     get_version := fun _ => RequestFailed Sample.unreachable;
     get_builds := fun _ => RequestFailed Sample.unreachable;
     get_build := fun url =>
       if Contains url "1.21.11-rc3" then RequestFailed Sample.unreachable
       else Fetched (Sample.build 74 "STABLE" "abc123");
     get_body := fun _ => Err Sample.unreachable |}.

End SampleMatrix.

Module SampleDownloads.

(** A build with two downloads, neither under ["server:default"]. *)
Definition server : DownloadV3 :=
  {| Name := "paper-1.21.11-74.jar";
     URL := "https://example.com/paper-1.21.11-74.jar";
     Checksums := {| SHA256 := "abc123" |};
     Size := 3 |}.

Definition mojang : DownloadV3 :=
  {| Name := "paper-mojmap-1.21.11-74.jar";
     URL := "https://example.com/paper-mojmap-1.21.11-74.jar";
     Checksums := {| SHA256 := "def456" |};
     Size := 3 |}.

Definition build : BuildV3Response :=
  {| ID := 74;
     Channel_of := "STABLE";
     Downloads := [("server:application", server); ("server:mojang", mojang)] |}.

End SampleDownloads.

(** What [FindPromotedBuild] takes from a channel query: the ID of the
    last build, when there is a build. *)
Definition promotedOf (r : result (list BuildV3Response)) : option Z :=
  match r with
  | Ok (b :: builds) => Some (lastID (b :: builds))
  | _ => None
  end.

(** ** path/filepath *)

Fixpoint hasDotOrSeparator (s : string) : bool :=
  match s with
  | "" => false
  | String c s' => (c =? ".")%char || (c =? "/")%char || hasDotOrSeparator s'
  end.

(** [filepath.Ext] with the separator ['/']: the loop runs from the last
    byte down and stops at the first ['.'], which starts the extension, or
    at the first separator, which leaves none. *)
Fixpoint filepath_Ext (path : string) : string :=
  match path with
  | "" => ""
  | String c rest =>
      if hasDotOrSeparator rest then filepath_Ext rest
      else if (c =? ".")%char then path
      else ""
  end.

(** * The v2 client: the earlier revision of package api

    The records keep the fields that the package reads or writes. *)
Module V2.

Record Change := {
  Commit : string;
  Summary : string;
  Message : string
}.

Record Download := {
  Name : string;
  SHA256 : string
}.

Record ProjectResponse := {
  VersionGroups : list string;
  Versions : list string
}.

Record VersionResponse := {
  Builds : list Z
}.

Record VersionBuild := {
  Build : Z;
  Promoted : bool
}.

(** [BuildsResponse]; [VersionBuilds] is its field [Builds]. *)
Record BuildsResponse := {
  VersionBuilds : list VersionBuild
}.

Record BuildResponse := {
  Changes : list Change;
  Downloads : gomap Download
}.

Record Remote := {
  get_project : string -> fetched ProjectResponse;
  get_version : string -> fetched VersionResponse;
  get_builds : string -> fetched BuildsResponse;
  get_build : string -> fetched BuildResponse;
  get_body : string -> result Body
}.

Record Client := {
  BaseURL : string;
  HTTPClient : Remote;
  Limit : Z
}.

Definition WithLimit (c : Client) (limit : Z) : Client :=
  {| BaseURL := BaseURL c; HTTPClient := HTTPClient c; Limit := limit |}.

(** "Apply limit if set": [items[len(items)-c.Limit:]] when the limit is
    positive and smaller than the length. *)
Definition applyLimit {T : Type} (c : Client) (items : list T) : list T :=
  if (Limit c >? 0) && (len items >? Limit c)
  then skipn (Z.to_nat (len items - Limit c)) items
  else items.

Definition GetProject (c : Client) (projectID : string) : result ProjectResponse :=
  let url := BaseURL c ++ "/v2/projects/" ++ projectID in
  match get_project (HTTPClient c) url with
  | RequestFailed err => Err (errors_Wrap err "failed to request project")
  | DecodeFailed err => Err (errors_Wrap err "failed to decode project response")
  | Fetched projectResp =>
      Ok {| VersionGroups := applyLimit c (VersionGroups projectResp);
            Versions := applyLimit c (Versions projectResp) |}
  end.

Definition GetVersion (c : Client) (projectID version : string)
    : result VersionResponse :=
  let url := BaseURL c ++ "/v2/projects/" ++ projectID ++ "/versions/" ++ version in
  match get_version (HTTPClient c) url with
  | RequestFailed err => Err (errors_Wrap err "failed to request version")
  | DecodeFailed err => Err (errors_Wrap err "failed to decode version response")
  | Fetched versionResp => Ok {| Builds := applyLimit c (Builds versionResp) |}
  end.

Definition GetBuilds (c : Client) (projectID version : string)
    : result BuildsResponse :=
  let url := BaseURL c ++ "/v2/projects/" ++ projectID ++ "/versions/"
               ++ version ++ "/builds" in
  match get_builds (HTTPClient c) url with
  | RequestFailed err => Err (errors_Wrap err "failed to request builds")
  | DecodeFailed err => Err (errors_Wrap err "failed to decode builds response")
  | Fetched buildsResp =>
      Ok {| VersionBuilds := applyLimit c (VersionBuilds buildsResp) |}
  end.

Definition GetBuild (c : Client) (projectID version : string) (build : Z)
    : result BuildResponse :=
  let url := BaseURL c ++ "/v2/projects/" ++ projectID ++ "/versions/"
               ++ version ++ "/builds/" ++ fmt_d build in
  match get_build (HTTPClient c) url with
  | RequestFailed err => Err (errors_Wrap err "failed to request build")
  | DecodeFailed err => Err (errors_Wrap err "failed to decode build response")
  | Fetched buildResp =>
      Ok {| Changes := applyLimit c (Changes buildResp);
            Downloads := Downloads buildResp |}
  end.

Definition FormatDownloadURL (c : Client) (projectID version : string)
    (build : Z) (downloadName : string) : string :=
  BaseURL c ++ "/v2/projects/" ++ projectID ++ "/versions/" ++ version
    ++ "/builds/" ++ fmt_d build ++ "/downloads/" ++ downloadName.

Definition DownloadBuild (c : Client) (projectID version : string)
    (build : Z) (download : string) : result Body :=
  let url := BaseURL c ++ "/v2/projects/" ++ projectID ++ "/versions/" ++ version
               ++ "/builds/" ++ fmt_d build ++ "/downloads/" ++ download in
  match get_body (HTTPClient c) url with
  | Err err => Err (errors_Wrap err "failed to download build")
  | Ok body => Ok body
  end.

Definition DownloadFile (c : Client) (sys : System)
    (projectID version : string) (build : Z) (downloadName destPath : string)
    : option DownloadResult * option error :=
  match GetBuild c projectID version build with
  | Err err => (None, Some (errors_Wrap err "failed to get build info"))
  | Ok buildInfo =>
      match lookup (Downloads buildInfo) downloadName with
      | None =>
          (None, Some (errors_Newf "download %s not found in build %d"
                         [ArgS downloadName; ArgD build]))
      | Some download =>
          match DownloadBuild c projectID version build downloadName with
          | Err err => (None, Some (errors_Wrap err "failed to download build"))
          | Ok reader =>
              match os_MkdirAll sys (filepath_Dir sys destPath) with
              | Some err =>
                  (None, Some (errors_Wrap err "failed to create destination directory"))
              | None =>
                  match os_Create sys destPath with
                  | Some err =>
                      (None, Some (errors_Wrap err "failed to create destination file"))
                  | None =>
                      match io_Copy sys destPath reader with
                      | Some err => (None, Some (errors_Wrap err "failed to copy data"))
                      | None =>
                          let actualSHA256 :=
                            hex.EncodeToString (sha256.Sum (body_bytes reader)) in
                          let valid := (actualSHA256 =? SHA256 download)%string in
                          let result := {| Filename := destPath;
                                           ExpectedSHA256 := SHA256 download;
                                           ActualSHA256 := actualSHA256;
                                           Valid := valid |} in
                          if negb valid then
                            (Some result,
                             Some (errors_Newf "SHA256 mismatch: expected %s, got %s"
                                     [ArgS (SHA256 download); ArgS actualSHA256]))
                          else (Some result, None)
                      end
                  end
              end
          end
      end
  end.

Definition GetLatestBuild (c : Client) (projectID version : string)
    : Z * option error :=
  match GetVersion c projectID version with
  | Err err => (0, Some (errors_Wrap err "failed to get version info"))
  | Ok versionInfo =>
      if len (Builds versionInfo) =? 0
      then (0, Some (errors_New "no builds found for this version"))
      else (last (Builds versionInfo) 0, None)
  end.

Definition GetLatestVersion (c : Client) (projectID : string)
    : string * option error :=
  match GetProject c projectID with
  | Err err => ("", Some (errors_Wrap err "failed to get project info"))
  | Ok projectInfo =>
      if len (Versions projectInfo) =? 0
      then ("", Some (errors_New "no versions found for this project"))
      else (last (Versions projectInfo) "", None)
  end.

(** The order of one range loop over the downloads of a build. *)
Definition rangeOrder : Type := gomap Download -> gomap Download.

(** What the high-level calls need besides the client: the system of
    [DownloadFile], the orders of the two range loops of
    [GetDefaultDownloadName], and [filepath.Join]. *)
Record Runtime := {
  rt_system : System;
  rt_range_jar : rangeOrder;
  rt_range_any : rangeOrder;
  filepath_Join : string -> string -> string
}.

Definition GetDefaultDownloadName (c : Client) (rt : Runtime)
    (projectID version : string) (build : Z) : string * option error :=
  match GetBuild c projectID version build with
  | Err err => ("", Some (errors_Wrap err "failed to get build info"))
  | Ok buildInfo =>
      match lookup (Downloads buildInfo) "application" with
      | Some download => (Name download, None)
      | None =>
          match find (fun kv : string * Download =>
                        (filepath_Ext (Name (snd kv)) =? ".jar")%string)
                     (rt_range_jar rt (Downloads buildInfo)) with
          | Some (_, download) => (Name download, None)
          | None =>
              match rt_range_any rt (Downloads buildInfo) with
              | (_, download) :: _ => (Name download, None)
              | [] => ("", Some (errors_New "no downloads found for this build"))
              end
          end
      end
  end.

Definition DownloadLatestBuild (c : Client) (rt : Runtime)
    (projectID version destDir : string)
    : option DownloadResult * option error :=
  match GetLatestBuild c projectID version with
  | (_, Some err) => (None, Some (errors_Wrap err "failed to get latest build number"))
  | (buildNum, None) =>
      match GetDefaultDownloadName c rt projectID version buildNum with
      | (_, Some err) =>
          (None, Some (errors_Wrap err "failed to get default download name"))
      | (downloadName, None) =>
          let destPath := filepath_Join rt destDir downloadName in
          match DownloadFile c (rt_system rt) projectID version buildNum
                  downloadName destPath with
          | (_, Some err) => (None, Some (errors_Wrap err "failed to download file"))
          | (result, None) => (result, None)
          end
      end
  end.

Definition DownloadLatestStableVersion (c : Client) (rt : Runtime)
    (projectID destDir : string) : option DownloadResult * option error :=
  match GetLatestVersion c projectID with
  | (_, Some err) => (None, Some (errors_Wrap err "failed to get latest version"))
  | (version, None) =>
      match DownloadLatestBuild c rt projectID version destDir with
      | (_, Some err) => (None, Some (errors_Wrap err "failed to download latest build"))
      | (result, None) => (result, None)
      end
  end.

(** The loop of [FindPromotedBuild] from the last index down to 0. *)
Definition lastPromoted (builds : list VersionBuild) : option VersionBuild :=
  find Promoted (rev builds).

Definition FindPromotedBuild (c : Client) (projectID version : string)
    : Z * option error :=
  match GetBuilds c projectID version with
  | Err err => (0, Some (errors_Wrap err "failed to get builds"))
  | Ok builds =>
      match lastPromoted (VersionBuilds builds) with
      | Some b => (Build b, None)
      | None =>
          if len (VersionBuilds builds) >? 0
          then (Build (last (VersionBuilds builds) {| Build := 0; Promoted := false |}),
                None)
          else (0, Some (errors_New "no builds found for this version"))
      end
  end.

Definition DownloadPromotedBuild (c : Client) (rt : Runtime)
    (projectID version destDir : string)
    : option DownloadResult * option error :=
  match FindPromotedBuild c projectID version with
  | (_, Some err) => (None, Some (errors_Wrap err "failed to find promoted build"))
  | (buildNum, None) =>
      match GetDefaultDownloadName c rt projectID version buildNum with
      | (_, Some err) =>
          (None, Some (errors_Wrap err "failed to get default download name"))
      | (downloadName, None) =>
          let destPath := filepath_Join rt destDir downloadName in
          match DownloadFile c (rt_system rt) projectID version buildNum
                  downloadName destPath with
          | (_, Some err) => (None, Some (errors_Wrap err "failed to download file"))
          | (result, None) => (result, None)
          end
      end
  end.

(** [s[n:]]. *)
Fixpoint sliceFrom (n : nat) (s : string) : string :=
  match n, s with
  | O, _ => s
  | S n', String _ s' => sliceFrom n' s'
  | S _, "" => ""
  end.

(** [contains]: [len(s) >= len(substr) && s[len(s)-len(substr):] == substr]. *)
Definition contains (s substr : string) : bool :=
  (String.length substr <=? String.length s)%nat
  && (sliceFrom (String.length s - String.length substr) s =? substr)%string.

Definition isSnapshotOrPreRelease (version : string) : bool :=
  contains version "SNAPSHOT" || contains version "pre".

(** The loop of [GetRecommendedVersion] from the last index down to 0. *)
Definition lastStable (versions : list string) : option string :=
  find (fun version => negb (isSnapshotOrPreRelease version)) (rev versions).

Definition GetRecommendedVersion (c : Client) (projectID : string)
    : string * option error :=
  match GetProject c projectID with
  | Err err => ("", Some (errors_Wrap err "failed to get project info"))
  | Ok projectInfo =>
      if len (Versions projectInfo) =? 0
      then ("", Some (errors_New "no versions found for this project"))
      else
        match lastStable (Versions projectInfo) with
        | Some version => (version, None)
        | None => (last (Versions projectInfo) "", None)
        end
  end.

Definition GetLatestBuildURL (c : Client) (rt : Runtime)
    (projectID version : string) : string * option error :=
  match GetLatestBuild c projectID version with
  | (_, Some err) => ("", Some (errors_Wrap err "failed to get latest build number"))
  | (buildNum, None) =>
      match GetDefaultDownloadName c rt projectID version buildNum with
      | (_, Some err) =>
          ("", Some (errors_Wrap err "failed to get default download name"))
      | (downloadName, None) =>
          (FormatDownloadURL c projectID version buildNum downloadName, None)
      end
  end.

(** A service that lists [versions] and [builds], serves every build with
    [downloads], and whose download stream is [body]. *)
Definition sampleRemote (versions : list string) (builds : list VersionBuild)
    (downloads : gomap Download) (body : result Body) : Remote :=
  {| get_project := fun _ =>
       Fetched {| VersionGroups := []; Versions := versions |};
     get_version := fun _ => Fetched {| Builds := map Build builds |};
     get_builds := fun _ => Fetched {| VersionBuilds := builds |};
     get_build := fun _ => Fetched {| Changes := []; Downloads := downloads |};
     get_body := fun _ => body |}.

Definition sampleClient (limit : Z) (versions : list string)
    (builds : list VersionBuild) (downloads : gomap Download)
    (body : result Body) : Client :=
  {| BaseURL := "https://api.papermc.io";
     HTTPClient := sampleRemote versions builds downloads body;
     Limit := limit |}.

(** Downloads whose one key is the name of the file, with the digest of
    the bytes of [Sample.abc]. *)
Definition sampleDownloads : gomap Download :=
  [("paper-1.20.4-435.jar",
    {| Name := "paper-1.20.4-435.jar";
       SHA256 := "ba7816bf8f01cfea414140de5dae2223b00361a396177a9cb410ff61f20015ad" |})].

Definition sampleBuilds : list VersionBuild :=
  [{| Build := 433; Promoted := true |};
   {| Build := 434; Promoted := false |};
   {| Build := 435; Promoted := false |}].

Definition sampleRuntime : Runtime :=
  {| rt_system := Sample.system;
     rt_range_jar := fun m => m;
     rt_range_any := fun m => m;
     filepath_Join := fun dir name => dir ++ "/" ++ name |}.

End V2.

(** * Properties *)

(** ** The limit of the list calls *)

Section Limit.
Context {T : Type}.

(** The cut that the four calls make, each on its own list. *)
Lemma limit_cut (L : Z) (l : list T) :
  limited L l
    (if (L >? 0) && (len l >? L) then skipn (Z.to_nat (len l - L)) l else l).
Proof.
  unfold limited, len.
  destruct (L >? 0) eqn:HL; destruct (Z.of_nat (List.length l) >? L) eqn:Hl; simpl;
    try (split; [reflexivity | lia]).
  split; [lia | intros _; split].
  - rewrite length_skipn. lia.
  - exists (firstn (Z.to_nat (Z.of_nat (List.length l) - L)) l).
    symmetry. apply firstn_skipn.
Qed.
End Limit.

(** C10: each list call returns the decoded list as it is when [Limit] is
    not positive or the list has at most [Limit] elements, and its last
    [Limit] elements otherwise: [GetProjects], [GetVersions], [GetBuilds]
    and the builds of [GetVersion]. *)
Theorem limit_keeps_suffix (c : Client) :
  (forall decoded,
      get_projects (HTTPClient c) (BaseURL c ++ "/v3/projects") = Fetched decoded ->
      exists out, GetProjects c = Ok out
                  /\ limited (Limit c) (Projects decoded) (Projects out))
  /\ (forall projectID decoded,
         get_versions (HTTPClient c)
           (BaseURL c ++ "/v3/projects/" ++ projectID ++ "/versions")
         = Fetched decoded ->
         exists out, GetVersions c projectID = Ok out
                     /\ limited (Limit c) decoded out)
  /\ (forall projectID version channels decoded,
         get_builds (HTTPClient c) (buildsURL c projectID version channels)
         = Fetched decoded ->
         exists out, GetBuilds c projectID version channels = Ok out
                     /\ limited (Limit c) decoded out)
  /\ (forall projectID version decoded,
         get_version (HTTPClient c)
           (BaseURL c ++ "/v3/projects/" ++ projectID ++ "/versions/" ++ version)
         = Fetched decoded ->
         exists out, GetVersion c projectID version = Ok out
                     /\ Version out = Version decoded
                     /\ limited (Limit c) (Builds decoded) (Builds out)).
Proof.
  repeat split.
  - intros decoded H. unfold GetProjects. rewrite H.
    pose proof (limit_cut (Limit c) (Projects decoded)) as Hcut.
    destruct ((Limit c >? 0) && (len (Projects decoded) >? Limit c));
      eexists; (split; [reflexivity | exact Hcut]).
  - intros projectID decoded H. unfold GetVersions. rewrite H.
    pose proof (limit_cut (Limit c) decoded) as Hcut.
    destruct ((Limit c >? 0) && (len decoded >? Limit c));
      eexists; (split; [reflexivity | exact Hcut]).
  - intros projectID version channels decoded H. unfold GetBuilds. rewrite H.
    pose proof (limit_cut (Limit c) decoded) as Hcut.
    destruct ((Limit c >? 0) && (len decoded >? Limit c));
      eexists; (split; [reflexivity | exact Hcut]).
  - intros projectID version decoded H. unfold GetVersion. rewrite H.
    pose proof (limit_cut (Limit c) (Builds decoded)) as Hcut.
    destruct ((Limit c >? 0) && (len (Builds decoded) >? Limit c));
      eexists; (split; [reflexivity | split; [reflexivity | exact Hcut]]).
Qed.

Lemma limit_keeps_suffix_witness :
  get_version (HTTPClient (Sample.client 2 "" (Ok Sample.abc)))
    (BaseURL (Sample.client 2 "" (Ok Sample.abc))
       ++ "/v3/projects/" ++ "paper" ++ "/versions/" ++ "1.21.11")
  = Fetched {| Version := {| VersionMeta_ID := "1.21.11" |};
               Builds := [74; 73; 72] |}
  /\ exists out,
      GetVersion (Sample.client 2 "" (Ok Sample.abc)) "paper" "1.21.11" = Ok out
      /\ Version out = {| VersionMeta_ID := "1.21.11" |}
      /\ limited 2 [74; 73; 72] (Builds out).
Proof.
  split; [reflexivity |].
  apply (proj2 (proj2 (proj2
           (limit_keeps_suffix (Sample.client 2 "" (Ok Sample.abc)))))
           "paper" "1.21.11"
           {| Version := {| VersionMeta_ID := "1.21.11" |};
              Builds := [74; 73; 72] |}).
  reflexivity.
Defined.

(** ** DownloadFile *)

Lemma digest_hex_length (data : list Byte.byte) :
  String.length (hex.EncodeToString (sha256.Sum data)) = 64%nat.
Proof.
  unfold sha256.Sum.
  destruct (sha256.blocks _ _ _) as [[[[[[[a b] c] d] e] f] g] h].
  reflexivity.
Qed.

Lemma digest_hex_nonempty (data : list Byte.byte) :
  hex.EncodeToString (sha256.Sum data) <> "".
Proof.
  intros H. pose proof (digest_hex_length data) as L.
  rewrite H in L. discriminate L.
Qed.

(** The end of [DownloadFile], once the copy is complete. *)
Lemma DownloadFile_complete c sys projectID version build destPath buildInfo reader :
  copyCompletes c sys projectID version build destPath buildInfo reader ->
  let expected := GetDownloadSHA256 (range_sha sys) buildInfo in
  let actual := hex.EncodeToString (sha256.Sum (body_bytes reader)) in
  let result := {| Filename := destPath;
                   ExpectedSHA256 := expected;
                   ActualSHA256 := actual;
                   Valid := (actual =? expected)%string |} in
  DownloadFile c sys projectID version build destPath
  = if negb (actual =? expected)%string && negb (expected =? "")%string
    then (Some result,
          Some (errors_Newf "SHA256 mismatch: expected %s, got %s"
                  [ArgS expected; ArgS actual]))
    else (Some result, None).
Proof.
  intros (Hb & Hu & Hd & Hm & Hc & Hcp). cbv zeta.
  unfold DownloadFile. rewrite Hb.
  apply String.eqb_neq in Hu. rewrite Hu, Hd, Hm, Hc, Hcp.
  reflexivity.
Qed.

(** C3: when the copy completes and the digest differs from an expected
    checksum that is not empty, [DownloadFile] returns an error together
    with a result whose [Valid] is false and which holds both checksums. *)
Theorem mismatch_returns_result_and_error
    c sys projectID version build destPath buildInfo reader :
  copyCompletes c sys projectID version build destPath buildInfo reader ->
  GetDownloadSHA256 (range_sha sys) buildInfo <> "" ->
  hex.EncodeToString (sha256.Sum (body_bytes reader))
    <> GetDownloadSHA256 (range_sha sys) buildInfo ->
  exists result err,
    DownloadFile c sys projectID version build destPath = (Some result, Some err)
    /\ Valid result = false
    /\ ExpectedSHA256 result = GetDownloadSHA256 (range_sha sys) buildInfo
    /\ ActualSHA256 result = hex.EncodeToString (sha256.Sum (body_bytes reader))
    /\ ExpectedSHA256 result <> ""
    /\ ActualSHA256 result <> "".
Proof.
  intros Hc He Hne.
  rewrite (DownloadFile_complete _ _ _ _ _ _ _ _ Hc).
  apply String.eqb_neq in Hne. apply String.eqb_neq in He as He'.
  rewrite Hne, He'. simpl.
  eexists. eexists. split; [reflexivity |]. simpl.
  repeat split; auto using digest_hex_nonempty.
Qed.

Lemma mismatch_returns_result_and_error_witness :
  exists result err,
    DownloadFile (Sample.client 0 "abc123" (Ok Sample.abc)) Sample.system
      "paper" "1.21.11" 74 "server/paper.jar" = (Some result, Some err)
    /\ Valid result = false
    /\ ExpectedSHA256 result = "abc123"
    /\ ActualSHA256 result
       = "ba7816bf8f01cfea414140de5dae2223b00361a396177a9cb410ff61f20015ad"
    /\ ExpectedSHA256 result <> ""
    /\ ActualSHA256 result <> "".
Proof.
  apply (mismatch_returns_result_and_error
           (Sample.client 0 "abc123" (Ok Sample.abc)) Sample.system
           "paper" "1.21.11" 74 "server/paper.jar"
           (Sample.build 74 "STABLE" "abc123") Sample.abc).
  - repeat split; try reflexivity. discriminate.
  - discriminate.
  - vm_compute. discriminate.
Defined.

(** With no expected checksum the complete download returns no error, and
    the result it returns has [Valid] false. *)
Lemma no_checksum_no_error c sys projectID version build destPath buildInfo reader :
  copyCompletes c sys projectID version build destPath buildInfo reader ->
  GetDownloadSHA256 (range_sha sys) buildInfo = "" ->
  exists result,
    DownloadFile c sys projectID version build destPath = (Some result, None)
    /\ Valid result = false.
Proof.
  intros Hc He.
  rewrite (DownloadFile_complete _ _ _ _ _ _ _ _ Hc), He. simpl.
  rewrite Bool.andb_false_r.
  eexists. split; [reflexivity |]. simpl.
  apply String.eqb_neq, digest_hex_nonempty.
Qed.

(** C6, at a build whose download declares no checksum: the call returns
    no error, and the result says [Valid = false]. *)
Theorem no_checksum_reports_invalid :
  DownloadFile (Sample.client 0 "" (Ok Sample.abc)) Sample.system
    "paper" "1.21.11" 74 "server/paper.jar"
  = (Some {| Filename := "server/paper.jar";
             ExpectedSHA256 := "";
             ActualSHA256 :=
               "ba7816bf8f01cfea414140de5dae2223b00361a396177a9cb410ff61f20015ad";
             Valid := false |},
     None).
Proof. vm_compute. reflexivity. Qed.

(** C8: when the stream does not open, the directory or the file cannot
    be created, or the copy fails, [DownloadFile] returns an error and no
    result. *)
Theorem transfer_failure_no_result
    c sys projectID version build destPath buildInfo :
  GetBuild c projectID version build = Ok buildInfo ->
  transferFails c sys destPath (GetDownloadURL (range_url sys) buildInfo) ->
  exists err,
    DownloadFile c sys projectID version build destPath = (None, Some err).
Proof.
  intros Hb Hf. unfold DownloadFile. rewrite Hb.
  destruct (GetDownloadURL (range_url sys) buildInfo =? "")%string;
    [eexists; reflexivity |].
  destruct (DownloadBuild c _) as [reader | e] eqn:Hd; [| eexists; reflexivity].
  destruct (os_MkdirAll sys _) eqn:Hm; [eexists; reflexivity |].
  destruct (os_Create sys _) eqn:Hc; [eexists; reflexivity |].
  destruct (io_Copy sys destPath reader) eqn:Hcp; [eexists; reflexivity |].
  exfalso.
  destruct Hf as [[e He] | [Hf | [Hf | (r & Hr & Hf)]]]; try congruence.
Qed.

Lemma transfer_failure_no_result_witness :
  exists err,
    DownloadFile (Sample.client 0 "abc123" (Err Sample.unreachable))
      Sample.system "paper" "1.21.11" 74 "server/paper.jar" = (None, Some err).
Proof.
  apply (transfer_failure_no_result
           (Sample.client 0 "abc123" (Err Sample.unreachable)) Sample.system
           "paper" "1.21.11" 74 "server/paper.jar"
           (Sample.build 74 "STABLE" "abc123")).
  - reflexivity.
  - left. eexists. reflexivity.
Defined.

(** ** FindPromotedBuild *)

(** What [FindPromotedBuild] returns when the service lists recommended
    builds: the ID of the last build of the list. *)
Lemma FindPromotedBuild_recommended c projectID version b builds :
  GetBuilds c projectID version [ChannelRecommended] = Ok (b :: builds) ->
  FindPromotedBuild c projectID version = (lastID (b :: builds), None).
Proof. intros H. unfold FindPromotedBuild. rewrite H. reflexivity. Qed.

Lemma maxID_ge (builds : list BuildV3Response) (b : BuildV3Response) :
  In b builds -> ID b <= maxID builds.
Proof.
  destruct builds as [| b0 builds]; [intros [] |]. simpl.
  induction builds as [| x builds IH]; simpl.
  - intros [-> | []]. lia.
  - intros [-> | [-> | H]]; [| lia |].
    + specialize (IH (or_introl eq_refl)). lia.
    + specialize (IH (or_intror H)). lia.
Qed.

Lemma fold_max_swap (l : list BuildV3Response) (u w : Z) :
  Z.max w (fold_right (fun b' m => Z.max (ID b') m) u l)
  = Z.max u (fold_right (fun b' m => Z.max (ID b') m) w l).
Proof.
  induction l as [| y l IH]; simpl; lia.
Qed.

Lemma fold_max_ge (l : list BuildV3Response) (u : Z) :
  u <= fold_right (fun b' m => Z.max (ID b') m) u l.
Proof.
  induction l as [| y l IH]; simpl; lia.
Qed.

(** The last build of a list in ascending order of ID has the greatest
    ID: on such a list [FindPromotedBuild] does return the maximum. *)
Lemma lastID_ascending (b : BuildV3Response) (builds : list BuildV3Response) :
  StronglySorted (fun x y => ID x <= ID y) (b :: builds) ->
  lastID (b :: builds) = maxID (b :: builds).
Proof.
  revert b. induction builds as [| x builds IH]; intros b H; [reflexivity |].
  inversion H as [| ? ? Hs Hb]; subst.
  specialize (IH x Hs).
  assert (lastID (b :: x :: builds) = lastID (x :: builds)) as ->.
  { unfold lastID. simpl.
    destruct (rev builds ++ [x])%list as [| y l] eqn:E; [| reflexivity].
    destruct (rev builds); discriminate E. }
  rewrite IH. simpl.
  inversion Hb as [| ? ? Hbx _]; subst.
  rewrite fold_max_swap.
  pose proof (fold_max_ge builds (ID x)). lia.
Qed.

(** C2, at a service that lists the recommended builds 74 and 73 in this
    order: [FindPromotedBuild] returns 73, the last of the list, and the
    greatest ID of the list is 74. *)
Theorem promoted_build_is_last_listed :
  GetBuilds (Sample.client 0 "abc123" (Ok Sample.abc)) "paper" "1.21.11"
    [ChannelRecommended]
  = Ok [Sample.build 74 "RECOMMENDED" "abc123";
        Sample.build 73 "RECOMMENDED" "abc123"]
  /\ FindPromotedBuild (Sample.client 0 "abc123" (Ok Sample.abc))
       "paper" "1.21.11" = (73, None)
  /\ maxID [Sample.build 74 "RECOMMENDED" "abc123";
            Sample.build 73 "RECOMMENDED" "abc123"] = 74.
Proof. repeat split. Qed.

(** ** GetRecommendedVersion *)

Lemma find_rev_last {A : Type} (f : A -> bool) (l : list A) (v : A) :
  find f (rev l) = Some v <->
  exists older newer,
    l = (older ++ v :: newer)%list /\ f v = true
    /\ Forall (fun w => f w = false) newer.
Proof.
  induction l as [| x l IH] using rev_ind.
  - simpl. split; [discriminate |].
    intros (older & newer & H & _). destruct older; discriminate H.
  - rewrite rev_app_distr. simpl. destruct (f x) eqn:Hx.
    + split.
      * intros H. injection H as <-. exists l, []. auto.
      * intros (older & newer & H & Hv & Hn).
        destruct newer as [| y newer] using rev_ind.
        -- apply app_inj_tail in H. destruct H as [_ ->]. reflexivity.
        -- clear IHnewer. rewrite app_comm_cons, app_assoc in H.
           apply app_inj_tail in H. destruct H as [_ ->].
           apply Forall_app in Hn. destruct Hn as [_ Hn].
           inversion Hn; congruence.
    + rewrite IH. split.
      * intros (older & newer & -> & Hv & Hn).
        exists older, (newer ++ [x])%list. rewrite <- app_assoc. simpl.
        repeat split; auto. apply Forall_app. auto.
      * intros (older & newer & H & Hv & Hn).
        destruct newer as [| y newer] using rev_ind.
        -- apply app_inj_tail in H. destruct H as [_ ->]. congruence.
        -- clear IHnewer. rewrite app_comm_cons, app_assoc in H.
           apply app_inj_tail in H. destruct H as [-> _].
           apply Forall_app in Hn. destruct Hn as [Hn _].
           exists older, newer. auto.
Qed.

Lemma find_rev_none {A : Type} (f : A -> bool) (l : list A) :
  find f (rev l) = None <-> Forall (fun w => f w = false) l.
Proof.
  split.
  - intros H. apply Forall_forall. intros w Hw.
    apply (find_none _ _ H). apply in_rev in Hw. exact Hw.
  - intros H. destruct (find f (rev l)) eqn:E; [| reflexivity].
    apply find_some in E. destruct E as [Hin Hf].
    apply in_rev in Hin. rewrite Forall_forall in H.
    rewrite (H _ Hin) in Hf. discriminate.
Qed.

Lemma lastStable_newest (versions : list string) (v : string) :
  lastStable versions = Some v <-> newestStable versions v.
Proof.
  unfold lastStable, newestStable. rewrite find_rev_last.
  split; intros (older & newer & H & Hv & Hn); exists older, newer;
    (repeat split; [exact H | |]).
  - apply Bool.negb_true_iff. exact Hv.
  - eapply Forall_impl; [| exact Hn]. intros w Hw.
    apply Bool.negb_false_iff. exact Hw.
  - apply Bool.negb_true_iff. exact Hv.
  - eapply Forall_impl; [| exact Hn]. intros w Hw.
    apply Bool.negb_false_iff. exact Hw.
Qed.



(** ** isSnapshotOrPreRelease *)

Lemma prefix_app (sub s : string) :
  String.prefix sub s = true <-> exists after, s = sub ++ after.
Proof.
  revert s. induction sub as [| a sub IH]; intros s.
  - split; [intros _; exists s; reflexivity | destruct s; reflexivity].
  - destruct s as [| b s]; simpl.
    + split; [discriminate | intros [after H]; discriminate H].
    + destruct (ascii_dec a b) as [-> | Hab].
      * rewrite IH. split; intros [after H]; exists after.
        -- rewrite H. reflexivity.
        -- injection H as H. exact H.
      * split; [discriminate |].
        intros [after H]. injection H as H _. congruence.
Qed.

Lemma Contains_app (s sub : string) :
  Contains s sub = true <-> exists before after, s = before ++ sub ++ after.
Proof.
  induction s as [| a s IH].
  - cbn [Contains]. rewrite Bool.orb_false_r, prefix_app. split.
    + intros [after H]. exists "", after. exact H.
    + intros (before & after & H). destruct before; [| discriminate H].
      exists after. exact H.
  - cbn [Contains]. rewrite Bool.orb_true_iff, IH, prefix_app. split.
    + intros [[after H] | (before & after & H)].
      * exists "", after. exact H.
      * exists (String a before), after. simpl. rewrite H. reflexivity.
    + intros (before & after & H). destruct before as [| b before].
      * left. exists after. exact H.
      * right. simpl in H. injection H as _ H. exists before, after. exact H.
Qed.

Lemma ToLower_app (s t : string) : ToLower (s ++ t) = ToLower s ++ ToLower t.
Proof. induction s as [| a s IH]; simpl; [reflexivity | rewrite IH; reflexivity]. Qed.

Lemma ToLower_split (v x y : string) :
  ToLower v = x ++ y ->
  exists a b, v = a ++ b /\ ToLower a = x /\ ToLower b = y.
Proof.
  revert v. induction x as [| c x IH]; intros v H.
  - exists "", v. auto.
  - destruct v as [| d v]; [discriminate H |].
    simpl in H. injection H as Hc H.
    destruct (IH _ H) as (a & b & -> & Ha & Hb).
    exists (String d a), b. simpl. rewrite Hc, Ha. auto.
Qed.

(** Lowering a byte, against a byte that is no upper-case letter. *)
Lemma toLowerByte_sameLetter (a b : ascii) :
  isUpper b = false -> (toLowerByte a = b <-> sameLetter a b).
Proof.
  intros Hb. unfold toLowerByte, sameLetter. fold (isUpper a).
  destruct (isUpper a) eqn:Ha; split.
  - intros <-. right. left. auto.
  - intros [<- | [[_ ->] | [H _]]]; congruence.
  - intros <-. left. reflexivity.
  - intros [<- | [[H _] | [H _]]]; congruence.
Qed.

Lemma ToLower_equalFold (w pattern : string) :
  Forall (fun c => isUpper c = false) (list_ascii_of_string pattern) ->
  (ToLower w = pattern <-> equalFold w pattern).
Proof.
  intros Hlow. revert w.
  induction pattern as [| b pattern IH]; intros w.
  - split.
    + destruct w; [constructor | discriminate].
    + intros H. inversion H. reflexivity.
  - simpl in Hlow. inversion Hlow as [| ? ? Hb Hrest]; subst.
    split.
    + destruct w as [| a w]; [discriminate |]. simpl. intros H.
      injection H as Ha Hw. constructor.
      * apply toLowerByte_sameLetter; assumption.
      * apply IH; assumption.
    + intros H. inversion H as [| a ? w' ? Hab Hw]; subst. simpl.
      f_equal.
      * apply toLowerByte_sameLetter; assumption.
      * apply IH; assumption.
Qed.

Lemma Contains_ToLower_fold (v pattern : string) :
  Forall (fun c => isUpper c = false) (list_ascii_of_string pattern) ->
  (Contains (ToLower v) pattern = true <-> containsFold v pattern).
Proof.
  intros Hlow. rewrite Contains_app. unfold containsFold. split.
  - intros (before & after & H).
    apply ToLower_split in H. destruct H as (a & rest & -> & Ha & H).
    apply ToLower_split in H. destruct H as (w & b & -> & Hw & Hb).
    exists a, w, b. split; [reflexivity |].
    apply ToLower_equalFold; assumption.
  - intros (before & w & after & -> & Hw).
    apply ToLower_equalFold in Hw; try assumption.
    exists (ToLower before), (ToLower after).
    rewrite !ToLower_app, Hw. reflexivity.
Qed.

(** C7: [isSnapshotOrPreRelease v] holds exactly when [v] contains, letter
    case apart, ["snapshot"], ["-pre"] or ["-rc"]. *)
Theorem prerelease_iff_contains (v : string) :
  isSnapshotOrPreRelease v = true <->
  containsFold v "snapshot" \/ containsFold v "-pre" \/ containsFold v "-rc".
Proof.
  unfold isSnapshotOrPreRelease.
  rewrite !Bool.orb_true_iff.
  rewrite !Contains_ToLower_fold by (repeat constructor).
  tauto.
Qed.

(** ** Comparators are total preorders *)

Section CmpFacts.
Context {A : Type}.

Lemma total_refl (cmp : A -> A -> Z) (x : A) : Cmp.total cmp -> cmp x x = 0.
Proof. intros [Ha _]. specialize (Ha x x). lia. Qed.

Lemma total_lt_le (cmp : A -> A -> Z) (x y z : A) :
  Cmp.total cmp -> cmp x y < 0 -> cmp y z <= 0 -> cmp x z < 0.
Proof.
  intros [Ha Ht] Hxy Hyz.
  pose proof (Ht x y z ltac:(lia) Hyz) as Hxz.
  destruct (Z.eq_dec (cmp x z) 0) as [E |]; [| lia].
  pose proof (Ht y z x Hyz ltac:(rewrite (Ha x z); lia)) as Hyx.
  rewrite (Ha x y) in Hyx. lia.
Qed.

Lemma total_le_lt (cmp : A -> A -> Z) (x y z : A) :
  Cmp.total cmp -> cmp x y <= 0 -> cmp y z < 0 -> cmp x z < 0.
Proof.
  intros [Ha Ht] Hxy Hyz.
  pose proof (Ht x y z Hxy ltac:(lia)) as Hxz.
  destruct (Z.eq_dec (cmp x z) 0) as [E |]; [| lia].
  pose proof (Ht z x y ltac:(rewrite (Ha x z); lia) Hxy) as Hzy.
  rewrite (Ha y z) in Hzy. lia.
Qed.

Lemma total_eq_eq (cmp : A -> A -> Z) (x y z : A) :
  Cmp.total cmp -> cmp x y = 0 -> cmp y z = 0 -> cmp x z = 0.
Proof.
  intros [Ha Ht] Hxy Hyz.
  pose proof (Ht x y z ltac:(lia) ltac:(lia)) as H1.
  pose proof (Ht z y x ltac:(rewrite (Ha y z); lia) ltac:(rewrite (Ha x y); lia)) as H2.
  rewrite (Ha x z) in H2. lia.
Qed.

Lemma total_lex (c1 c2 : A -> A -> Z) :
  Cmp.total c1 -> Cmp.total c2 -> Cmp.total (Cmp.lex c1 c2).
Proof.
  intros T1 T2. split.
  - intros x y. unfold Cmp.lex.
    rewrite (proj1 T1 x y), (proj1 T2 x y).
    destruct (c1 x y =? 0) eqn:E1; destruct (- c1 x y =? 0) eqn:E2; simpl; lia.
  - intros x y z. unfold Cmp.lex.
    destruct (c1 x y =? 0) eqn:Exy; destruct (c1 y z =? 0) eqn:Eyz; simpl;
      intros Hxy Hyz.
    + rewrite (total_eq_eq c1 x y z T1) by lia. simpl.
      exact (proj2 T2 x y z Hxy Hyz).
    + pose proof (total_le_lt c1 x y z T1 ltac:(lia) ltac:(lia)) as H.
      destruct (c1 x z =? 0) eqn:E; simpl; lia.
    + pose proof (total_lt_le c1 x y z T1 ltac:(lia) ltac:(lia)) as H.
      destruct (c1 x z =? 0) eqn:E; simpl; lia.
    + pose proof (total_lt_le c1 x y z T1 ltac:(lia) ltac:(lia)) as H.
      destruct (c1 x z =? 0) eqn:E; simpl; lia.
Qed.

Lemma total_on {B : Type} (f : A -> B) (cmp : B -> B -> Z) :
  Cmp.total cmp -> Cmp.total (Cmp.on f cmp).
Proof.
  intros [Ha Ht]. split; unfold Cmp.on.
  - intros x y. apply Ha.
  - intros x y z. apply Ht.
Qed.

Lemma total_noneFirst (cmp : A -> A -> Z) :
  Cmp.total cmp -> Cmp.total (Cmp.noneFirst cmp).
Proof.
  intros [Ha Ht]. split.
  - intros [x |] [y |]; simpl; auto.
  - intros [x |] [y |] [z |]; simpl; try lia. apply Ht.
Qed.

Lemma total_noneLast (cmp : A -> A -> Z) :
  Cmp.total cmp -> Cmp.total (Cmp.noneLast cmp).
Proof.
  intros [Ha Ht]. split.
  - intros [x |] [y |]; simpl; auto.
  - intros [x |] [y |] [z |]; simpl; try lia. apply Ht.
Qed.

Lemma total_lists (cmp : A -> A -> Z) :
  Cmp.total cmp -> Cmp.total (Cmp.lists cmp).
Proof.
  intros T. split.
  - intros l1. induction l1 as [| a l1 IH]; intros [| b l2]; simpl; try lia.
    rewrite (proj1 T a b), IH.
    destruct (cmp a b =? 0) eqn:E1; destruct (- cmp a b =? 0) eqn:E2; simpl; lia.
  - intros l1. induction l1 as [| a l1 IH]; intros [| b l2] [| c l3]; simpl;
      try lia.
    destruct (cmp a b =? 0) eqn:Eab; destruct (cmp b c =? 0) eqn:Ebc; simpl;
      intros Hab Hbc.
    + rewrite (total_eq_eq cmp a b c T) by lia. simpl. eauto.
    + pose proof (total_le_lt cmp a b c T ltac:(lia) ltac:(lia)) as H.
      destruct (cmp a c =? 0) eqn:E; simpl; lia.
    + pose proof (total_lt_le cmp a b c T ltac:(lia) ltac:(lia)) as H.
      destruct (cmp a c =? 0) eqn:E; simpl; lia.
    + pose proof (total_lt_le cmp a b c T ltac:(lia) ltac:(lia)) as H.
      destruct (cmp a c =? 0) eqn:E; simpl; lia.
Qed.
End CmpFacts.

Lemma total_num : Cmp.total Cmp.num.
Proof.
  split; unfold Cmp.num.
  - intros x y. destruct (x <? y) eqn:E1; destruct (y <? x) eqn:E2; lia.
  - intros x y z.
    destruct (x <? y) eqn:E1; destruct (y <? x) eqn:E2;
      destruct (y <? z) eqn:E3; destruct (z <? y) eqn:E4;
      destruct (x <? z) eqn:E5; destruct (z <? x) eqn:E6; lia.
Qed.

(** The order of [String.compare] is transitive. *)
Lemma ascii_compare_lt_trans (a b c : ascii) :
  Ascii.compare a b = Lt -> Ascii.compare b c = Lt -> Ascii.compare a c = Lt.
Proof.
  unfold Ascii.compare. rewrite !N.compare_lt_iff. lia.
Qed.

Lemma string_compare_refl (s : string) : String.compare s s = Eq.
Proof.
  induction s as [| a s IH]; simpl; [reflexivity |].
  unfold Ascii.compare. rewrite N.compare_refl. exact IH.
Qed.

Lemma string_compare_lt_trans (s t u : string) :
  String.compare s t = Lt -> String.compare t u = Lt -> String.compare s u = Lt.
Proof.
  revert t u. induction s as [| a s IH]; intros [| b t] [| c u]; simpl;
    try discriminate; auto.
  destruct (Ascii.compare a b) eqn:Eab; try discriminate;
    destruct (Ascii.compare b c) eqn:Ebc; try discriminate.
  - apply Ascii.compare_eq_iff in Eab, Ebc. subst.
    unfold Ascii.compare. rewrite N.compare_refl. apply IH.
  - apply Ascii.compare_eq_iff in Eab. subst. rewrite Ebc. auto.
  - apply Ascii.compare_eq_iff in Ebc. subst. rewrite Eab. auto.
  - rewrite (ascii_compare_lt_trans a b c Eab Ebc). auto.
Qed.

Lemma str_compare (x y : string) :
  Cmp.str x y = match String.compare x y with Lt => -1 | Eq => 0 | Gt => 1 end.
Proof.
  unfold Cmp.str, String.ltb.
  destruct (String.eqb_spec x y) as [-> | Hne].
  - rewrite string_compare_refl. reflexivity.
  - destruct (String.compare x y) eqn:E; try reflexivity.
    apply String.compare_eq_iff in E. contradiction.
Qed.

Lemma total_str : Cmp.total Cmp.str.
Proof.
  split.
  - intros x y. rewrite !str_compare, (String.compare_antisym x y).
    destruct (String.compare y x); reflexivity.
  - intros x y z. rewrite !str_compare.
    destruct (String.compare x y) eqn:Exy; try lia;
      destruct (String.compare y z) eqn:Eyz; try lia; intros _ _.
    + apply String.compare_eq_iff in Exy, Eyz. subst.
      rewrite string_compare_refl. lia.
    + apply String.compare_eq_iff in Exy. subst. rewrite Eyz. lia.
    + apply String.compare_eq_iff in Eyz. subst. rewrite Exy. lia.
    + rewrite (string_compare_lt_trans x y z Exy Eyz). lia.
Qed.

Lemma str_zero (x y : string) : Cmp.str x y = 0 -> x = y.
Proof.
  unfold Cmp.str. destruct (String.eqb_spec x y); [auto |].
  destruct (x <? y)%string; discriminate.
Qed.

(** ** The order of semver.Compare *)

Lemma total_number : Cmp.total SemverOrder.number.
Proof.
  apply total_lex; [apply total_on, total_num | apply total_str].
Qed.

Lemma total_ident : Cmp.total SemverOrder.ident.
Proof.
  apply total_lex; [apply total_on, total_num |].
  apply total_lex; [apply total_on, total_num | apply total_str].
Qed.

Lemma total_pre : Cmp.total SemverOrder.pre.
Proof. apply total_noneLast, total_lists, total_ident. Qed.

Lemma total_version : Cmp.total SemverOrder.version.
Proof.
  unfold SemverOrder.version.
  repeat (apply total_lex; [apply total_on, total_number |]).
  apply total_on, total_pre.
Qed.

Lemma compareInt_number (x y : string) :
  semver.compareInt x y = SemverOrder.number x y.
Proof.
  unfold semver.compareInt, SemverOrder.number, Cmp.lex, Cmp.on, Cmp.num,
    Cmp.str, SemverOrder.strlen.
  destruct (String.eqb_spec x y) as [-> | Hne].
  - rewrite Z.ltb_irrefl. reflexivity.
  - destruct (Nat.ltb_spec (String.length x) (String.length y));
      destruct (Nat.ltb_spec (String.length y) (String.length x));
      destruct (Z.ltb_spec (Z.of_nat (String.length x)) (Z.of_nat (String.length y)));
      destruct (Z.ltb_spec (Z.of_nat (String.length y)) (Z.of_nat (String.length x)));
      try lia; reflexivity.
Qed.

Lemma compareIdent_ident (dx dy : string) :
  dx <> dy -> semver.compareIdent dx dy = SemverOrder.ident dx dy.
Proof.
  intros Hne.
  unfold semver.compareIdent, SemverOrder.ident, Cmp.lex, Cmp.on, Cmp.num,
    Cmp.str, SemverOrder.identClass, SemverOrder.identLength, SemverOrder.strlen.
  apply String.eqb_neq in Hne. rewrite Hne.
  destruct (semver.isNum dx); destruct (semver.isNum dy); simpl; try reflexivity.
  destruct (Nat.ltb_spec (String.length dx) (String.length dy));
    destruct (Nat.ltb_spec (String.length dy) (String.length dx));
    destruct (Z.ltb_spec (Z.of_nat (String.length dx)) (Z.of_nat (String.length dy)));
    destruct (Z.ltb_spec (Z.of_nat (String.length dy)) (Z.of_nat (String.length dx)));
    try lia; reflexivity.
Qed.

Lemma ident_zero (dx dy : string) : SemverOrder.ident dx dy = 0 <-> dx = dy.
Proof.
  split.
  - unfold SemverOrder.ident, Cmp.lex.
    destruct (Cmp.on SemverOrder.identClass Cmp.num dx dy =? 0) eqn:E1; simpl;
      [| apply Z.eqb_neq in E1; contradiction].
    destruct (Cmp.on SemverOrder.identLength Cmp.num dx dy =? 0) eqn:E2; simpl;
      [| apply Z.eqb_neq in E2; contradiction].
    apply str_zero.
  - intros ->. apply total_refl, total_ident.
Qed.

(** [nextIdent] and the list of identifiers. *)
Lemma nextIdent_splitDot (s : string) :
  (snd (semver.nextIdent s) = ""
   /\ SemverOrder.splitDot s = [fst (semver.nextIdent s)])
  \/ (exists r, snd (semver.nextIdent s) = String "." r
                /\ (String.length r < String.length s)%nat
                /\ SemverOrder.splitDot s
                   = fst (semver.nextIdent s) :: SemverOrder.splitDot r).
Proof.
  induction s as [| c s IH]; simpl.
  - left. auto.
  - destruct (Ascii.eqb_spec c ".") as [-> | Hc]; simpl.
    + right. exists s. auto.
    + destruct (semver.nextIdent s) as [d rest]. simpl in *.
      destruct IH as [[-> ->] | (r & -> & Hlen & ->)].
      * left. auto.
      * right. exists r. auto.
Qed.

Lemma splitDot_cons (s : string) : SemverOrder.splitDot s <> [].
Proof.
  destruct s as [| c s]; simpl; [discriminate |].
  destruct (Ascii.eqb c "."); [discriminate |].
  destruct (SemverOrder.splitDot s); discriminate.
Qed.

Lemma splitDot_inj (s t : string) :
  SemverOrder.splitDot s = SemverOrder.splitDot t -> s = t.
Proof.
  revert t. induction s as [| c s IH]; intros [| e t]; simpl.
  - reflexivity.
  - pose proof (splitDot_cons t) as Ht.
    destruct (Ascii.eqb e "."); destruct (SemverOrder.splitDot t);
      try discriminate; contradiction.
  - pose proof (splitDot_cons s) as Hs.
    destruct (Ascii.eqb c "."); destruct (SemverOrder.splitDot s);
      try discriminate; contradiction.
  - destruct (Ascii.eqb_spec c ".") as [-> | Hc];
      destruct (Ascii.eqb_spec e ".") as [-> | He].
    + intros H. injection H as H. f_equal. auto.
    + destruct (SemverOrder.splitDot t); discriminate.
    + destruct (SemverOrder.splitDot s); discriminate.
    + pose proof (splitDot_cons s) as Hs. pose proof (splitDot_cons t) as Ht.
      destruct (SemverOrder.splitDot s) as [| d ds] eqn:Es; [contradiction |].
      destruct (SemverOrder.splitDot t) as [| d' ds'] eqn:Et; [contradiction |].
      intros H. injection H as -> -> ->. f_equal. apply IH. symmetry. exact Et.
Qed.

(** The loop of [comparePrerelease] walks the two lists of identifiers. *)
Lemma comparePrereleaseLoop_loop (fuel : nat) :
  forall c1 x1 c2 y1,
    (String.length x1 < fuel)%nat ->
    semver.comparePrereleaseLoop fuel (String c1 x1) (String c2 y1)
    = SemverOrder.loop (SemverOrder.splitDot x1) (SemverOrder.splitDot y1).
Proof.
  induction fuel as [| fuel IH]; intros c1 x1 c2 y1 Hlen; [lia |].
  cbn [semver.comparePrereleaseLoop].
  destruct (nextIdent_splitDot x1) as [[Hx ->] | (rx & Hx & Hlx & ->)];
    destruct (nextIdent_splitDot y1) as [[Hy ->] | (ry & Hy & Hly & ->)];
    destruct (semver.nextIdent x1) as [dx x2];
    destruct (semver.nextIdent y1) as [dy y2];
    simpl in Hx, Hy |- *; subst x2 y2;
    destruct (negb (dx =? dy)%string); try reflexivity.
  - destruct fuel; reflexivity.
  - destruct fuel; reflexivity.
  - destruct fuel; [lia |]. simpl.
    pose proof (splitDot_cons rx) as H.
    destruct (SemverOrder.splitDot rx); [contradiction | reflexivity].
  - apply IH. lia.
Qed.

Lemma loop_lists (l1 l2 : list string) :
  l1 <> l2 -> SemverOrder.loop l1 l2 = Cmp.lists SemverOrder.ident l1 l2.
Proof.
  revert l2. induction l1 as [| a l1 IH]; intros [| b l2] Hne; simpl;
    try reflexivity; [contradiction |].
  destruct (String.eqb_spec a b) as [-> | Hab]; simpl.
  - rewrite (total_refl _ b total_ident). simpl.
    apply IH. congruence.
  - rewrite (compareIdent_ident a b Hab).
    destruct (SemverOrder.ident a b =? 0) eqn:E; simpl; [| reflexivity].
    apply Z.eqb_eq, ident_zero in E. contradiction.
Qed.

Lemma comparePrerelease_pre (x y : string) :
  SemverOrder.wellFormedPre x -> SemverOrder.wellFormedPre y ->
  semver.comparePrerelease x y
  = SemverOrder.pre (SemverOrder.idents x) (SemverOrder.idents y).
Proof.
  intros [-> | [s ->]] [-> | [t ->]]; try reflexivity.
  unfold semver.comparePrerelease.
  destruct (String.eqb_spec (String "-" s) (String "-" t)) as [E | Hne].
  - injection E as ->. simpl.
    symmetry. apply total_refl, total_lists, total_ident.
  - cbn [String.eqb]. rewrite comparePrereleaseLoop_loop by (simpl; lia).
    simpl. apply loop_lists. intros E. apply splitDot_inj in E. congruence.
Qed.

Lemma parsePrerelease_hyphen (v t r : string) :
  semver.parsePrerelease v = Some (t, r) -> exists s, t = String "-" s.
Proof.
  destruct v as [| c v]; simpl; [discriminate |].
  destruct (Ascii.eqb_spec c "-") as [-> | Hc]; simpl; [| discriminate].
  destruct (semver.scanPrerelease "" v) as [[t' r'] |]; [| discriminate].
  intros H. injection H as <- _. eauto.
Qed.

Lemma parse_wellFormedPre (v : string) (p : semver.parsed) :
  semver.parse v = Some p -> SemverOrder.wellFormedPre (semver.prerelease p).
Proof.
  unfold semver.parse.
  destruct (negb (semver.starts_with "v" v)); [discriminate |].
  destruct (semver.parseInt (semver.tail v)) as [[ma v1] |]; [| discriminate].
  destruct (v1 =? "")%string; [intros H; injection H as <-; left; reflexivity |].
  destruct (negb (semver.starts_with "." v1)); [discriminate |].
  destruct (semver.parseInt (semver.tail v1)) as [[mi v2] |]; [| discriminate].
  destruct (v2 =? "")%string; [intros H; injection H as <-; left; reflexivity |].
  destruct (negb (semver.starts_with "." v2)); [discriminate |].
  destruct (semver.parseInt (semver.tail v2)) as [[pa v3] |]; [| discriminate].
  unfold semver.parseTail.
  destruct (semver.starts_with "-" v3).
  - destruct (semver.parsePrerelease v3) as [[pre v4] |] eqn:E; [| discriminate].
    apply parsePrerelease_hyphen in E.
    destruct (if semver.starts_with "+" v4 then semver.parseBuild v4
              else Some ("", v4)) as [[bd v5] |]; [| discriminate].
    destruct (negb (v5 =? "")%string); [discriminate |].
    intros H. injection H as <-. right. exact E.
  - destruct (if semver.starts_with "+" v3 then semver.parseBuild v3
              else Some ("", v3)) as [[bd v5] |]; [| discriminate].
    destruct (negb (v5 =? "")%string); [discriminate |].
    intros H. injection H as <-. left. reflexivity.
Qed.

(** [semver.Compare] is the order of the parsed versions, the strings
    that do not parse before all the others. *)
Lemma Compare_version (v w : string) :
  semver.Compare v w
  = Cmp.noneFirst SemverOrder.version (semver.parse v) (semver.parse w).
Proof.
  unfold semver.Compare.
  destruct (semver.parse v) as [pv |] eqn:Ev;
    destruct (semver.parse w) as [pw |] eqn:Ew; try reflexivity.
  simpl. unfold SemverOrder.version, Cmp.lex, Cmp.on.
  rewrite !compareInt_number.
  rewrite (comparePrerelease_pre _ _ (parse_wellFormedPre _ _ Ev)
             (parse_wellFormedPre _ _ Ew)).
  reflexivity.
Qed.

Lemma total_Compare : Cmp.total semver.Compare.
Proof.
  pose proof (total_noneFirst _ total_version) as [Ha Ht].
  split.
  - intros x y. rewrite !Compare_version. apply Ha.
  - intros x y z. rewrite !Compare_version. apply Ht.
Qed.

Lemma semverLess_asym (a b : string) :
  semverLess a b = true -> semverLess b a = false.
Proof.
  unfold semverLess. rewrite Z.ltb_lt, Z.ltb_ge.
  rewrite (proj1 total_Compare (String "v" a) (String "v" b)). lia.
Qed.

Lemma semverLess_false (a b : string) :
  semverLess b a = false <-> semverLe a b.
Proof.
  unfold semverLess, semverLe. rewrite Z.ltb_ge.
  rewrite (proj1 total_Compare (String "v" a) (String "v" b)). lia.
Qed.

Lemma semverLe_trans (a b c : string) :
  semverLe a b -> semverLe b c -> semverLe a c.
Proof. unfold semverLe. apply (proj2 total_Compare). Qed.

Lemma semverLe_antisym (a b : string) :
  semverLe a b -> semverLe b a ->
  semver.Compare (String "v" a) (String "v" b) = 0.
Proof.
  unfold semverLe.
  rewrite (proj1 total_Compare (String "v" a) (String "v" b)). lia.
Qed.

(** ** The comparator of the specification on plain identifiers *)

Lemma isDigit_value (c : ascii) :
  isDigit c = true -> 0 <= SpecOrder.digitValue c <= 9.
Proof.
  destruct c as [[] [] [] [] [] [] [] []]; vm_compute; intros H;
    try discriminate H; split; discriminate.
Qed.

Lemma isDigit_not_sep (c : ascii) :
  isDigit c = true ->
  Ascii.eqb c "." = false /\ Ascii.eqb c "-" = false.
Proof.
  destruct c as [[] [] [] [] [] [] [] []]; vm_compute; intros H;
    try discriminate H; split; reflexivity.
Qed.

Lemma isIdentChar_not_sep (c : ascii) :
  semver.isIdentChar c = true ->
  Ascii.eqb c "." = false /\ Ascii.eqb c "+" = false.
Proof.
  destruct c as [[] [] [] [] [] [] [] []]; vm_compute; intros H;
    try discriminate H; split; reflexivity.
Qed.

Lemma span_digits_app (n rest : string) :
  semver.isNum n = true -> Plain.stops rest -> span_digits (n ++ rest) = (n, rest).
Proof.
  intros Hn Hr. induction n as [| c n IH]; simpl.
  - destruct rest as [| c rest]; [reflexivity |].
    simpl in Hr |- *. rewrite Hr. reflexivity.
  - simpl in Hn. apply Bool.andb_true_iff in Hn. destruct Hn as [Hc Hn].
    rewrite Hc, (IH Hn). reflexivity.
Qed.

Lemma parseInt_app (n rest : string) :
  Plain.number n -> Plain.stops rest -> semver.parseInt (n ++ rest) = Some (n, rest).
Proof.
  intros (Hne & Hn & Hbad) Hr.
  destruct n as [| c n]; [contradiction |].
  unfold semver.parseInt. cbn [append].
  change (String c (n ++ rest)) with (String c n ++ rest).
  rewrite (span_digits_app _ _ Hn Hr).
  pose proof Hn as Hn'. simpl in Hn'.
  apply Bool.andb_true_iff in Hn'. destruct Hn' as [Hc _].
  rewrite Hc. simpl negb. cbv iota.
  unfold semver.isBadNum in Hbad. rewrite Hn in Hbad. simpl in Hbad.
  destruct (Ascii.eqb c "0"); simpl; [| reflexivity].
  rewrite Bool.andb_true_r in Hbad.
  destruct n; [reflexivity | discriminate Hbad].
Qed.

Lemma append_nil_r (s : string) : s ++ "" = s.
Proof. induction s as [| c s IH]; simpl; [| rewrite IH]; reflexivity. Qed.

Lemma append_assoc (s t u : string) : s ++ t ++ u = (s ++ t) ++ u.
Proof. induction s as [| c s IH]; simpl; [| rewrite IH]; reflexivity. Qed.

Lemma isNum_app (s t : string) :
  semver.isNum (s ++ t) = semver.isNum s && semver.isNum t.
Proof.
  induction s as [| c s IH]; simpl; [reflexivity |].
  rewrite IH, Bool.andb_assoc. reflexivity.
Qed.

Lemma isBadNum_not_num (s : string) :
  semver.isNum s = false -> semver.isBadNum s = false.
Proof. intros H. unfold semver.isBadNum. rewrite H. reflexivity. Qed.

Lemma scanPrerelease_plain (suf cur : string) :
  Plain.all semver.isIdentChar suf = true ->
  cur ++ suf <> "" ->
  semver.isNum (cur ++ suf) = false ->
  semver.scanPrerelease cur suf = Some (suf, "").
Proof.
  revert cur. induction suf as [| c suf IH]; intros cur Hall Hne Hnum.
  - rewrite append_nil_r in Hne, Hnum. simpl.
    apply String.eqb_neq in Hne. rewrite Hne, (isBadNum_not_num _ Hnum).
    reflexivity.
  - simpl in Hall. apply Bool.andb_true_iff in Hall. destruct Hall as [Hc Hall].
    destruct (isIdentChar_not_sep c Hc) as [Hdot Hplus].
    cbn [semver.scanPrerelease]. rewrite Hplus, Hc, Hdot. simpl.
    rewrite (IH (cur ++ String c "")); try assumption.
    + reflexivity.
    + rewrite <- append_assoc. exact Hne.
    + rewrite <- append_assoc. exact Hnum.
Qed.

Lemma parsePrerelease_plain (suf : string) :
  Plain.suffix suf ->
  semver.parsePrerelease (String "-" suf) = Some (String "-" suf, "").
Proof.
  intros (Hne & Hall & Hnum). simpl.
  rewrite (scanPrerelease_plain suf "" Hall Hne Hnum). reflexivity.
Qed.

(** What [semver.parse] finds in the four forms. *)
Lemma parse_one (ma : string) :
  Plain.number ma ->
  semver.parse (String "v" ma) = Some (semver.mkParsed ma "0" "0" ".0.0" "" "").
Proof.
  intros Hma. unfold semver.parse. simpl.
  rewrite <- (append_nil_r ma) at 1.
  rewrite (parseInt_app ma "" Hma I). reflexivity.
Qed.

Lemma parse_two (ma mi : string) :
  Plain.number ma -> Plain.number mi ->
  semver.parse (String "v" (ma ++ "." ++ mi))
  = Some (semver.mkParsed ma mi "0" ".0" "" "").
Proof.
  intros Hma Hmi. unfold semver.parse. simpl.
  rewrite (parseInt_app ma (String "." _) Hma eq_refl). simpl.
  rewrite <- (append_nil_r mi) at 1.
  rewrite (parseInt_app mi "" Hmi I). reflexivity.
Qed.

Lemma parse_three (ma mi pa : string) :
  Plain.number ma -> Plain.number mi -> Plain.number pa ->
  semver.parse (String "v" (ma ++ "." ++ mi ++ "." ++ pa))
  = Some (semver.mkParsed ma mi pa "" "" "").
Proof.
  intros Hma Hmi Hpa. unfold semver.parse. simpl.
  rewrite (parseInt_app ma (String "." _) Hma eq_refl). simpl.
  rewrite (parseInt_app mi (String "." _) Hmi eq_refl). simpl.
  rewrite <- (append_nil_r pa) at 1.
  rewrite (parseInt_app pa "" Hpa I). reflexivity.
Qed.

Lemma parse_pre (ma mi pa suf : string) :
  Plain.number ma -> Plain.number mi -> Plain.number pa -> Plain.suffix suf ->
  semver.parse (String "v" (ma ++ "." ++ mi ++ "." ++ pa ++ "-" ++ suf))
  = Some (semver.mkParsed ma mi pa "" (String "-" suf) "").
Proof.
  intros Hma Hmi Hpa Hsuf. unfold semver.parse. simpl.
  rewrite (parseInt_app ma (String "." _) Hma eq_refl). simpl.
  rewrite (parseInt_app mi (String "." _) Hmi eq_refl). simpl.
  rewrite (parseInt_app pa (String "-" _) Hpa eq_refl).
  unfold semver.parseTail.
  change (semver.starts_with "-" (String "-" suf)) with true. cbv iota.
  rewrite (parsePrerelease_plain suf Hsuf). reflexivity.
Qed.

(** What the comparator of the specification sees in the four forms. *)
Lemma splitHyphen_digits (n rest : string) :
  semver.isNum n = true ->
  SpecOrder.splitHyphen (n ++ rest)
  = (n ++ fst (SpecOrder.splitHyphen rest), snd (SpecOrder.splitHyphen rest)).
Proof.
  intros Hn. induction n as [| c n IH]; simpl.
  - destruct (SpecOrder.splitHyphen rest). reflexivity.
  - simpl in Hn. apply Bool.andb_true_iff in Hn. destruct Hn as [Hc Hn].
    destruct (isDigit_not_sep c Hc) as [_ Hh]. rewrite Hh, (IH Hn).
    reflexivity.
Qed.

Lemma numbers_digits (n rest : string) (acc : Z) :
  semver.isNum n = true ->
  SpecOrder.numbers acc (n ++ rest)
  = SpecOrder.numbers (Plain.decimal acc n) rest.
Proof.
  revert acc. induction n as [| c n IH]; intros acc Hn; simpl; [reflexivity |].
  simpl in Hn. apply Bool.andb_true_iff in Hn. destruct Hn as [Hc Hn].
  destruct (isDigit_not_sep c Hc) as [Hd _]. rewrite Hd. apply IH, Hn.
Qed.

Lemma spec_one (ma : string) :
  Plain.number ma ->
  SpecOrder.numericPrefix ma = [Plain.decimal 0 ma]
  /\ SpecOrder.suffix ma = None.
Proof.
  intros (_ & Hn & _). unfold SpecOrder.numericPrefix, SpecOrder.suffix.
  rewrite <- (append_nil_r ma) at 1 3.
  rewrite (splitHyphen_digits ma "" Hn). simpl.
  rewrite (numbers_digits ma "" 0 Hn). auto.
Qed.

Lemma spec_two (ma mi : string) :
  Plain.number ma -> Plain.number mi ->
  SpecOrder.numericPrefix (ma ++ "." ++ mi)
  = [Plain.decimal 0 ma; Plain.decimal 0 mi]
  /\ SpecOrder.suffix (ma ++ "." ++ mi) = None.
Proof.
  intros (_ & Hma & _) (_ & Hmi & _).
  unfold SpecOrder.numericPrefix, SpecOrder.suffix.
  rewrite (splitHyphen_digits ma _ Hma). simpl.
  rewrite <- (append_nil_r mi) at 1 3.
  rewrite (splitHyphen_digits mi "" Hmi). simpl.
  rewrite (numbers_digits ma _ 0 Hma). simpl.
  rewrite (numbers_digits mi "" 0 Hmi). auto.
Qed.

Lemma spec_three (ma mi pa : string) :
  Plain.number ma -> Plain.number mi -> Plain.number pa ->
  SpecOrder.numericPrefix (ma ++ "." ++ mi ++ "." ++ pa)
  = [Plain.decimal 0 ma; Plain.decimal 0 mi; Plain.decimal 0 pa]
  /\ SpecOrder.suffix (ma ++ "." ++ mi ++ "." ++ pa) = None.
Proof.
  intros (_ & Hma & _) (_ & Hmi & _) (_ & Hpa & _).
  unfold SpecOrder.numericPrefix, SpecOrder.suffix.
  rewrite (splitHyphen_digits ma _ Hma). simpl.
  rewrite (splitHyphen_digits mi _ Hmi). simpl.
  rewrite <- (append_nil_r pa) at 1 3.
  rewrite (splitHyphen_digits pa "" Hpa). simpl.
  rewrite (numbers_digits ma _ 0 Hma). simpl.
  rewrite (numbers_digits mi _ 0 Hmi). simpl.
  rewrite (numbers_digits pa "" 0 Hpa). auto.
Qed.

Lemma spec_pre (ma mi pa suf : string) :
  Plain.number ma -> Plain.number mi -> Plain.number pa ->
  SpecOrder.numericPrefix (ma ++ "." ++ mi ++ "." ++ pa ++ "-" ++ suf)
  = [Plain.decimal 0 ma; Plain.decimal 0 mi; Plain.decimal 0 pa]
  /\ SpecOrder.suffix (ma ++ "." ++ mi ++ "." ++ pa ++ "-" ++ suf) = Some suf.
Proof.
  intros (_ & Hma & _) (_ & Hmi & _) (_ & Hpa & _).
  unfold SpecOrder.numericPrefix, SpecOrder.suffix.
  rewrite (splitHyphen_digits ma _ Hma). simpl.
  rewrite (splitHyphen_digits mi _ Hmi). simpl.
  rewrite (splitHyphen_digits pa _ Hpa). simpl.
  rewrite (numbers_digits ma _ 0 Hma). simpl.
  rewrite (numbers_digits mi _ 0 Hmi). simpl.
  rewrite append_nil_r.
  rewrite <- (append_nil_r pa) at 1.
  rewrite (numbers_digits pa "" 0 Hpa). auto.
Qed.

Lemma number_zero : Plain.number "0".
Proof. repeat split. discriminate. Qed.

Lemma plain_keyed (id : string) :
  Plain.version id -> exists ma mi pa suf, Plain.keyed id ma mi pa suf.
Proof.
  intros [ma Hma | ma mi Hma Hmi | ma mi pa Hma Hmi Hpa
          | ma mi pa suf Hma Hmi Hpa Hsuf].
  - exists ma, "0", "0", None.
    destruct (spec_one ma Hma) as [Hn Hs].
    refine (conj Hma (conj number_zero (conj number_zero
             (conj _ (conj _ (conj _ Hs)))))).
    + discriminate.
    + eexists. apply parse_one, Hma.
    + eexists. split; [exact Hn | reflexivity].
  - exists ma, mi, "0", None.
    destruct (spec_two ma mi Hma Hmi) as [Hn Hs].
    refine (conj Hma (conj Hmi (conj number_zero
             (conj _ (conj _ (conj _ Hs)))))).
    + discriminate.
    + eexists. apply parse_two; assumption.
    + eexists. split; [exact Hn | reflexivity].
  - exists ma, mi, pa, None.
    destruct (spec_three ma mi pa Hma Hmi Hpa) as [Hn Hs].
    refine (conj Hma (conj Hmi (conj Hpa (conj _ (conj _ (conj _ Hs)))))).
    + discriminate.
    + eexists. apply parse_three; assumption.
    + eexists. split; [exact Hn | reflexivity].
  - exists ma, mi, pa, (Some suf).
    destruct (spec_pre ma mi pa suf Hma Hmi Hpa) as [Hn Hs].
    refine (conj Hma (conj Hmi (conj Hpa (conj _ (conj _ (conj _ Hs)))))).
    + intros s E. injection E as <-. exact Hsuf.
    + eexists. apply parse_pre; assumption.
    + eexists. split; [exact Hn | reflexivity].
Qed.

(** Decimal numbers without leading zeros: the order of [compareInt] is
    the order of their values. *)
Lemma strlen_cons (c : ascii) (s : string) :
  SemverOrder.strlen (String c s) = SemverOrder.strlen s + 1.
Proof. unfold SemverOrder.strlen. simpl String.length. lia. Qed.

Lemma strlen_nonneg (s : string) : 0 <= SemverOrder.strlen s.
Proof. unfold SemverOrder.strlen. lia. Qed.

Lemma decimal_bounds (s : string) :
  semver.isNum s = true ->
  forall acc,
    Plain.decimal acc s = acc * 10 ^ SemverOrder.strlen s + Plain.decimal 0 s
    /\ 0 <= Plain.decimal 0 s < 10 ^ SemverOrder.strlen s.
Proof.
  induction s as [| c s IH]; intros Hn acc.
  - simpl. change (SemverOrder.strlen "") with 0. simpl. lia.
  - simpl in Hn. apply Bool.andb_true_iff in Hn. destruct Hn as [Hc Hn].
    pose proof (isDigit_value c Hc) as Hd.
    rewrite strlen_cons.
    replace (10 ^ (SemverOrder.strlen s + 1)) with (10 * 10 ^ SemverOrder.strlen s)
      by (rewrite Z.pow_add_r; [lia | apply strlen_nonneg | lia]).
    cbn [Plain.decimal].
    destruct (IH Hn (10 * acc + SpecOrder.digitValue c)) as [E1 _].
    destruct (IH Hn (10 * 0 + SpecOrder.digitValue c)) as [E2 B].
    rewrite E1, E2. split; nia.
Qed.

Lemma ascii_compare_value (a b : ascii) :
  Ascii.compare a b = (SpecOrder.digitValue a ?= SpecOrder.digitValue b).
Proof.
  unfold Ascii.compare, SpecOrder.digitValue, nat_of_ascii.
  rewrite !N_nat_Z, <- N2Z.inj_compare.
  destruct (Z.compare_spec (Z.of_N (N_of_ascii a)) (Z.of_N (N_of_ascii b)));
    destruct (Z.compare_spec (Z.of_N (N_of_ascii a) - 48)
                             (Z.of_N (N_of_ascii b) - 48));
    try lia; reflexivity.
Qed.

Lemma digits_same_length (x : string) :
  forall y,
    semver.isNum x = true -> semver.isNum y = true ->
    String.length x = String.length y ->
    Cmp.str x y = Cmp.num (Plain.decimal 0 x) (Plain.decimal 0 y).
Proof.
  induction x as [| a x IH]; intros [| b y] Hx Hy Hl; try discriminate Hl.
  - reflexivity.
  - simpl in Hx, Hy, Hl.
    apply Bool.andb_true_iff in Hx, Hy. destruct Hx as [Ha Hx], Hy as [Hb Hy].
    injection Hl as Hl. specialize (IH y Hx Hy Hl).
    rewrite str_compare in IH |- *. simpl String.compare.
    rewrite ascii_compare_value.
    cbn [Plain.decimal].
    destruct (decimal_bounds x Hx (10 * 0 + SpecOrder.digitValue a)) as [-> _].
    destruct (decimal_bounds y Hy (10 * 0 + SpecOrder.digitValue b)) as [-> _].
    destruct (decimal_bounds x Hx 0) as [_ Bx].
    destruct (decimal_bounds y Hy 0) as [_ By].
    assert (SemverOrder.strlen x = SemverOrder.strlen y) as El
      by (unfold SemverOrder.strlen; lia).
    rewrite El in *. set (p := 10 ^ SemverOrder.strlen y) in *.
    destruct (Z.compare_spec (SpecOrder.digitValue a) (SpecOrder.digitValue b))
      as [E | L | G].
    + rewrite E, IH. unfold Cmp.num.
      destruct (Z.ltb_spec (Plain.decimal 0 x) (Plain.decimal 0 y));
        destruct (Z.ltb_spec (Plain.decimal 0 y) (Plain.decimal 0 x));
        destruct (Z.ltb_spec ((10 * 0 + SpecOrder.digitValue b) * p + Plain.decimal 0 x)
                             ((10 * 0 + SpecOrder.digitValue b) * p + Plain.decimal 0 y));
        destruct (Z.ltb_spec ((10 * 0 + SpecOrder.digitValue b) * p + Plain.decimal 0 y)
                             ((10 * 0 + SpecOrder.digitValue b) * p + Plain.decimal 0 x));
        try lia; reflexivity.
    + unfold Cmp.num.
      destruct (Z.ltb_spec ((10 * 0 + SpecOrder.digitValue a) * p + Plain.decimal 0 x)
                           ((10 * 0 + SpecOrder.digitValue b) * p + Plain.decimal 0 y));
        [reflexivity | nia].
    + unfold Cmp.num.
      destruct (Z.ltb_spec ((10 * 0 + SpecOrder.digitValue a) * p + Plain.decimal 0 x)
                           ((10 * 0 + SpecOrder.digitValue b) * p + Plain.decimal 0 y));
        [nia |].
      destruct (Z.ltb_spec ((10 * 0 + SpecOrder.digitValue b) * p + Plain.decimal 0 y)
                           ((10 * 0 + SpecOrder.digitValue a) * p + Plain.decimal 0 x));
        [reflexivity | nia].
Qed.

(** A number of [k] digits without a leading zero is at least
    [10 ^ (k - 1)], when [k > 1]. *)
Lemma number_lower (s : string) :
  Plain.number s -> (1 < String.length s)%nat ->
  10 ^ (SemverOrder.strlen s - 1) <= Plain.decimal 0 s.
Proof.
  intros (_ & Hn & Hbad) Hl.
  destruct s as [| c s]; [simpl in Hl; lia |].
  unfold semver.isBadNum in Hbad. rewrite Hn in Hbad.
  apply Nat.ltb_lt in Hl. rewrite Hl in Hbad. simpl in Hbad.
  simpl in Hn. apply Bool.andb_true_iff in Hn. destruct Hn as [Hc Hn].
  assert (1 <= SpecOrder.digitValue c) as Hd.
  { revert Hc Hbad. clear.
    destruct c as [[] [] [] [] [] [] [] []]; vm_compute; intros H1 H2;
      try discriminate H1; try discriminate H2; discriminate. }
  rewrite strlen_cons. replace (SemverOrder.strlen s + 1 - 1)
    with (SemverOrder.strlen s) by lia.
  cbn [Plain.decimal].
  destruct (decimal_bounds s Hn (10 * 0 + SpecOrder.digitValue c)) as [-> _].
  destruct (decimal_bounds s Hn 0) as [_ B].
  nia.
Qed.

Lemma shorter_number_less (x y : string) :
  Plain.number x -> Plain.number y ->
  (String.length x < String.length y)%nat ->
  Plain.decimal 0 x < Plain.decimal 0 y.
Proof.
  intros Hx Hy Hl.
  destruct Hx as (Hxne & Hxn & _).
  destruct (decimal_bounds x Hxn 0) as [_ Bx].
  assert (1 < String.length y)%nat as Hy1.
  { destruct x; [contradiction | simpl in Hl; lia]. }
  pose proof (number_lower y Hy Hy1) as Ly.
  assert (10 ^ SemverOrder.strlen x <= 10 ^ (SemverOrder.strlen y - 1)) as Hp.
  { apply Z.pow_le_mono_r; unfold SemverOrder.strlen; lia. }
  lia.
Qed.

Lemma number_value (x y : string) :
  Plain.number x -> Plain.number y ->
  SemverOrder.number x y = Cmp.num (Plain.decimal 0 x) (Plain.decimal 0 y).
Proof.
  intros Hx Hy. unfold SemverOrder.number, Cmp.lex, Cmp.on.
  destruct (lt_eq_lt_dec (String.length x) (String.length y)) as [[L | E] | G].
  - pose proof (shorter_number_less x y Hx Hy L) as H.
    unfold Cmp.num, SemverOrder.strlen.
    destruct (Z.ltb_spec (Z.of_nat (String.length x)) (Z.of_nat (String.length y)));
      [| lia].
    destruct (Z.ltb_spec (Plain.decimal 0 x) (Plain.decimal 0 y)); [| lia].
    reflexivity.
  - unfold SemverOrder.strlen at 1 2. rewrite E.
    rewrite (total_refl _ _ total_num). simpl.
    apply digits_same_length; [apply Hx | apply Hy | exact E].
  - pose proof (shorter_number_less y x Hy Hx G) as H.
    unfold Cmp.num, SemverOrder.strlen.
    destruct (Z.ltb_spec (Z.of_nat (String.length x)) (Z.of_nat (String.length y)));
      [lia |].
    destruct (Z.ltb_spec (Z.of_nat (String.length y)) (Z.of_nat (String.length x)));
      [| lia].
    destruct (Z.ltb_spec (Plain.decimal 0 x) (Plain.decimal 0 y)); [lia |].
    destruct (Z.ltb_spec (Plain.decimal 0 y) (Plain.decimal 0 x)); [| lia].
    reflexivity.
Qed.

(** Zeros after a numeric prefix do not change its place. *)
Lemma againstZeros_zeros (k : nat) : SpecOrder.againstZeros (repeat 0 k) = 0.
Proof. induction k as [| k IH]; simpl; [reflexivity | exact IH]. Qed.

Lemma againstZeros_pad (l : list Z) (k : nat) :
  SpecOrder.againstZeros (l ++ repeat 0 k) = SpecOrder.againstZeros l.
Proof.
  induction l as [| x l IH]; simpl; [apply againstZeros_zeros |].
  rewrite IH. reflexivity.
Qed.

Lemma compareNumeric_antisym (a b : list Z) :
  SpecOrder.compareNumeric b a = - SpecOrder.compareNumeric a b.
Proof.
  revert b. induction a as [| x a IH]; intros [| y b]; simpl; try lia.
  rewrite (proj1 total_num x y), IH.
  destruct (Cmp.num x y =? 0) eqn:E1; destruct (- Cmp.num x y =? 0) eqn:E2;
    simpl; lia.
Qed.

Lemma compareNumeric_zeros (k : nat) (b : list Z) :
  SpecOrder.compareNumeric (repeat 0 k) b = - SpecOrder.againstZeros b.
Proof.
  revert b. induction k as [| k IH]; intros b; [reflexivity |].
  destruct b as [| y b]; simpl.
  - apply againstZeros_zeros.
  - rewrite IH, (proj1 total_num y 0).
    destruct (Cmp.num y 0 =? 0) eqn:E1; destruct (- Cmp.num y 0 =? 0) eqn:E2;
      simpl; lia.
Qed.

Lemma compareNumeric_pad_l (a b : list Z) (k : nat) :
  SpecOrder.compareNumeric (a ++ repeat 0 k) b = SpecOrder.compareNumeric a b.
Proof.
  revert b. induction a as [| x a IH]; intros b.
  - simpl app. rewrite compareNumeric_zeros. reflexivity.
  - destruct b as [| y b]; simpl.
    + rewrite againstZeros_pad. reflexivity.
    + rewrite IH. reflexivity.
Qed.

Lemma compareNumeric_pad (a b : list Z) (j k : nat) :
  SpecOrder.compareNumeric (a ++ repeat 0 j) (b ++ repeat 0 k)
  = SpecOrder.compareNumeric a b.
Proof.
  rewrite compareNumeric_pad_l.
  rewrite (compareNumeric_antisym (b ++ repeat 0 k) a), compareNumeric_pad_l.
  rewrite <- compareNumeric_antisym. reflexivity.
Qed.

(** A suffix is one identifier that is no number. *)
Lemma splitDot_plain (s : string) :
  Plain.all semver.isIdentChar s = true -> SemverOrder.splitDot s = [s].
Proof.
  induction s as [| c s IH]; simpl; [reflexivity |].
  intros H. apply Bool.andb_true_iff in H. destruct H as [Hc Hs].
  destruct (isIdentChar_not_sep c Hc) as [-> _]. rewrite (IH Hs). reflexivity.
Qed.

Lemma pre_suffix (s t : string) :
  Plain.suffix s -> Plain.suffix t ->
  SemverOrder.pre (SemverOrder.idents (String "-" s))
                  (SemverOrder.idents (String "-" t))
  = Cmp.str s t.
Proof.
  intros (_ & Hs & Ns) (_ & Ht & Nt). simpl.
  rewrite (splitDot_plain s Hs), (splitDot_plain t Ht). simpl.
  unfold SemverOrder.ident, Cmp.lex, Cmp.on,
    SemverOrder.identClass, SemverOrder.identLength.
  rewrite Ns, Nt. simpl.
  destruct (Cmp.str s t =? 0) eqn:E; simpl; [| reflexivity].
  apply Z.eqb_eq in E. symmetry. exact E.
Qed.

Lemma pre_keys (suf suf' : option string) :
  (forall s, suf = Some s -> Plain.suffix s) ->
  (forall s, suf' = Some s -> Plain.suffix s) ->
  SemverOrder.pre (SemverOrder.idents (Plain.prerelease suf))
                  (SemverOrder.idents (Plain.prerelease suf'))
  = Cmp.noneLast Cmp.str suf suf'.
Proof.
  intros H H'. destruct suf as [s |]; destruct suf' as [t |]; try reflexivity.
  apply pre_suffix; auto.
Qed.

(** On plain identifiers [semver.Compare] is the comparator of the
    specification. *)
Lemma keyed_agree (a b ma mi pa ma' mi' pa' : string) (suf suf' : option string) :
  Plain.keyed a ma mi pa suf -> Plain.keyed b ma' mi' pa' suf' ->
  semver.Compare (String "v" a) (String "v" b) = SpecOrder.compare a b.
Proof.
  intros (Hma & Hmi & Hpa & Hsuf & [sh Hp] & (l & Hl & Hpad) & Hs)
         (Hma' & Hmi' & Hpa' & Hsuf' & [sh' Hp'] & (l' & Hl' & Hpad') & Hs').
  rewrite Compare_version, Hp, Hp'. simpl Cmp.noneFirst.
  unfold SemverOrder.version, SpecOrder.compare, Cmp.lex, Cmp.on.
  cbn [semver.major semver.minor semver.patch semver.prerelease].
  rewrite (number_value _ _ Hma Hma'), (number_value _ _ Hmi Hmi'),
    (number_value _ _ Hpa Hpa'), (pre_keys _ _ Hsuf Hsuf').
  rewrite Hl, Hl', Hs, Hs'.
  rewrite <- (compareNumeric_pad l l' (3 - List.length l) (3 - List.length l')).
  rewrite Hpad, Hpad'. simpl SpecOrder.compareNumeric.
  destruct (Cmp.num (Plain.decimal 0 ma) (Plain.decimal 0 ma') =? 0) eqn:E1;
    destruct (Cmp.num (Plain.decimal 0 mi) (Plain.decimal 0 mi') =? 0) eqn:E2;
    destruct (Cmp.num (Plain.decimal 0 pa) (Plain.decimal 0 pa') =? 0) eqn:E3;
    simpl; rewrite ?E1, ?E2, ?E3; reflexivity.
Qed.

Lemma plain_agree (a b : string) :
  Plain.version a -> Plain.version b ->
  semver.Compare (String "v" a) (String "v" b) = SpecOrder.compare a b.
Proof.
  intros Ha Hb.
  destruct (plain_keyed a Ha) as (ma & mi & pa & suf & Ka).
  destruct (plain_keyed b Hb) as (ma' & mi' & pa' & suf' & Kb).
  exact (keyed_agree _ _ _ _ _ _ _ _ _ _ Ka Kb).
Qed.

(** Identifiers of three numbers tie only with themselves. *)
Lemma lex_zero {A : Type} (c1 c2 : A -> A -> Z) (x y : A) :
  Cmp.lex c1 c2 x y = 0 -> c1 x y = 0 /\ c2 x y = 0.
Proof.
  unfold Cmp.lex. destruct (c1 x y =? 0) eqn:E; simpl.
  - apply Z.eqb_eq in E. auto.
  - apply Z.eqb_neq in E. intros H. contradiction.
Qed.

Lemma number_zero_eq (x y : string) : SemverOrder.number x y = 0 -> x = y.
Proof. intros H. apply lex_zero in H. apply str_zero, H. Qed.

Lemma full_parse (ma mi pa : string) (suf : option string) :
  Plain.number ma -> Plain.number mi -> Plain.number pa ->
  (forall s, suf = Some s -> Plain.suffix s) ->
  semver.parse (String "v" (Plain.compose ma mi pa suf))
  = Some (semver.mkParsed ma mi pa "" (Plain.prerelease suf) "").
Proof.
  intros Hma Hmi Hpa Hsuf. unfold Plain.compose. destruct suf as [s |].
  - apply parse_pre; auto.
  - rewrite append_nil_r. apply parse_three; auto.
Qed.

Lemma full_version (id : string) : Plain.full id -> Plain.version id.
Proof.
  intros (ma & mi & pa & suf & Hma & Hmi & Hpa & Hsuf & ->).
  unfold Plain.compose. destruct suf as [s |].
  - apply Plain.pre; auto.
  - rewrite append_nil_r. apply Plain.three; auto.
Qed.

Lemma full_tie (a b : string) :
  Plain.full a -> Plain.full b ->
  semver.Compare (String "v" a) (String "v" b) = 0 -> a = b.
Proof.
  intros (ma & mi & pa & suf & Hma & Hmi & Hpa & Hsuf & ->)
         (ma' & mi' & pa' & suf' & Hma' & Hmi' & Hpa' & Hsuf' & ->).
  rewrite Compare_version, !full_parse by assumption.
  simpl Cmp.noneFirst. unfold SemverOrder.version. intros H.
  apply lex_zero in H. destruct H as [H1 H].
  apply lex_zero in H. destruct H as [H2 H].
  apply lex_zero in H. destruct H as [H3 H4].
  unfold Cmp.on in H1, H2, H3, H4. simpl in H1, H2, H3, H4.
  apply number_zero_eq in H1, H2, H3. subst ma' mi' pa'.
  rewrite (pre_keys _ _ Hsuf Hsuf') in H4.
  destruct suf as [s |]; destruct suf' as [t |]; try discriminate H4;
    [| reflexivity].
  simpl in H4. apply str_zero in H4. subst t. reflexivity.
Qed.

Lemma full_noTies (l : list string) : Forall Plain.full l -> noTies l.
Proof.
  intros H a b Ha Hb. rewrite Forall_forall in H.
  apply full_tie; auto.
Qed.

(** ** sort.Slice *)

Section SortFacts.
Context {A : Type} (less : A -> A -> bool).

Lemma insertLeft_perm (x : A) (before : list A) :
  Permutation (sort.insertLeft less x before) (x :: before).
Proof.
  induction before as [| y before IH]; simpl; [reflexivity |].
  destruct (less x y); [| reflexivity].
  rewrite IH. apply perm_swap.
Qed.

Lemma insertionSort_perm (rest before : list A) :
  Permutation (sort.insertionSort less before rest) (before ++ rest).
Proof.
  revert before. induction rest as [| x rest IH]; intros before; simpl.
  - rewrite app_nil_r. symmetry. apply Permutation_rev.
  - rewrite IH, insertLeft_perm. apply Permutation_middle.
Qed.

Lemma Slice_perm (data : list A) : Permutation (sort.Slice less data) data.
Proof. apply (insertionSort_perm data []). Qed.

(** A slice without a descent between neighbours is left as it is. *)
Lemma insertionSort_in_order (rest before : list A) :
  Sorted (fun a b => less b a = false) (rev before ++ rest) ->
  sort.insertionSort less before rest = (rev before ++ rest)%list.
Proof.
  revert before. induction rest as [| x rest IH]; intros before H; simpl.
  - rewrite app_nil_r. reflexivity.
  - assert (sort.insertLeft less x before = x :: before) as ->.
    { destruct before as [| y before]; [reflexivity |]. simpl.
      simpl in H. rewrite <- app_assoc in H. simpl in H.
      assert (less x y = false) as ->; [| reflexivity].
      clear IH. induction (rev before) as [| z l IHl]; simpl in H.
      - inversion H as [| ? ? _ Hd]. inversion Hd. assumption.
      - inversion H. auto. }
    rewrite IH; simpl; rewrite <- app_assoc; [reflexivity | exact H].
Qed.

Lemma Slice_in_order (data : list A) :
  Sorted (fun a b => less b a = false) data -> sort.Slice less data = data.
Proof. intros H. apply (insertionSort_in_order data [] H). Qed.

Hypothesis less_asym : forall a b, less a b = true -> less b a = false.
Hypothesis less_trans :
  forall a b c, less b a = false -> less c b = false -> less c a = false.

(** The slice to the left of [i], from right to left, stays in order. *)
Lemma insertLeft_sorted (x : A) (before : list A) :
  StronglySorted (fun a b => less a b = false) before ->
  StronglySorted (fun a b => less a b = false) (sort.insertLeft less x before).
Proof.
  induction 1 as [| y before Hs IH Hy]; simpl.
  - repeat constructor.
  - destruct (less x y) eqn:E.
    + constructor; [exact IH |].
      rewrite Forall_forall in Hy |- *. intros z Hz.
      apply (Permutation_in _ (insertLeft_perm x before)) in Hz.
      destruct Hz as [<- | Hz]; auto.
    + constructor; [constructor; assumption |].
      constructor; [exact E |].
      rewrite Forall_forall in Hy |- *. intros z Hz.
      apply (less_trans z y x); auto.
Qed.

Lemma StronglySorted_snoc (R : A -> A -> Prop) (l : list A) (x : A) :
  StronglySorted R l -> Forall (fun y => R y x) l ->
  StronglySorted R (l ++ [x]).
Proof.
  induction 1 as [| y l Hs IH Hy]; simpl; intros Hx.
  - repeat constructor.
  - inversion Hx; subst. constructor; [auto |].
    apply Forall_app. split; [assumption | repeat constructor; assumption].
Qed.

Lemma StronglySorted_rev (R : A -> A -> Prop) (l : list A) :
  StronglySorted R l -> StronglySorted (fun a b => R b a) (rev l).
Proof.
  induction 1 as [| x l Hs IH Hx]; simpl; [constructor |].
  apply StronglySorted_snoc; [exact IH |].
  apply Forall_rev. exact Hx.
Qed.

Lemma insertionSort_sorted (rest before : list A) :
  StronglySorted (fun a b => less a b = false) before ->
  StronglySorted (fun a b => less b a = false)
                 (sort.insertionSort less before rest).
Proof.
  revert before. induction rest as [| x rest IH]; intros before H; simpl.
  - apply (StronglySorted_rev _ _ H).
  - apply IH, insertLeft_sorted, H.
Qed.

Lemma Slice_sorted (data : list A) :
  StronglySorted (fun a b => less b a = false) (sort.Slice less data).
Proof. apply insertionSort_sorted. constructor. Qed.
End SortFacts.

(** ** FlattenVersions *)

Lemma collect_groups (groups : gomap (list string)) (all : list string) :
  fold_left (fun all (kv : string * list string) => (all ++ snd kv)%list)
            groups all
  = (all ++ allVersionsOf groups)%list.
Proof.
  revert all. induction groups as [| kv groups IH]; intros all; simpl.
  - rewrite app_nil_r. reflexivity.
  - rewrite IH. unfold allVersionsOf. simpl. rewrite app_assoc. reflexivity.
Qed.

Lemma FlattenVersions_sort (p : ProjectV3Response) :
  FlattenVersions p = sort.Slice semverLess (allVersionsOf (Versions p)).
Proof. unfold FlattenVersions. rewrite collect_groups. reflexivity. Qed.

Lemma FlattenVersions_perm (p : ProjectV3Response) :
  Permutation (FlattenVersions p) (allVersionsOf (Versions p)).
Proof. rewrite FlattenVersions_sort. apply Slice_perm. Qed.

Lemma StronglySorted_impl {A : Type} (R S : A -> A -> Prop) (l : list A) :
  (forall a b, R a b -> S a b) -> StronglySorted R l -> StronglySorted S l.
Proof.
  intros HRS. induction 1 as [| x l Hs IH Hx]; constructor; [exact IH |].
  eapply Forall_impl; [| exact Hx]. intros b. apply HRS.
Qed.

Lemma FlattenVersions_sorted (p : ProjectV3Response) :
  StronglySorted semverLe (FlattenVersions p).
Proof.
  rewrite FlattenVersions_sort.
  apply (StronglySorted_impl (fun a b => semverLess b a = false)).
  - intros a b. apply semverLess_false.
  - apply Slice_sorted.
    + apply semverLess_asym.
    + intros a b c Hab Hbc. apply semverLess_false in Hab, Hbc.
      apply semverLess_false. exact (semverLe_trans _ _ _ Hab Hbc).
Qed.

(** Two ascending lists of the same identifiers, none of which tie. *)
Lemma sorted_unique (l1 l2 : list string) :
  StronglySorted semverLe l1 -> StronglySorted semverLe l2 ->
  Permutation l1 l2 -> noTies l1 -> l1 = l2.
Proof.
  intros H1. revert l2. induction H1 as [| a l1 Hs1 IH Ha]; intros l2 H2 HP HT.
  - apply Permutation_nil in HP. auto.
  - destruct H2 as [| b l2 Hs2 Hb].
    + apply Permutation_sym, Permutation_nil in HP. discriminate.
    + assert (a = b) as ->.
      { assert (In b (a :: l1)) as Hin
          by (apply (Permutation_in _ (Permutation_sym HP)); left; reflexivity).
        assert (In a (b :: l2)) as Hin'
          by (apply (Permutation_in _ HP); left; reflexivity).
        destruct Hin as [E | Hin]; [auto |].
        destruct Hin' as [E | Hin']; [auto |].
        rewrite Forall_forall in Ha, Hb.
        apply HT; [left; reflexivity | right; exact Hin |].
        apply semverLe_antisym; auto. }
      f_equal. apply IH; [exact Hs2 | exact (Permutation_cons_inv HP) |].
      intros x y Hx Hy. apply HT; right; assumption.
Qed.

Lemma concat_perm {A : Type} (l l' : list (list A)) :
  Permutation l l' -> Permutation (List.concat l) (List.concat l').
Proof.
  induction 1 as [| x l l' _ IH | x y l | l l' l'' _ IH1 _ IH2]; simpl.
  - reflexivity.
  - apply Permutation_app_head, IH.
  - rewrite !app_assoc. apply Permutation_app_tail, Permutation_app_comm.
  - transitivity (List.concat l'); assumption.
Qed.

Lemma sameGroups_perm (g1 g2 : gomap (list string)) :
  sameGroups g1 g2 -> Permutation (allVersionsOf g1) (allVersionsOf g2).
Proof.
  intros (g & HP & HF). unfold allVersionsOf.
  transitivity (List.concat (map snd g)).
  - apply concat_perm, Permutation_map, HP.
  - clear HP. induction HF as [| a b g g2 [_ Hab] _ IH]; simpl; [reflexivity |].
    apply Permutation_app; assumption.
Qed.

Lemma noTies_perm (l1 l2 : list string) :
  Permutation l1 l2 -> noTies l1 -> noTies l2.
Proof.
  intros HP HT a b Ha Hb.
  apply HT; [exact (Permutation_in a (Permutation_sym HP) Ha)
            | exact (Permutation_in b (Permutation_sym HP) Hb)].
Qed.

Lemma noTiesb_noTies (l : list string) : noTiesb l = true -> noTies l.
Proof.
  unfold noTiesb, noTies. rewrite forallb_forall. intros H a b Ha Hb E.
  specialize (H a Ha). rewrite forallb_forall in H. specialize (H b Hb).
  rewrite E in H. simpl in H. apply String.eqb_eq. exact H.
Qed.

Lemma FlattenVersions_independent (p p' : ProjectV3Response) :
  noTies (allVersionsOf (Versions p)) ->
  sameGroups (Versions p) (Versions p') ->
  FlattenVersions p' = FlattenVersions p.
Proof.
  intros HT HS. apply sorted_unique.
  - apply FlattenVersions_sorted.
  - apply FlattenVersions_sorted.
  - rewrite !FlattenVersions_perm. symmetry. apply sameGroups_perm, HS.
  - apply (noTies_perm (allVersionsOf (Versions p'))).
    + symmetry. apply FlattenVersions_perm.
    + apply (noTies_perm (allVersionsOf (Versions p))); [| exact HT].
      apply sameGroups_perm, HS.
Qed.

Lemma StronglySorted_on {A : Type} (P : A -> Prop) (R S : A -> A -> Prop)
    (l : list A) :
  (forall a b, P a -> P b -> R a b -> S a b) ->
  Forall P l -> StronglySorted R l -> StronglySorted S l.
Proof.
  intros HRS HP. induction 1 as [| x l Hs IH Hx]; constructor.
  - apply IH. inversion HP. assumption.
  - inversion HP as [| ? ? Px Pl]; subst.
    rewrite Forall_forall in Hx, Pl |- *. intros b Hb.
    apply HRS; auto.
Qed.

Lemma FlattenVersions_spec_sorted (p : ProjectV3Response) :
  Forall Plain.version (allVersionsOf (Versions p)) ->
  StronglySorted specLe (FlattenVersions p).
Proof.
  intros HP.
  apply (StronglySorted_on Plain.version semverLe);
    [| | apply FlattenVersions_sorted].
  - intros a b Ha Hb. unfold semverLe, specLe.
    rewrite (plain_agree a b Ha Hb). auto.
  - rewrite Forall_forall in HP |- *. intros a Ha. apply HP.
    apply (Permutation_in _ (FlattenVersions_perm p)). exact Ha.
Qed.

(** X25: [FlattenVersions] returns all the identifiers of all the groups,
    ascending under [semver.Compare] of the identifiers with a ["v"]
    before them; that is the comparator of the specification when every
    identifier is plain; and the result is the same for every order of the
    groups and inside them when no two different identifiers tie, as when
    every identifier has three numbers. *)
Theorem flatten_sorted_by_semver (p : ProjectV3Response) :
  Permutation (FlattenVersions p) (allVersionsOf (Versions p))
  /\ StronglySorted semverLe (FlattenVersions p)
  /\ (Forall Plain.version (allVersionsOf (Versions p)) ->
      StronglySorted specLe (FlattenVersions p))
  /\ (noTies (allVersionsOf (Versions p))
      \/ Forall Plain.full (allVersionsOf (Versions p)) ->
      forall p', sameGroups (Versions p) (Versions p') ->
                 FlattenVersions p' = FlattenVersions p).
Proof.
  split; [apply FlattenVersions_perm |].
  split; [apply FlattenVersions_sorted |].
  split; [apply FlattenVersions_spec_sorted |].
  intros HT p' HS. apply FlattenVersions_independent; [| exact HS].
  destruct HT as [HT | HF]; [exact HT | apply full_noTies, HF].
Qed.

Lemma regression_sameGroups :
  sameGroups SampleVersions.regression SampleVersions.regression'.
Proof.
  exists [("1.7", ["1.7.10"]); ("1.21", ["1.21.11"; "1.21.11-rc3"; "1.21.10"])].
  split; [apply perm_swap |].
  repeat constructor; simpl.
  apply (Permutation_app_comm ["1.21.11"; "1.21.11-rc3"] ["1.21.10"]).
Defined.

Lemma regression_full :
  Forall Plain.full (allVersionsOf SampleVersions.regression).
Proof.
  repeat constructor.
  - exists "1", "21", "11", None.
    refine (conj _ (conj _ (conj _ (conj _ eq_refl))));
      try (repeat split; discriminate).
  - exists "1", "21", "11", (Some "rc3").
    refine (conj _ (conj _ (conj _ (conj _ eq_refl))));
      try (repeat split; discriminate).
    intros t E. injection E as <-. repeat split. discriminate.
  - exists "1", "21", "10", None.
    refine (conj _ (conj _ (conj _ (conj _ eq_refl))));
      try (repeat split; discriminate).
  - exists "1", "7", "10", None.
    refine (conj _ (conj _ (conj _ (conj _ eq_refl))));
      try (repeat split; discriminate).
Defined.

Lemma flatten_sorted_by_semver_witness :
  Forall Plain.version (allVersionsOf SampleVersions.regression)
  /\ sameGroups SampleVersions.regression SampleVersions.regression'
  /\ StronglySorted specLe
       (FlattenVersions (Sample.project SampleVersions.regression))
  /\ FlattenVersions (Sample.project SampleVersions.regression')
     = FlattenVersions (Sample.project SampleVersions.regression).
Proof.
  assert (Forall Plain.version (allVersionsOf SampleVersions.regression)) as HV.
  { eapply Forall_impl; [apply full_version | apply regression_full]. }
  split; [exact HV |].
  split; [exact regression_sameGroups |].
  destruct (flatten_sorted_by_semver (Sample.project SampleVersions.regression))
    as (_ & _ & Hspec & Hind).
  split; [exact (Hspec HV) |].
  apply Hind; [right; exact regression_full | exact regression_sameGroups].
Defined.

(** C1, at a project with the release 1.7.10 and two pre-releases of
    1.13: in either order of the groups [FlattenVersions] returns the two
    pre-releases before the older release, and 1.13-pre7 before 1.13-pre5.
    With a ["v"] before them the two pre-releases are no semantic
    versions, so [semver.Compare] lets them tie and puts them before every
    semantic version.  The comparator of the specification, from the
    oldest to the newest, puts 1.7.10 first and 1.13-pre5 before
    1.13-pre7. *)
Theorem flatten_prereleases_first :
  FlattenVersions (Sample.project SampleVersions.prereleases)
  = ["1.13-pre7"; "1.13-pre5"; "1.7.10"]
  /\ FlattenVersions
       (Sample.project [("1.7", ["1.7.10"]); ("1.13", ["1.13-pre7"; "1.13-pre5"])])
     = ["1.13-pre7"; "1.13-pre5"; "1.7.10"]
  /\ semver.parse "v1.13-pre7" = None
  /\ semver.parse "v1.13-pre5" = None
  /\ semver.Compare "v1.13-pre7" "v1.13-pre5" = 0
  /\ semver.Compare "v1.13-pre5" "v1.7.10" < 0
  /\ SpecOrder.compare "1.7.10" "1.13-pre5" < 0
  /\ SpecOrder.compare "1.13-pre5" "1.13-pre7" < 0.
Proof. repeat split. Qed.

(** The result for these groups is not the one the specification
    describes. *)
Lemma flatten_not_as_specified :
  ~ flattensAsSpecified (Sample.project SampleVersions.prereleases).
Proof.
  intros (_ & Hsorted & _).
  change (FlattenVersions (Sample.project SampleVersions.prereleases))
    with ["1.13-pre7"; "1.13-pre5"; "1.7.10"] in Hsorted.
  inversion Hsorted as [| ? ? _ Hall]; subst.
  inversion Hall as [| ? ? _ Hall']; subst.
  inversion Hall' as [| ? ? Hle _]; subst.
  vm_compute in Hle. apply Hle. reflexivity.
Qed.

(** The order inside a group shows in the result when identifiers tie. *)
Lemma flatten_depends_on_order :
  sameGroups SampleVersions.prereleases SampleVersions.prereleases'
  /\ FlattenVersions (Sample.project SampleVersions.prereleases)
     = ["1.13-pre7"; "1.13-pre5"; "1.7.10"]
  /\ FlattenVersions (Sample.project SampleVersions.prereleases')
     = ["1.13-pre5"; "1.13-pre7"; "1.7.10"].
Proof.
  split; [| split; reflexivity].
  exists SampleVersions.prereleases. split; [reflexivity |].
  repeat constructor.
Qed.

(** C5: the groups of the regression case flatten to the four
    identifiers in this order, whatever the order of the groups and of the
    lists inside them. *)
Theorem regression_case (p : ProjectV3Response) :
  sameGroups SampleVersions.regression (Versions p) ->
  FlattenVersions p = ["1.7.10"; "1.21.10"; "1.21.11-rc3"; "1.21.11"].
Proof.
  intros HS.
  change ["1.7.10"; "1.21.10"; "1.21.11-rc3"; "1.21.11"]
    with (FlattenVersions (Sample.project SampleVersions.regression)).
  apply FlattenVersions_independent; [| exact HS].
  apply noTiesb_noTies. vm_compute. reflexivity.
Qed.

Lemma regression_case_witness :
  FlattenVersions (Sample.project SampleVersions.regression')
  = ["1.7.10"; "1.21.10"; "1.21.11-rc3"; "1.21.11"].
Proof.
  apply (regression_case (Sample.project SampleVersions.regression')).
  exact regression_sameGroups.
Defined.

(** C9: flattening the result of [FlattenVersions] again, as the one
    group of a project, gives the same sequence; so does sorting it
    again. *)
Theorem flatten_idempotent (p : ProjectV3Response) :
  sort.Slice semverLess (FlattenVersions p) = FlattenVersions p
  /\ forall (meta : ProjectMeta) (group : string),
      FlattenVersions {| Project := meta;
                         Versions := [(group, FlattenVersions p)] |}
      = FlattenVersions p.
Proof.
  assert (sort.Slice semverLess (FlattenVersions p) = FlattenVersions p) as H.
  { apply Slice_in_order, StronglySorted_Sorted.
    apply (StronglySorted_impl semverLe); [| apply FlattenVersions_sorted].
    intros a b. apply semverLess_false. }
  split; [exact H |].
  intros meta group. rewrite (FlattenVersions_sort {| Project := meta |}).
  unfold allVersionsOf. simpl. rewrite app_nil_r. exact H.
Qed.

(** * More of the v3 client *)

(** ** The default download of a build *)

Lemma lookup_In {V : Type} (m : gomap V) (k : string) (v : V) :
  lookup m k = Some v -> In (k, v) m.
Proof.
  induction m as [| [k' v'] m IH]; simpl; [discriminate |].
  destruct (String.eqb_spec k' k) as [-> | Hne].
  - intros H. injection H as <-. left. reflexivity.
  - intros H. right. apply IH, H.
Qed.

Lemma rangeFirst_In {V R : Type} (m : gomap V) (f : V -> R) (dflt : R) :
  m <> [] -> exists k v, In (k, v) m /\ rangeFirst m f dflt = f v.
Proof.
  destruct m as [| [k v] m]; [contradiction |].
  intros _. exists k, v. split; [left |]; reflexivity.
Qed.

(** X1: [GetDownloadURL] and [GetDownloadSHA256] each run a range loop of
    their own over the downloads.  On a build that has the download
    ["server:default"], or one download only, the URL and the checksum are
    those of one and the same download, whatever the orders of the two
    loops.  On a build with two downloads, neither of them
    ["server:default"], there are orders of the two loops for which the
    URL is that of the first download and the checksum that of the
    second.  These are the two getters that [DownloadFile] calls for the
    URL it fetches and for the checksum it expects. *)
Theorem url_and_checksum_of_one_download (b : BuildV3Response) :
  (forall o1 o2 : rangeOrder,
      (forall m, Permutation (o1 m) m) ->
      (forall m, Permutation (o2 m) m) ->
      lookup (Downloads b) "server:default" <> None
      \/ List.length (Downloads b) = 1%nat ->
      exists k d,
        In (k, d) (Downloads b)
        /\ GetDownloadURL o1 b = URL d
        /\ GetDownloadSHA256 o2 b = SHA256 (Checksums d))
  /\ (forall k1 d1 k2 d2,
        Downloads b = [(k1, d1); (k2, d2)] ->
        k1 <> "server:default" -> k2 <> "server:default" ->
        exists o1 o2 : rangeOrder,
          (forall m, Permutation (o1 m) m)
          /\ (forall m, Permutation (o2 m) m)
          /\ GetDownloadURL o1 b = URL d1
          /\ GetDownloadSHA256 o2 b = SHA256 (Checksums d2)).
Proof.
  split.
  - intros o1 o2 H1 H2 Hb. unfold GetDownloadURL, GetDownloadSHA256.
    destruct (lookup (Downloads b) "server:default") as [d |] eqn:E.
    + exists "server:default", d. split; [apply lookup_In, E | split; reflexivity].
    + destruct Hb as [Hb | Hb]; [contradiction Hb; reflexivity |].
      destruct (Downloads b) as [| [k d] [| e m]] eqn:Ed; try discriminate Hb.
      exists k, d. split; [left; reflexivity |].
      pose proof (Permutation_length_1_inv (Permutation_sym (H1 [(k, d)]))) as E1.
      pose proof (Permutation_length_1_inv (Permutation_sym (H2 [(k, d)]))) as E2.
      rewrite E1, E2. split; reflexivity.
  - intros k1 d1 k2 d2 Hd Hk1 Hk2.
    exists (fun m => m), (@rev (string * DownloadV3)).
    split; [intros m; apply Permutation_refl |].
    split; [intros m; apply Permutation_sym, Permutation_rev |].
    unfold GetDownloadURL, GetDownloadSHA256. rewrite Hd. simpl.
    apply String.eqb_neq in Hk1, Hk2. rewrite Hk1, Hk2. split; reflexivity.
Qed.

Lemma url_and_checksum_of_one_download_witness :
  exists o1 o2 : rangeOrder,
    (forall m, Permutation (o1 m) m)
    /\ (forall m, Permutation (o2 m) m)
    /\ GetDownloadURL o1 SampleDownloads.build
       = "https://example.com/paper-1.21.11-74.jar"
    /\ GetDownloadSHA256 o2 SampleDownloads.build = "def456".
Proof.
  apply (proj2 (url_and_checksum_of_one_download SampleDownloads.build)
           "server:application" SampleDownloads.server
           "server:mojang" SampleDownloads.mojang);
    [reflexivity | discriminate | discriminate].
Defined.

(** X2: a getter returns a field of one of the downloads of the build
    when there is one, for every order of the range loop that visits the
    entries of the map, and the empty string when there is none. *)
Theorem download_getters_member (b : BuildV3Response)
    (order : gomap DownloadV3 -> gomap DownloadV3) :
  (forall m, Permutation (order m) m) ->
  (Downloads b = [] ->
   GetDownloadURL order b = "" /\ GetDownloadName order b = ""
   /\ GetDownloadSHA256 order b = "")
  /\ (Downloads b <> [] ->
      (exists k d, In (k, d) (Downloads b) /\ GetDownloadURL order b = URL d)
      /\ (exists k d, In (k, d) (Downloads b) /\ GetDownloadName order b = Name d)
      /\ (exists k d, In (k, d) (Downloads b)
                      /\ GetDownloadSHA256 order b = SHA256 (Checksums d))).
Proof.
  intros Hperm. split.
  - intros E. unfold GetDownloadURL, GetDownloadName, GetDownloadSHA256.
    rewrite E. simpl.
    pose proof (Permutation_sym (Hperm [])) as H.
    apply Permutation_nil in H. rewrite H. auto.
  - intros Hne.
    assert (order (Downloads b) <> []) as Hne'.
    { intros E. pose proof (Hperm (Downloads b)) as H. rewrite E in H.
      apply Permutation_nil in H. auto. }
    unfold GetDownloadURL, GetDownloadName, GetDownloadSHA256.
    destruct (lookup (Downloads b) "server:default") as [d |] eqn:E.
    + apply lookup_In in E. repeat split; eauto.
    + repeat split.
      * destruct (rangeFirst_In (order (Downloads b)) URL "" Hne')
          as (k & d & Hin & ->).
        exists k, d. split; [| reflexivity].
        exact (Permutation_in _ (Hperm _) Hin).
      * destruct (rangeFirst_In (order (Downloads b)) Name "" Hne')
          as (k & d & Hin & ->).
        exists k, d. split; [| reflexivity].
        exact (Permutation_in _ (Hperm _) Hin).
      * destruct (rangeFirst_In (order (Downloads b))
                    (fun d => SHA256 (Checksums d)) "" Hne')
          as (k & d & Hin & ->).
        exists k, d. split; [| reflexivity].
        exact (Permutation_in _ (Hperm _) Hin).
Qed.

Lemma download_getters_member_witness :
  exists k d,
    In (k, d) (Downloads (Sample.build 74 "STABLE" "abc123"))
    /\ GetDownloadName (@rev _) (Sample.build 74 "STABLE" "abc123") = Name d.
Proof.
  apply (proj2 (download_getters_member
                  (Sample.build 74 "STABLE" "abc123") (@rev _)
                  (fun m => Permutation_sym (Permutation_rev m)))).
  discriminate.
Defined.

(** ** GetBuilds and its channels *)

Lemma channelStrs_unknown (channels : list Channel) :
  Forall (fun ch => channelToAPI ch = None) channels ->
  channelStrs channels = [].
Proof.
  induction 1 as [| ch channels Hch _ IH]; simpl; [reflexivity |].
  rewrite Hch. exact IH.
Qed.

(** X3: channels that [channelToAPI] does not know are left out of the
    request: with none that it knows, [GetBuilds] asks for, and returns,
    the builds of all channels. *)
Theorem unknown_channels_ignored (c : Client) (projectID version : string)
    (channels : list Channel) :
  Forall (fun ch => channelToAPI ch = None) channels ->
  GetBuilds c projectID version channels = GetBuilds c projectID version [].
Proof.
  intros H. unfold GetBuilds, buildsURL.
  rewrite (channelStrs_unknown channels H). simpl.
  rewrite Bool.andb_false_r. reflexivity.
Qed.

Lemma unknown_channels_ignored_witness :
  GetBuilds (Sample.client 0 "abc123" (Ok Sample.abc)) "paper" "1.21.11"
    ["RECOMMENDED"; "nightly"]
  = GetBuilds (Sample.client 0 "abc123" (Ok Sample.abc)) "paper" "1.21.11" [].
Proof.
  apply (unknown_channels_ignored (Sample.client 0 "abc123" (Ok Sample.abc))
           "paper" "1.21.11" ["RECOMMENDED"; "nightly"]).
  repeat constructor.
Defined.

(** ** GetLatestBuildV3 under a channel filter *)

Lemma highestID_spec (builds : list BuildV3Response) (first : BuildV3Response) :
  (highestID first builds = first \/ In (highestID first builds) builds)
  /\ ID first <= ID (highestID first builds)
  /\ (forall b, In b builds -> ID b <= ID (highestID first builds)).
Proof.
  revert first. unfold highestID.
  induction builds as [| x builds IH]; intros first; simpl.
  - split; [left; reflexivity |]. split; [lia | intros b []].
  - destruct (Z.gtb_spec (ID x) (ID first)) as [G | L].
    + destruct (IH x) as (Hm & Hf & Hall). split; [| split].
      * right. destruct Hm as [-> | Hm]; [left; reflexivity | right; exact Hm].
      * lia.
      * intros b [<- | Hb]; [exact Hf | apply Hall, Hb].
    + destruct (IH first) as (Hm & Hf & Hall). split; [| split].
      * destruct Hm as [Hm | Hm]; [left; exact Hm | right; right; exact Hm].
      * exact Hf.
      * intros b [<- | Hb]; [lia | apply Hall, Hb].
Qed.

(** X4: with a channel filter set, [GetLatestBuildV3] returns a build of
    the list that [GetBuilds] returns for that channel, one whose ID no
    build of the list exceeds; it fails when that list is empty. *)
Theorem latest_build_of_channel (c : Client) (projectID version : string)
    (builds : list BuildV3Response) :
  Channel_filter c <> "" ->
  GetBuilds c projectID version [Channel_filter c] = Ok builds ->
  (builds = [] ->
   exists err, GetLatestBuildV3 c projectID version = Err err)
  /\ (builds <> [] ->
      exists latest,
        GetLatestBuildV3 c projectID version = Ok latest
        /\ In latest builds
        /\ forall b, In b builds -> ID b <= ID latest).
Proof.
  intros Hch Hb. unfold GetLatestBuildV3.
  apply String.eqb_neq in Hch. rewrite Hch, Hb. cbn [negb].
  split.
  - intros ->. eexists. reflexivity.
  - intros Hne. destruct builds as [| first rest]; [contradiction |].
    eexists. split; [reflexivity |].
    destruct (highestID_spec (first :: rest) first) as (Hm & _ & Hall).
    split; [| exact Hall].
    destruct Hm as [-> | Hm]; [left; reflexivity | exact Hm].
Qed.

Lemma latest_build_of_channel_witness :
  exists latest,
    GetLatestBuildV3
      (WithChannel (Sample.client 0 "abc123" (Ok Sample.abc)) ChannelRecommended)
      "paper" "1.21.11" = Ok latest
    /\ ID latest = 74.
Proof.
  destruct (latest_build_of_channel
              (WithChannel (Sample.client 0 "abc123" (Ok Sample.abc))
                 ChannelRecommended)
              "paper" "1.21.11"
              [Sample.build 74 "RECOMMENDED" "abc123";
               Sample.build 73 "RECOMMENDED" "abc123"]
              ltac:(discriminate) eq_refl) as [_ H].
  destruct (H ltac:(discriminate)) as (latest & E & _ & _).
  exists latest. split; [exact E |].
  vm_compute in E. injection E as <-. reflexivity.
Defined.

(** ** GetLatestVersion *)

Lemma last_greatest {A : Type} (R : A -> A -> Prop) (l : list A) (d : A) :
  (forall a, R a a) -> StronglySorted R l ->
  forall a, In a l -> R a (last l d).
Proof.
  intros Hrefl. induction 1 as [| x l Hs IH Hx]; intros a Ha; [destruct Ha |].
  destruct l as [| y l].
  - destruct Ha as [<- | []]. apply Hrefl.
  - change (last (x :: y :: l) d) with (last (y :: l) d).
    destruct Ha as [<- | Ha]; [| apply IH, Ha].
    rewrite Forall_forall in Hx. apply Hx.
    destruct (exists_last (l := y :: l) ltac:(discriminate)) as (l' & z & E).
    rewrite E, last_last. apply in_or_app. right. left. reflexivity.
Qed.

Lemma last_In {A : Type} (l : list A) (d : A) : l <> [] -> In (last l d) l.
Proof.
  intros H. destruct (exists_last H) as (l' & z & ->).
  rewrite last_last. apply in_or_app. right. left. reflexivity.
Qed.

Lemma FlattenVersions_nil (p : ProjectV3Response) :
  FlattenVersions p = [] <-> allVersionsOf (Versions p) = [].
Proof.
  pose proof (FlattenVersions_perm p) as H. split; intros E; rewrite E in H.
  - apply Permutation_nil in H. exact H.
  - apply Permutation_sym, Permutation_nil in H. exact H.
Qed.

(** X5: for a project that has identifiers, [GetLatestVersion] returns one
    of them, and none of them comes after it under [semver.Compare]; for
    a project without identifiers it returns an error. *)
Theorem latest_version_is_greatest (c : Client) (projectID : string)
    (p : ProjectV3Response) :
  GetProject c projectID = Ok p ->
  (allVersionsOf (Versions p) = [] ->
   GetLatestVersion c projectID
   = ("", Some (errors_New "no versions found for this project")))
  /\ (allVersionsOf (Versions p) <> [] ->
      exists v,
        GetLatestVersion c projectID = (v, None)
        /\ In v (allVersionsOf (Versions p))
        /\ forall w, In w (allVersionsOf (Versions p)) -> semverLe w v).
Proof.
  intros Hp. unfold GetLatestVersion. rewrite Hp. split.
  - intros E. apply FlattenVersions_nil in E. rewrite E. reflexivity.
  - intros Hne.
    assert (FlattenVersions p <> []) as Hne'
      by (intros E; apply FlattenVersions_nil in E; contradiction).
    destruct (FlattenVersions p) as [| v0 vs] eqn:E; [contradiction |].
    change (len (v0 :: vs) =? 0) with false. cbv iota.
    exists (last (v0 :: vs) ""). split; [reflexivity |].
    rewrite <- E in *. split.
    + apply (Permutation_in _ (FlattenVersions_perm p)), last_In, Hne'.
    + intros w Hw. apply last_greatest.
      * intros a. unfold semverLe.
        rewrite (total_refl _ _ total_Compare). lia.
      * apply FlattenVersions_sorted.
      * apply (Permutation_in _ (Permutation_sym (FlattenVersions_perm p))), Hw.
Qed.

Lemma latest_version_is_greatest_witness :
  exists v,
    GetLatestVersion (SampleCatalog.client SampleVersions.regression) "paper"
    = (v, None)
    /\ In v (allVersionsOf SampleVersions.regression)
    /\ forall w, In w (allVersionsOf SampleVersions.regression) -> semverLe w v.
Proof.
  apply (proj2 (latest_version_is_greatest
                  (SampleCatalog.client SampleVersions.regression) "paper"
                  (Sample.project SampleVersions.regression) eq_refl)).
  discriminate.
Defined.

(** ** GetRecommendedVersion: when it fails *)

(** X6: [GetRecommendedVersion] returns no error exactly when the project
    is fetched and has an identifier, and then it returns one of the
    identifiers of the project. *)
Theorem recommended_version_errors (c : Client) (projectID : string) :
  (snd (GetRecommendedVersion c projectID) = None <->
   exists p, GetProject c projectID = Ok p
             /\ allVersionsOf (Versions p) <> [])
  /\ (forall p v,
         GetProject c projectID = Ok p ->
         GetRecommendedVersion c projectID = (v, None) ->
         In v (allVersionsOf (Versions p))).
Proof.
  unfold GetRecommendedVersion, recommendedOf. split.
  - destruct (GetProject c projectID) as [p | err]; simpl.
    + destruct (FlattenVersions p) as [| v0 vs] eqn:E; simpl.
      * split; [discriminate |]. intros (p' & Hp & Hne). injection Hp as <-.
        apply FlattenVersions_nil in E. contradiction.
      * split.
        -- intros _. exists p. split; [reflexivity |].
           intros H. apply FlattenVersions_nil in H. congruence.
        -- intros _. destruct (lastStable (v0 :: vs)); reflexivity.
    + split; [discriminate | intros (p & Hp & _); discriminate Hp].
  - intros p v Hp. rewrite Hp.
    destruct (FlattenVersions p) as [| v0 vs] eqn:E; [discriminate |].
    rewrite <- E.
    assert (FlattenVersions p <> []) as Hne by (rewrite E; discriminate).
    destruct (lastStable (FlattenVersions p)) as [s |] eqn:Hs;
      intros H; injection H as <-;
      apply (Permutation_in _ (FlattenVersions_perm p)).
    + apply lastStable_newest in Hs. destruct Hs as (older & newer & -> & _).
      apply in_elt.
    + apply last_In, Hne.
Qed.

Lemma recommended_version_errors_witness :
  snd (GetRecommendedVersion (SampleCatalog.client []) "paper") <> None
  /\ In (fst (GetRecommendedVersion
                (SampleCatalog.client SampleCatalog.groups) "paper"))
        (allVersionsOf SampleCatalog.groups).
Proof.
  split.
  - intros H.
    apply (proj1 (recommended_version_errors (SampleCatalog.client []) "paper"))
      in H.
    destruct H as (p & Hp & Hne). injection Hp as <-. apply Hne. reflexivity.
  - apply (proj2 (recommended_version_errors
                    (SampleCatalog.client SampleCatalog.groups) "paper")
             (Sample.project SampleCatalog.groups)); reflexivity.
Defined.

(** ** FindPromotedBuild: when it fails *)

(** X7: [FindPromotedBuild] returns an error exactly when neither the
    recommended nor the stable query gives a build and [GetLatestBuildV3]
    fails; the error of a channel query is never returned.  When the
    recommended query gives builds, the answer does not depend on the
    stable ones. *)
Theorem promoted_build_errors (c : Client) (projectID version : string) :
  (snd (FindPromotedBuild c projectID version) <> None <->
   noBuilds (GetBuilds c projectID version [ChannelRecommended])
   /\ noBuilds (GetBuilds c projectID version [ChannelStable])
   /\ exists err, GetLatestBuildV3 c projectID version = Err err)
  /\ (forall err,
         snd (FindPromotedBuild c projectID version) = Some err ->
         exists cause,
           GetLatestBuildV3 c projectID version = Err cause
           /\ err = errors_Wrap cause "failed to get latest build")
  /\ (forall b builds,
         GetBuilds c projectID version [ChannelRecommended] = Ok (b :: builds) ->
         FindPromotedBuild c projectID version = (lastID (b :: builds), None)).
Proof.
  unfold FindPromotedBuild.
  destruct (GetBuilds c projectID version [ChannelRecommended])
    as [[| b1 l1] | e1];
    destruct (GetBuilds c projectID version [ChannelStable])
      as [[| b2 l2] | e2];
    destruct (GetLatestBuildV3 c projectID version) as [latest | e3];
    simpl; (split; [| split]);
    try (intros err H; try discriminate H; injection H as <-; eauto; fail);
    try (intros b builds H; try discriminate H; injection H as <- <-;
         reflexivity);
    try (split; [intros H; try (exfalso; apply H; reflexivity);
                 repeat split; eauto
                | intros (H1 & H2 & (err & H3)); try contradiction;
                  try discriminate]).
Qed.

Lemma promoted_build_errors_witness :
  FindPromotedBuild (Sample.client 0 "abc123" (Ok Sample.abc)) "paper" "1.21.11"
  = (lastID [Sample.build 74 "RECOMMENDED" "abc123";
             Sample.build 73 "RECOMMENDED" "abc123"], None).
Proof.
  apply (proj2 (proj2 (promoted_build_errors
                         (Sample.client 0 "abc123" (Ok Sample.abc))
                         "paper" "1.21.11"))).
  reflexivity.
Defined.

(** ** The URL calls *)

(** X8: [GetLatestBuildURL], [GetBuildURL], [GetPromotedBuildURL] and
    [GetLatestVersionURL] never return an empty URL without an error. *)
Theorem url_calls_never_empty (c : Client) (rt : Runtime)
    (projectID version : string) (build : Z) (url : string) :
  (GetLatestBuildURL c rt projectID version = (url, None) -> url <> "")
  /\ (GetBuildURL c rt projectID version build = (url, None) -> url <> "")
  /\ (GetPromotedBuildURL c rt projectID version = (url, None) -> url <> "")
  /\ (GetLatestVersionURL c rt projectID = (url, None) -> url <> "").
Proof.
  assert (forall v, GetLatestBuildURL c rt projectID v = (url, None) -> url <> "")
    as Hlatest.
  { intros v. unfold GetLatestBuildURL.
    destruct (GetLatestBuildV3 c projectID v) as [b | e]; [| discriminate].
    destruct (String.eqb_spec (GetDownloadURL (rt_range_url rt) b) "");
      [discriminate |].
    intros H. injection H as <-. assumption. }
  split; [apply Hlatest |]. split; [| split].
  - unfold GetBuildURL.
    destruct (GetBuild c projectID version build) as [b | e]; [| discriminate].
    destruct (String.eqb_spec (GetDownloadURL (rt_range_url rt) b) "");
      [discriminate |].
    intros H. injection H as <-. assumption.
  - unfold GetPromotedBuildURL.
    destruct (FindPromotedBuild c projectID version) as [n [e |]];
      [discriminate |].
    destruct (GetBuild c projectID version n) as [b | e]; [| discriminate].
    destruct (String.eqb_spec (GetDownloadURL (rt_range_url rt) b) "");
      [discriminate |].
    intros H. injection H as <-. assumption.
  - unfold GetLatestVersionURL.
    destruct (GetLatestVersion c projectID) as [v [e |]]; [discriminate |].
    destruct (GetLatestBuildURL c rt projectID v) as [u [e |]] eqn:E;
      [discriminate |].
    intros H. injection H as <-. exact (Hlatest v E).
Qed.

Lemma url_calls_never_empty_witness :
  GetLatestBuildURL (Sample.client 0 "abc123" (Ok Sample.abc)) SampleRun.runtime
    "paper" "1.21.11"
  = ("https://example.com/paper-1.21.11-74.jar", None)
  /\ "https://example.com/paper-1.21.11-74.jar" <> "".
Proof.
  split; [reflexivity |].
  apply (proj1 (url_calls_never_empty
                  (Sample.client 0 "abc123" (Ok Sample.abc)) SampleRun.runtime
                  "paper" "1.21.11" 74
                  "https://example.com/paper-1.21.11-74.jar")).
  reflexivity.
Defined.

(** ** The download calls built on DownloadFile *)

(** X9: [DownloadLatestBuild], [DownloadPromotedBuild] and
    [DownloadLatestStableVersion] never return a result together with an
    error: where [DownloadFile] returns the result of a mismatch with its
    error, they return the error alone. *)
Theorem download_calls_drop_result (c : Client) (rt : Runtime)
    (projectID version destDir : string) :
  (forall result err,
      DownloadLatestBuild c rt projectID version destDir = (result, Some err) ->
      result = None)
  /\ (forall result err,
         DownloadPromotedBuild c rt projectID version destDir
         = (result, Some err) ->
         result = None)
  /\ (forall result err,
         DownloadLatestStableVersion c rt projectID destDir = (result, Some err) ->
         result = None).
Proof.
  split; [| split]; intros result err.
  - unfold DownloadLatestBuild.
    destruct (GetLatestBuildV3 c projectID version) as [b | e];
      [| intros H; injection H as <- _; reflexivity].
    destruct (GetDownloadName (rt_range_name rt) b =? "")%string;
      [intros H; injection H as <- _; reflexivity |].
    destruct (DownloadFile c (rt_system rt) projectID version (ID b) _)
      as [r [e |]]; intros H; [injection H as <- _; reflexivity | discriminate H].
  - unfold DownloadPromotedBuild.
    destruct (FindPromotedBuild c projectID version) as [n [e |]];
      [intros H; injection H as <- _; reflexivity |].
    destruct (GetDefaultDownloadName c rt projectID version n) as [name [e |]];
      [intros H; injection H as <- _; reflexivity |].
    destruct (DownloadFile c (rt_system rt) projectID version n _)
      as [r [e |]]; intros H; [injection H as <- _; reflexivity | discriminate H].
  - unfold DownloadLatestStableVersion.
    destruct (GetLatestVersion c projectID) as [v [e |]];
      [intros H; injection H as <- _; reflexivity |].
    destruct (DownloadLatestBuild c rt projectID v destDir) as [r [e |]];
      intros H; [injection H as <- _; reflexivity | discriminate H].
Qed.

Lemma download_calls_drop_result_witness :
  exists err,
    DownloadLatestBuild (Sample.client 0 "abc123" (Ok Sample.abc))
      SampleRun.runtime "paper" "1.21.11" "server" = (None, Some err)
    /\ fst (DownloadFile (Sample.client 0 "abc123" (Ok Sample.abc)) Sample.system
              "paper" "1.21.11" 74 "server/paper-1.21.11-74.jar") <> None.
Proof.
  destruct (DownloadLatestBuild (Sample.client 0 "abc123" (Ok Sample.abc))
              SampleRun.runtime "paper" "1.21.11" "server")
    as [result [err |]] eqn:E; [| vm_compute in E; discriminate E].
  exists err.
  rewrite (proj1 (download_calls_drop_result
                    (Sample.client 0 "abc123" (Ok Sample.abc))
                    SampleRun.runtime "paper" "1.21.11" "server")
             result err E).
  split; [reflexivity | vm_compute; discriminate].
Defined.

(** ** DownloadFile: what a result tells *)

Lemma DownloadFile_result (c : Client) (sys : System)
    (projectID version : string) (build : Z) (destPath : string)
    (result : DownloadResult) (err : option error) :
  DownloadFile c sys projectID version build destPath = (Some result, err) ->
  exists buildInfo reader,
    copyCompletes c sys projectID version build destPath buildInfo reader.
Proof.
  unfold DownloadFile, copyCompletes.
  destruct (GetBuild c projectID version build) as [b | e]; [| discriminate].
  destruct (String.eqb_spec (GetDownloadURL (range_url sys) b) "") as [| Hu];
    [discriminate |].
  destruct (DownloadBuild c _) as [reader | e] eqn:Hd; [| discriminate].
  destruct (os_MkdirAll sys _) eqn:Hm; [discriminate |].
  destruct (os_Create sys destPath) eqn:Hc; [discriminate |].
  destruct (io_Copy sys destPath reader) eqn:Hcp; [discriminate |].
  intros _. exists b, reader. repeat split; assumption.
Qed.

(** X10: a result comes only from a complete copy: when [DownloadFile]
    returns one, with an error or without, the bytes of the stream were
    all copied to [destPath], the result names [destPath], holds the
    declared checksum and the 64 digits of the SHA-256 of those bytes, and
    says [Valid] exactly when the two are the same string. *)
Theorem result_means_complete_copy (c : Client) (sys : System)
    (projectID version : string) (build : Z) (destPath : string)
    (result : DownloadResult) (err : option error) :
  DownloadFile c sys projectID version build destPath = (Some result, err) ->
  exists buildInfo reader,
    copyCompletes c sys projectID version build destPath buildInfo reader
    /\ Filename result = destPath
    /\ ExpectedSHA256 result = GetDownloadSHA256 (range_sha sys) buildInfo
    /\ ActualSHA256 result = hex.EncodeToString (sha256.Sum (body_bytes reader))
    /\ String.length (ActualSHA256 result) = 64%nat
    /\ (Valid result = true <-> ActualSHA256 result = ExpectedSHA256 result).
Proof.
  intros H.
  destruct (DownloadFile_result _ _ _ _ _ _ _ _ H) as (b & reader & Hc).
  exists b, reader. split; [exact Hc |].
  rewrite (DownloadFile_complete _ _ _ _ _ _ _ _ Hc) in H.
  assert (result = {| Filename := destPath;
                      ExpectedSHA256 := GetDownloadSHA256 (range_sha sys) b;
                      ActualSHA256 :=
                        hex.EncodeToString (sha256.Sum (body_bytes reader));
                      Valid := (hex.EncodeToString (sha256.Sum (body_bytes reader))
                                =? GetDownloadSHA256 (range_sha sys) b)%string |})
    as ->.
  { destruct (negb _ && negb _); injection H as <- _; reflexivity. }
  simpl. repeat split; try apply digest_hex_length; apply String.eqb_eq.
Qed.

Lemma result_means_complete_copy_witness :
  exists buildInfo reader,
    copyCompletes (Sample.client 0 "abc123" (Ok Sample.abc)) Sample.system
      "paper" "1.21.11" 74 "server/paper.jar" buildInfo reader
    /\ body_bytes reader = body_bytes Sample.abc.
Proof.
  destruct (DownloadFile (Sample.client 0 "abc123" (Ok Sample.abc)) Sample.system
              "paper" "1.21.11" 74 "server/paper.jar")
    as [[result |] err] eqn:E; [| vm_compute in E; discriminate E].
  destruct (result_means_complete_copy _ _ _ _ _ _ _ _ E)
    as (b & reader & Hc & _).
  exists b, reader. split; [exact Hc |].
  destruct Hc as (_ & _ & Hd & _). vm_compute in Hd. injection Hd as <-.
  reflexivity.
Defined.

(** X11: when [DownloadFile] returns no error for a build that declares a
    checksum, the file has that checksum: the result is valid and its two
    checksums are the same string. *)
Theorem success_means_verified (c : Client) (sys : System)
    (projectID version : string) (build : Z) (destPath : string)
    (result : DownloadResult) :
  DownloadFile c sys projectID version build destPath = (Some result, None) ->
  ExpectedSHA256 result <> "" ->
  Valid result = true /\ ActualSHA256 result = ExpectedSHA256 result.
Proof.
  intros H Hne.
  destruct (DownloadFile_result _ _ _ _ _ _ _ _ H) as (b & reader & Hc).
  rewrite (DownloadFile_complete _ _ _ _ _ _ _ _ Hc) in H.
  destruct (String.eqb_spec (hex.EncodeToString (sha256.Sum (body_bytes reader)))
              (GetDownloadSHA256 (range_sha sys) b)) as [E | Hd];
    destruct (String.eqb_spec (GetDownloadSHA256 (range_sha sys) b) "")
      as [E' | Hd']; simpl in H; try discriminate H;
    injection H as <-; simpl in *; try contradiction.
  all: split; [reflexivity | exact E].
Qed.

Lemma success_means_verified_witness :
  exists result,
    DownloadFile
      (Sample.client 0
         "ba7816bf8f01cfea414140de5dae2223b00361a396177a9cb410ff61f20015ad"
         (Ok Sample.abc))
      Sample.system "paper" "1.21.11" 74 "server/paper.jar"
    = (Some result, None)
    /\ Valid result = true
    /\ ActualSHA256 result = ExpectedSHA256 result.
Proof.
  eexists. split; [vm_compute; reflexivity |].
  apply (success_means_verified
           (Sample.client 0
              "ba7816bf8f01cfea414140de5dae2223b00361a396177a9cb410ff61f20015ad"
              (Ok Sample.abc))
           Sample.system "paper" "1.21.11" 74 "server/paper.jar").
  - vm_compute. reflexivity.
  - discriminate.
Defined.

(** ** The commands *)

Lemma lastN_cut {T : Type} (limit : Z) (l : list T) :
  (if (limit >? 0) && (len l >? limit)
   then skipn (Z.to_nat (len l - limit)) l else l)
  = lastN limit l.
Proof.
  unfold lastN, len.
  destruct (Z.gtb_spec limit 0) as [Hl | Hl]; simpl; [| reflexivity].
  destruct (Z.gtb_spec (Z.of_nat (List.length l)) limit) as [Hg | Hg].
  - f_equal. lia.
  - replace (List.length l - Z.to_nat limit)%nat with 0%nat by lia.
    reflexivity.
Qed.

Lemma string_ltb_asym (a b : string) :
  (b <? a)%string = true -> (a <? b)%string = false.
Proof.
  unfold String.ltb. rewrite (String.compare_antisym b a).
  destruct (String.compare a b); simpl; congruence.
Qed.

Lemma string_ltb_trans (a b c : string) :
  (a <? b)%string = false -> (b <? c)%string = false -> (a <? c)%string = false.
Proof.
  pose proof (proj2 total_str c b a) as H. revert H.
  rewrite !str_compare. unfold String.ltb.
  rewrite (String.compare_antisym b a), (String.compare_antisym c b),
    (String.compare_antisym c a).
  destruct (String.compare a b); destruct (String.compare b c);
    destruct (String.compare a c); simpl; intros H; try reflexivity;
    try discriminate; intros; exfalso; lia.
Qed.

(** X12: [list versions] prints the newest [limit] identifiers of the
    flattened list, all of them without a limit, and prints them in
    descending order of their bytes, which is not the order of the
    versions. *)
Theorem list_versions_output (http : Remote) (limit : Z) (projectID : string)
    (p : ProjectV3Response) :
  GetProject (NewClient http) projectID = Ok p ->
  exists out,
    cmd.listVersions http limit projectID = cmd.Printed out
    /\ Permutation out (lastN limit (FlattenVersions p))
    /\ StronglySorted (fun a b => (a <? b)%string = false) out.
Proof.
  intros Hp. unfold cmd.listVersions. rewrite Hp, lastN_cut.
  eexists. split; [reflexivity |]. split.
  - apply Slice_perm.
  - unfold cmd.sortReverse.
    apply (Slice_sorted (fun a b => (b <? a)%string)).
    + intros a b. apply string_ltb_asym.
    + intros a b c Hab Hbc. exact (string_ltb_trans a b c Hab Hbc).
Qed.

Lemma list_versions_output_witness :
  exists out,
    cmd.listVersions (SampleCatalog.remote SampleList.groups) 0 "paper"
    = cmd.Printed out
    /\ Permutation out
         (lastN 0 (FlattenVersions (Sample.project SampleList.groups)))
    /\ StronglySorted (fun a b => (a <? b)%string = false) out.
Proof.
  apply (list_versions_output (SampleCatalog.remote SampleList.groups) 0 "paper"
           (Sample.project SampleList.groups)).
  reflexivity.
Defined.

(** The older version comes first in what [list versions] prints here. *)
Lemma list_versions_not_by_version :
  FlattenVersions (Sample.project SampleList.groups) = ["1.9.4"; "1.10.2"]
  /\ cmd.listVersions (SampleCatalog.remote SampleList.groups) 0 "paper"
     = cmd.Printed ["1.9.4"; "1.10.2"].
Proof. split; reflexivity. Qed.

Section Matrix.
Variables (client : Client) (order : rangeOrder) (limit : Z) (projectID : string).




End Matrix.



(** ** The limit and the last element *)

Lemma last_skipn {T : Type} (l : list T) (n : nat) (d : T) :
  (n < List.length l)%nat -> last (skipn n l) d = last l d.
Proof.
  revert l. induction n as [| n IH]; intros l H; [reflexivity |].
  destruct l as [| x l]; [simpl in H; lia |].
  simpl in H. rewrite skipn_cons, (IH l) by lia.
  destruct l; [simpl in H; lia | reflexivity].
Qed.

Lemma lastID_last (builds : list BuildV3Response) :
  lastID builds = match builds with
                  | [] => 0
                  | b :: _ => ID (last builds b)
                  end.
Proof.
  unfold lastID. destruct builds as [| b builds]; [reflexivity |].
  destruct (exists_last (l := b :: builds) ltac:(discriminate)) as (l & z & E).
  rewrite E, last_last, rev_app_distr. reflexivity.
Qed.

(** What [FindPromotedBuild] uses of a channel query: whether it gave
    builds, and the ID of the last one. *)
Lemma limit_keeps_lastID (limit : Z) (builds : list BuildV3Response) :
  let cut := if (limit >? 0) && (len builds >? limit)
             then skipn (Z.to_nat (len builds - limit)) builds else builds in
  (cut = [] <-> builds = []) /\ lastID cut = lastID builds.
Proof.
  cbv zeta. destruct ((limit >? 0) && (len builds >? limit)) eqn:E;
    [| split; reflexivity].
  apply Bool.andb_true_iff in E. destruct E as [E1 E2].
  apply Z.gtb_lt in E1, E2. unfold len in *.
  set (n := Z.to_nat (Z.of_nat (List.length builds) - limit)).
  assert (n < List.length builds)%nat as Hn by (unfold n; lia).
  assert (skipn n builds <> []) as Hne.
  { intros H. apply (f_equal (@List.length _)) in H.
    rewrite length_skipn in H. simpl in H. lia. }
  split.
  - split; intros H; [contradiction | subst builds; simpl in Hn; lia].
  - rewrite !lastID_last.
    destruct builds as [| b builds]; [simpl in Hn; lia |].
    destruct (skipn n (b :: builds)) as [| b' cut] eqn:Ec; [contradiction |].
    rewrite <- Ec, (last_skipn _ _ b' Hn).
    destruct (exists_last (l := b :: builds) ltac:(discriminate)) as (l & z & ->).
    rewrite !last_last. reflexivity.
Qed.

Lemma FindPromotedBuild_promotedOf (c : Client) (projectID version : string) :
  FindPromotedBuild c projectID version
  = match promotedOf (GetBuilds c projectID version [ChannelRecommended]) with
    | Some n => (n, None)
    | None =>
        match promotedOf (GetBuilds c projectID version [ChannelStable]) with
        | Some n => (n, None)
        | None =>
            match GetLatestBuildV3 c projectID version with
            | Err err => (0, Some (errors_Wrap err "failed to get latest build"))
            | Ok latestBuild => (ID latestBuild, None)
            end
        end
    end.
Proof.
  unfold FindPromotedBuild, promotedOf.
  destruct (GetBuilds c projectID version [ChannelRecommended])
    as [[| b1 l1] | e1];
    destruct (GetBuilds c projectID version [ChannelStable])
      as [[| b2 l2] | e2]; reflexivity.
Qed.

Lemma promotedOf_cut (limit : Z) (builds : list BuildV3Response) :
  promotedOf (if (limit >? 0) && (len builds >? limit)
              then Ok (skipn (Z.to_nat (len builds - limit)) builds)
              else Ok builds)
  = promotedOf (Ok builds).
Proof.
  destruct (limit_keeps_lastID limit builds) as [H1 H2]. cbv zeta in *.
  destruct ((limit >? 0) && (len builds >? limit)); [| reflexivity].
  unfold promotedOf.
  destruct (skipn (Z.to_nat (len builds - limit)) builds) as [| x l];
    destruct builds as [| b bs].
  - reflexivity.
  - destruct H1 as [H1 _]. specialize (H1 eq_refl). discriminate H1.
  - destruct H1 as [_ H1]. specialize (H1 eq_refl). discriminate H1.
  - f_equal. exact H2.
Qed.

Lemma promotedOf_limit (c : Client) (limit : Z) (projectID version : string)
    (channels : list Channel) :
  promotedOf (GetBuilds (WithLimit c limit) projectID version channels)
  = promotedOf (GetBuilds c projectID version channels).
Proof.
  unfold GetBuilds, buildsURL. simpl.
  destruct (get_builds (HTTPClient c) _) as [builds | e | e]; try reflexivity.
  rewrite !promotedOf_cut. reflexivity.
Qed.

(** X14: without a channel filter the limit of the client does not change
    what [FindPromotedBuild] returns: the cut keeps the last build of each
    list. *)
Theorem promoted_build_ignores_limit (c : Client) (limit : Z)
    (projectID version : string) :
  Channel_filter c = "" ->
  FindPromotedBuild (WithLimit c limit) projectID version
  = FindPromotedBuild c projectID version.
Proof.
  intros Hch. rewrite !FindPromotedBuild_promotedOf, !promotedOf_limit.
  assert (GetLatestBuildV3 (WithLimit c limit) projectID version
          = GetLatestBuildV3 c projectID version) as ->.
  { unfold GetLatestBuildV3. simpl. rewrite Hch. reflexivity. }
  reflexivity.
Qed.

Lemma promoted_build_ignores_limit_witness :
  FindPromotedBuild (WithLimit (Sample.client 0 "abc123" (Ok Sample.abc)) 1)
    "paper" "1.21.11"
  = FindPromotedBuild (Sample.client 0 "abc123" (Ok Sample.abc))
      "paper" "1.21.11".
Proof.
  apply (promoted_build_ignores_limit
           (Sample.client 0 "abc123" (Ok Sample.abc)) 1 "paper" "1.21.11").
  reflexivity.
Defined.

(** * The v2 client *)

Lemma length_append (a b : string) :
  String.length (a ++ b) = (String.length a + String.length b)%nat.
Proof.
  induction a as [| c a IH]; simpl; [reflexivity | rewrite IH; reflexivity].
Qed.

Lemma sliceFrom_app (p s : string) :
  V2.sliceFrom (String.length p) (p ++ s) = s.
Proof. induction p as [| c p IH]; simpl; [reflexivity | exact IH]. Qed.

Lemma sliceFrom_split (n : nat) (s : string) :
  (n <= String.length s)%nat -> exists p, s = p ++ V2.sliceFrom n s.
Proof.
  revert s. induction n as [| n IH]; intros s H.
  - exists "". reflexivity.
  - destruct s as [| c s]; simpl in H; [lia |].
    destruct (IH s) as [p Hp]; [lia |].
    exists (String c p). simpl. f_equal. exact Hp.
Qed.

(** [contains] tests a suffix. *)
Lemma contains_suffix (s substr : string) :
  V2.contains s substr = true <-> exists p, s = p ++ substr.
Proof.
  unfold V2.contains.
  rewrite Bool.andb_true_iff, Nat.leb_le, String.eqb_eq. split.
  - intros [Hl He].
    destruct (sliceFrom_split (String.length s - String.length substr) s)
      as [p Hp]; [lia |].
    exists p. rewrite He in Hp. exact Hp.
  - intros [p ->]. rewrite length_append. split; [lia |].
    replace (String.length p + String.length substr - String.length substr)%nat
      with (String.length p) by lia.
    apply sliceFrom_app.
Qed.

Lemma append_last_inj (a b : string) (x y : ascii) :
  a ++ String x "" = b ++ String y "" -> x = y.
Proof.
  revert b. induction a as [| c a IH]; intros [| d b] H; simpl in H.
  - injection H as H. exact H.
  - injection H as _ H. destruct b; discriminate H.
  - injection H as _ H. destruct a; discriminate H.
  - injection H as _ H. exact (IH b H).
Qed.

(** X15: the v2 [isSnapshotOrPreRelease] flags exactly the identifiers
    that end with ["SNAPSHOT"] or with ["pre"]: its [contains] compares the
    end of the string.  An identifier whose last byte is a decimal digit,
    such as a numbered pre-release, is never flagged. *)
Theorem v2_prerelease_is_suffix_test (version : string) :
  (V2.isSnapshotOrPreRelease version = true <->
   (exists p, version = p ++ "SNAPSHOT") \/ (exists p, version = p ++ "pre"))
  /\ (forall d, isDigit d = true ->
        V2.isSnapshotOrPreRelease (version ++ String d "") = false).
Proof.
  assert (forall v, V2.isSnapshotOrPreRelease v = true <->
            (exists p, v = p ++ "SNAPSHOT") \/ (exists p, v = p ++ "pre")) as Hiff.
  { intros v. unfold V2.isSnapshotOrPreRelease.
    rewrite Bool.orb_true_iff, !contains_suffix. reflexivity. }
  split; [apply Hiff |].
  intros d Hd.
  destruct (V2.isSnapshotOrPreRelease (version ++ String d "")) eqn:E;
    [| reflexivity].
  apply Hiff in E. destruct E as [[p E] | [p E]].
  - change "SNAPSHOT" with ("SNAPSHO" ++ String "T" "") in E.
    rewrite append_assoc in E. apply append_last_inj in E. subst d.
    discriminate Hd.
  - change "pre" with ("pr" ++ String "e" "") in E.
    rewrite append_assoc in E. apply append_last_inj in E. subst d.
    discriminate Hd.
Qed.

(** The v2 [isSnapshotOrPreRelease] at identifiers that contain
    ["-pre"], ["-rc"] or ["snapshot"] before their end or in lower case:
    it flags none of them, and the one of the v3 client flags them all. *)
Lemma v2_prerelease_not_flagged :
  V2.isSnapshotOrPreRelease "1.13-pre7" = false
  /\ V2.isSnapshotOrPreRelease "1.21.11-rc3" = false
  /\ V2.isSnapshotOrPreRelease "1.14-snapshot" = false
  /\ isSnapshotOrPreRelease "1.13-pre7" = true
  /\ isSnapshotOrPreRelease "1.21.11-rc3" = true
  /\ isSnapshotOrPreRelease "1.14-snapshot" = true.
Proof. repeat split. Qed.

Lemma applyLimit_lastN {T : Type} (c : V2.Client) (items : list T) :
  V2.applyLimit c items = lastN (V2.Limit c) items.
Proof. apply lastN_cut. Qed.

Lemma lastN_nil {T : Type} (n : Z) (l : list T) : lastN n l = [] <-> l = [].
Proof.
  unfold lastN. destruct (Z.gtb_spec n 0) as [Hn | Hn]; [| reflexivity].
  split; [| intros ->; apply skipn_nil].
  intros H. destruct l as [| x l]; [reflexivity |].
  apply (f_equal (@List.length _)) in H.
  rewrite length_skipn in H. cbn [List.length] in H. lia.
Qed.

Lemma lastN_last {T : Type} (n : Z) (l : list T) (d : T) :
  last (lastN n l) d = last l d.
Proof.
  unfold lastN. destruct (Z.gtb_spec n 0) as [Hn | Hn]; [| reflexivity].
  destruct l as [| x l]; [reflexivity |].
  apply last_skipn. cbn [List.length]. lia.
Qed.

Lemma len_zero {T : Type} (l : list T) : (len l =? 0) = true <-> l = [].
Proof.
  unfold len. rewrite Z.eqb_eq. destruct l; simpl; split; intros H;
    try reflexivity; try discriminate H; lia.
Qed.

Lemma lastN_len_zero {T : Type} (n : Z) (l : list T) :
  (len (lastN n l) =? 0) = (len l =? 0).
Proof.
  apply Bool.eq_true_iff_eq. rewrite !len_zero. apply lastN_nil.
Qed.

(** X16: the limit of the v2 client does not change what [GetLatestBuild]
    and [GetLatestVersion] return: the cut keeps the end of each list. *)
Theorem v2_latest_ignores_limit (c : V2.Client) (limit : Z)
    (projectID version : string) :
  V2.GetLatestBuild (V2.WithLimit c limit) projectID version
  = V2.GetLatestBuild c projectID version
  /\ V2.GetLatestVersion (V2.WithLimit c limit) projectID
     = V2.GetLatestVersion c projectID.
Proof.
  split.
  - unfold V2.GetLatestBuild, V2.GetVersion. simpl.
    destruct (V2.get_version (V2.HTTPClient c) _) as [resp | e | e];
      try reflexivity.
    simpl. rewrite !applyLimit_lastN, !lastN_len_zero, !lastN_last.
    reflexivity.
  - unfold V2.GetLatestVersion, V2.GetProject. simpl.
    destruct (V2.get_project (V2.HTTPClient c) _) as [resp | e | e];
      try reflexivity.
    simpl. rewrite !applyLimit_lastN, !lastN_len_zero, !lastN_last.
    reflexivity.
Qed.

Lemma len_positive {T : Type} (l : list T) : (len l >? 0) = true <-> l <> [].
Proof.
  unfold len. destruct l; simpl; split; intros H; try reflexivity;
    try discriminate; try congruence.
Qed.

(** X17: the v2 [GetRecommendedVersion] on the versions [GetProject]
    returns: the last one that [isSnapshotOrPreRelease] does not flag, the
    last one when it flags all, an error when there is none. *)
Theorem v2_recommended_version (c : V2.Client) (projectID : string)
    (info : V2.ProjectResponse) :
  V2.GetProject c projectID = Ok info ->
  (V2.Versions info = [] ->
   V2.GetRecommendedVersion c projectID
   = ("", Some (errors_New "no versions found for this project")))
  /\ (forall older v newer,
        V2.Versions info = (older ++ v :: newer)%list ->
        V2.isSnapshotOrPreRelease v = false ->
        Forall (fun w => V2.isSnapshotOrPreRelease w = true) newer ->
        V2.GetRecommendedVersion c projectID = (v, None))
  /\ (forall older v,
        V2.Versions info = (older ++ [v])%list ->
        Forall (fun w => V2.isSnapshotOrPreRelease w = true) (V2.Versions info) ->
        V2.GetRecommendedVersion c projectID = (v, None)).
Proof.
  intros Hp. unfold V2.GetRecommendedVersion. rewrite Hp.
  split; [| split].
  - intros ->. reflexivity.
  - intros older v newer Hl Hv Hn.
    assert ((len (V2.Versions info) =? 0) = false) as ->.
    { apply Bool.not_true_iff_false. rewrite len_zero, Hl.
      destruct older; discriminate. }
    assert (V2.lastStable (V2.Versions info) = Some v) as ->; [| reflexivity].
    unfold V2.lastStable. apply find_rev_last. exists older, newer.
    repeat split; [exact Hl | rewrite Hv; reflexivity |].
    eapply Forall_impl; [| exact Hn]. intros w Hw. cbv beta.
    rewrite Hw. reflexivity.
  - intros older v Hl Hall.
    assert ((len (V2.Versions info) =? 0) = false) as ->.
    { apply Bool.not_true_iff_false. rewrite len_zero, Hl.
      destruct older; discriminate. }
    assert (V2.lastStable (V2.Versions info) = None) as ->.
    { unfold V2.lastStable. apply find_rev_none.
      eapply Forall_impl; [| exact Hall]. intros w Hw. cbv beta.
      rewrite Hw. reflexivity. }
    rewrite Hl, last_last. reflexivity.
Qed.

Lemma v2_recommended_version_witness :
  V2.GetRecommendedVersion
    (V2.sampleClient 0 ["1.12.2"; "1.13-pre7"; "1.13-SNAPSHOT"] [] [] (Err Sample.unreachable))
    "paper"
  = ("1.13-pre7", None).
Proof.
  apply (proj1 (proj2 (v2_recommended_version
           (V2.sampleClient 0 ["1.12.2"; "1.13-pre7"; "1.13-SNAPSHOT"] [] []
              (Err Sample.unreachable))
           "paper"
           {| V2.VersionGroups := [];
              V2.Versions := ["1.12.2"; "1.13-pre7"; "1.13-SNAPSHOT"] |}
           eq_refl)) ["1.12.2"] "1.13-pre7" ["1.13-SNAPSHOT"]);
    [reflexivity | reflexivity | repeat constructor].
Defined.

Lemma lastPromoted_none (builds : list V2.VersionBuild) :
  V2.lastPromoted builds = None <->
  Forall (fun b => V2.Promoted b = false) builds.
Proof. apply find_rev_none. Qed.

(** X18: the v2 [FindPromotedBuild] on the builds [GetBuilds] returns:
    the number of the last promoted build, the number of the last build
    when none is promoted, an error when there is no build. *)
Theorem v2_promoted_build (c : V2.Client) (projectID version : string)
    (resp : V2.BuildsResponse) :
  V2.GetBuilds c projectID version = Ok resp ->
  (V2.VersionBuilds resp = [] ->
   V2.FindPromotedBuild c projectID version
   = (0, Some (errors_New "no builds found for this version")))
  /\ (forall older b newer,
        V2.VersionBuilds resp = (older ++ b :: newer)%list ->
        V2.Promoted b = true ->
        Forall (fun b' => V2.Promoted b' = false) newer ->
        V2.FindPromotedBuild c projectID version = (V2.Build b, None))
  /\ (forall older b,
        V2.VersionBuilds resp = (older ++ [b])%list ->
        Forall (fun b' => V2.Promoted b' = false) (V2.VersionBuilds resp) ->
        V2.FindPromotedBuild c projectID version = (V2.Build b, None)).
Proof.
  intros Hr. unfold V2.FindPromotedBuild. rewrite Hr.
  split; [| split].
  - intros ->. reflexivity.
  - intros older b newer Hl Hb Hn.
    assert (V2.lastPromoted (V2.VersionBuilds resp) = Some b) as ->;
      [| reflexivity].
    apply find_rev_last. exists older, newer. auto.
  - intros older b Hl Hall.
    apply lastPromoted_none in Hall. rewrite Hall.
    assert ((len (V2.VersionBuilds resp) >? 0) = true) as ->.
    { apply len_positive. rewrite Hl. destruct older; discriminate. }
    rewrite Hl, last_last. reflexivity.
Qed.

Lemma v2_promoted_build_witness :
  V2.FindPromotedBuild
    (V2.sampleClient 0 [] V2.sampleBuilds [] (Err Sample.unreachable))
    "paper" "1.20.4"
  = (433, None).
Proof.
  apply (proj1 (proj2 (v2_promoted_build
           (V2.sampleClient 0 [] V2.sampleBuilds [] (Err Sample.unreachable))
           "paper" "1.20.4" {| V2.VersionBuilds := V2.sampleBuilds |} eq_refl))
           [] {| V2.Build := 433; V2.Promoted := true |}
           [{| V2.Build := 434; V2.Promoted := false |};
            {| V2.Build := 435; V2.Promoted := false |}]);
    [reflexivity | reflexivity | repeat constructor].
Defined.

Lemma find_firstn {A : Type} (f : A -> bool) (k : nat) (l : list A) :
  find f (firstn k l) = find f l \/ find f (firstn k l) = None.
Proof.
  revert k. induction l as [| x l IH]; intros [| k]; simpl; auto.
  destruct (f x); [left; reflexivity | apply IH].
Qed.

Lemma rev_lastN {T : Type} (n : Z) (l : list T) :
  n > 0 -> rev (lastN n l) = firstn (Z.to_nat n) (rev l).
Proof.
  intros Hn. unfold lastN.
  assert ((n >? 0) = true) as -> by (apply Z.gtb_lt; lia).
  rewrite firstn_rev. reflexivity.
Qed.

Lemma lastPromoted_lastN (n : Z) (builds : list V2.VersionBuild) :
  V2.lastPromoted (lastN n builds) = V2.lastPromoted builds
  \/ V2.lastPromoted (lastN n builds) = None.
Proof.
  unfold V2.lastPromoted. destruct (Z.gtb_spec n 0) as [Hn | Hn].
  - rewrite rev_lastN by lia. apply find_firstn.
  - left. unfold lastN.
    destruct (n >? 0) eqn:E; [apply Z.gtb_lt in E; lia | reflexivity].
Qed.

Lemma In_skipn {T : Type} (k : nat) (l : list T) (x : T) :
  In x (skipn k l) -> In x l.
Proof.
  intros H. rewrite <- (firstn_skipn k l). apply in_or_app. right. exact H.
Qed.

Lemma lastN_within {T : Type} (n : Z) (older newer : list T) :
  0 < n <= len newer ->
  lastN n (older ++ newer) = lastN n newer.
Proof.
  unfold lastN, len. intros [H1 H2].
  assert ((n >? 0) = true) as -> by (apply Z.gtb_lt; lia).
  rewrite skipn_app.
  rewrite skipn_all2 by (rewrite length_app; lia).
  simpl. f_equal. rewrite length_app. lia.
Qed.

(** X19: what the limit of the v2 client does to [FindPromotedBuild]: the
    result is the one without a limit or the number of the last build;
    when the builds after the last promoted one are at least as many as
    the limit, it is the number of the last build. *)
Theorem v2_limit_hides_promoted (c : V2.Client) (limit : Z)
    (projectID version : string) :
  (V2.FindPromotedBuild (V2.WithLimit c limit) projectID version
   = V2.FindPromotedBuild (V2.WithLimit c 0) projectID version
   \/ exists resp,
        V2.GetBuilds (V2.WithLimit c 0) projectID version = Ok resp
        /\ V2.VersionBuilds resp <> []
        /\ V2.FindPromotedBuild (V2.WithLimit c limit) projectID version
           = (V2.Build (last (V2.VersionBuilds resp)
                          {| V2.Build := 0; V2.Promoted := false |}), None))
  /\ (forall resp older newer b,
        V2.GetBuilds (V2.WithLimit c 0) projectID version = Ok resp ->
        V2.VersionBuilds resp = (older ++ newer ++ [b])%list ->
        Forall (fun b' => V2.Promoted b' = false) (newer ++ [b])%list ->
        0 < limit <= len (newer ++ [b])%list ->
        V2.FindPromotedBuild (V2.WithLimit c limit) projectID version
        = (V2.Build b, None)).
Proof.
  unfold V2.FindPromotedBuild, V2.GetBuilds. simpl.
  destruct (V2.get_builds (V2.HTTPClient c) _) as [[builds] | e | e].
  2, 3: split; [left; reflexivity | intros ? ? ? ? H; discriminate H].
  cbn [V2.VersionBuilds].
  change (V2.applyLimit (V2.WithLimit c 0) builds) with builds.
  rewrite (applyLimit_lastN (V2.WithLimit c limit)). cbn [V2.Limit V2.WithLimit].
  assert (forall l : list V2.VersionBuild,
            (len (lastN limit l) >? 0) = (len l >? 0)) as Hlen.
  { intros l. apply Bool.eq_true_iff_eq. rewrite !len_positive, lastN_nil.
    reflexivity. }
  split.
  - destruct (lastPromoted_lastN limit builds) as [H | H]; rewrite H.
    + left. destruct (V2.lastPromoted builds); [reflexivity |].
      rewrite Hlen, lastN_last. reflexivity.
    + rewrite Hlen, lastN_last.
      destruct (len builds >? 0) eqn:E.
      * right. exists {| V2.VersionBuilds := builds |}.
        repeat split. apply len_positive. exact E.
      * left. destruct (V2.lastPromoted builds) as [b |] eqn:Eb; [| reflexivity].
        apply Bool.not_true_iff_false in E. rewrite len_positive in E.
        destruct builds; [discriminate Eb | exfalso; apply E; discriminate].
  - intros resp older newer b Hr Hl Hall Hlim.
    injection Hr as <-. cbn [V2.VersionBuilds] in Hl. subst builds.
    rewrite (lastN_within limit older (newer ++ [b])%list Hlim).
    assert (V2.lastPromoted (lastN limit (newer ++ [b])%list) = None) as ->.
    { apply lastPromoted_none. apply Forall_forall. intros x Hx.
      rewrite Forall_forall in Hall. apply Hall.
      unfold lastN in Hx. destruct (limit >? 0); [| exact Hx].
      exact (In_skipn _ _ _ Hx). }
    rewrite Hlen, lastN_last.
    assert ((len (newer ++ [b])%list >? 0) = true) as ->.
    { apply len_positive. destruct newer; discriminate. }
    rewrite last_last. reflexivity.
Qed.

(** What a call of the v2 [DownloadFile] that returns a nil error has
    done. *)
Lemma V2_DownloadFile_nil (c : V2.Client) (sys : System)
    (projectID version : string) (build : Z) (downloadName destPath : string) :
  snd (V2.DownloadFile c sys projectID version build downloadName destPath) = None ->
  exists buildInfo download reader,
    V2.GetBuild c projectID version build = Ok buildInfo
    /\ lookup (V2.Downloads buildInfo) downloadName = Some download
    /\ V2.DownloadBuild c projectID version build downloadName = Ok reader
    /\ hex.EncodeToString (sha256.Sum (body_bytes reader)) = V2.SHA256 download
    /\ fst (V2.DownloadFile c sys projectID version build downloadName destPath)
       = Some {| Filename := destPath;
                 ExpectedSHA256 := V2.SHA256 download;
                 ActualSHA256 := V2.SHA256 download;
                 Valid := true |}.
Proof.
  unfold V2.DownloadFile.
  destruct (V2.GetBuild c projectID version build) as [buildInfo | e] eqn:Eb;
    [| discriminate].
  destruct (lookup (V2.Downloads buildInfo) downloadName) as [download |] eqn:El;
    [| discriminate].
  destruct (V2.DownloadBuild c projectID version build downloadName)
    as [reader | e] eqn:Ed; [| discriminate].
  destruct (os_MkdirAll sys _); [discriminate |].
  destruct (os_Create sys _); [discriminate |].
  destruct (io_Copy sys _ _); [discriminate |].
  cbv zeta.
  destruct (String.eqb_spec (hex.EncodeToString (sha256.Sum (body_bytes reader)))
              (V2.SHA256 download)) as [E | E]; simpl; [| discriminate].
  intros _. exists buildInfo, download, reader. rewrite E.
  repeat split; try reflexivity; assumption.
Qed.

(** X20: a nil error of the v2 [DownloadFile] means a verified file: the
    result is valid, its two checksums are equal and the declared one is
    not empty.  A download that declares no checksum always gives an
    error. *)
Theorem v2_nil_error_means_verified (c : V2.Client) (sys : System)
    (projectID version : string) (build : Z) (downloadName destPath : string) :
  (snd (V2.DownloadFile c sys projectID version build downloadName destPath) = None ->
   exists result,
     fst (V2.DownloadFile c sys projectID version build downloadName destPath)
     = Some result
     /\ Filename result = destPath
     /\ Valid result = true
     /\ ActualSHA256 result = ExpectedSHA256 result
     /\ String.length (ExpectedSHA256 result) = 64%nat)
  /\ (forall buildInfo download,
        V2.GetBuild c projectID version build = Ok buildInfo ->
        lookup (V2.Downloads buildInfo) downloadName = Some download ->
        V2.SHA256 download = "" ->
        snd (V2.DownloadFile c sys projectID version build downloadName destPath)
        <> None).
Proof.
  split.
  - intros H. apply V2_DownloadFile_nil in H.
    destruct H as (buildInfo & download & reader & _ & _ & _ & Hsum & Hres).
    eexists. split; [exact Hres |]. simpl. repeat split.
    rewrite <- Hsum. apply digest_hex_length.
  - intros buildInfo download Hb Hl Hempty H.
    apply V2_DownloadFile_nil in H.
    destruct H as (buildInfo' & download' & reader & Hb' & Hl' & _ & Hsum & _).
    rewrite Hb in Hb'. injection Hb' as <-.
    rewrite Hl in Hl'. injection Hl' as <-.
    rewrite Hempty in Hsum. exact (digest_hex_nonempty _ Hsum).
Qed.

Lemma V2_GetDefaultDownloadName_member (c : V2.Client) (rt : V2.Runtime)
    (projectID version : string) (build : Z) (name : string) :
  (forall m, Permutation (V2.rt_range_jar rt m) m) ->
  (forall m, Permutation (V2.rt_range_any rt m) m) ->
  V2.GetDefaultDownloadName c rt projectID version build = (name, None) ->
  exists buildInfo key download,
    V2.GetBuild c projectID version build = Ok buildInfo
    /\ In (key, download) (V2.Downloads buildInfo)
    /\ V2.Name download = name.
Proof.
  intros Hjar Hany. unfold V2.GetDefaultDownloadName.
  destruct (V2.GetBuild c projectID version build) as [buildInfo | e];
    [| discriminate].
  destruct (lookup (V2.Downloads buildInfo) "application") as [download |] eqn:El.
  { intros H. injection H as <-. exists buildInfo, "application", download.
    repeat split. apply lookup_In, El. }
  destruct (find _ (V2.rt_range_jar rt (V2.Downloads buildInfo)))
    as [[key download] |] eqn:Ef.
  { intros H. injection H as <-. exists buildInfo, key, download.
    repeat split. apply find_some in Ef. destruct Ef as [Hin _].
    exact (Permutation_in _ (Hjar _) Hin). }
  destruct (V2.rt_range_any rt (V2.Downloads buildInfo))
    as [| [key download] rest] eqn:Ea; [discriminate |].
  intros H. injection H as <-. exists buildInfo, key, download.
  repeat split. apply (Permutation_in _ (Hany _)). rewrite Ea. left. reflexivity.
Qed.

(** X21: the v2 [DownloadLatestBuild] and [DownloadPromotedBuild] pass the
    file name that [GetDefaultDownloadName] returns to [DownloadFile],
    which looks it up among the keys of the downloads: they return a nil
    error only for a build one of whose downloads has a file name that is
    also a key of the downloads. *)
Theorem v2_download_needs_name_as_key (c : V2.Client) (rt : V2.Runtime)
    (projectID version destDir : string) :
  (forall m, Permutation (V2.rt_range_jar rt m) m) ->
  (forall m, Permutation (V2.rt_range_any rt m) m) ->
  snd (V2.DownloadLatestBuild c rt projectID version destDir) = None
  \/ snd (V2.DownloadPromotedBuild c rt projectID version destDir) = None ->
  exists build buildInfo key download,
    V2.GetBuild c projectID version build = Ok buildInfo
    /\ In (key, download) (V2.Downloads buildInfo)
    /\ lookup (V2.Downloads buildInfo) (V2.Name download) <> None.
Proof.
  intros Hjar Hany.
  assert (forall build,
            (let (downloadName, err) :=
               V2.GetDefaultDownloadName c rt projectID version build in
             match err with
             | Some _ => False
             | None =>
                 snd (V2.DownloadFile c (V2.rt_system rt) projectID version build
                        downloadName (V2.filepath_Join rt destDir downloadName))
                 = None
             end) ->
            exists buildInfo key download,
              V2.GetBuild c projectID version build = Ok buildInfo
              /\ In (key, download) (V2.Downloads buildInfo)
              /\ lookup (V2.Downloads buildInfo) (V2.Name download) <> None)
    as Hstep.
  { intros build H.
    destruct (V2.GetDefaultDownloadName c rt projectID version build)
      as [name [e |]] eqn:En; [destruct H |].
    apply (V2_GetDefaultDownloadName_member _ _ _ _ _ _ Hjar Hany) in En.
    destruct En as (buildInfo & key & download & Hb & Hin & Hname).
    apply V2_DownloadFile_nil in H.
    destruct H as (buildInfo' & download' & _ & Hb' & Hl & _).
    rewrite Hb in Hb'. injection Hb' as <-.
    exists buildInfo, key, download. repeat split; try assumption.
    rewrite Hname, Hl. discriminate. }
  intros [H | H].
  - unfold V2.DownloadLatestBuild in H.
    destruct (V2.GetLatestBuild c projectID version) as [build [e |]];
      [discriminate H |].
    exists build. apply Hstep.
    destruct (V2.GetDefaultDownloadName c rt projectID version build)
      as [name [e |]]; [discriminate H |].
    destruct (V2.DownloadFile c (V2.rt_system rt) projectID version build name _)
      as [r [e |]]; [discriminate H | reflexivity].
  - unfold V2.DownloadPromotedBuild in H.
    destruct (V2.FindPromotedBuild c projectID version) as [build [e |]];
      [discriminate H |].
    exists build. apply Hstep.
    destruct (V2.GetDefaultDownloadName c rt projectID version build)
      as [name [e |]]; [discriminate H |].
    destruct (V2.DownloadFile c (V2.rt_system rt) projectID version build name _)
      as [r [e |]]; [discriminate H | reflexivity].
Qed.

Lemma v2_download_needs_name_as_key_witness :
  exists build buildInfo key download,
    V2.GetBuild
      (V2.sampleClient 0 [] V2.sampleBuilds V2.sampleDownloads (Ok Sample.abc))
      "paper" "1.20.4" build = Ok buildInfo
    /\ In (key, download) (V2.Downloads buildInfo)
    /\ lookup (V2.Downloads buildInfo) (V2.Name download) <> None.
Proof.
  apply (v2_download_needs_name_as_key
           (V2.sampleClient 0 [] V2.sampleBuilds V2.sampleDownloads (Ok Sample.abc))
           V2.sampleRuntime "paper" "1.20.4" "server"
           (fun m => Permutation_refl m) (fun m => Permutation_refl m)).
  left. vm_compute. reflexivity.
Defined.

(** * The order of [FlattenVersions] *)

(** X22: the function that [FlattenVersions] gives to [sort.Slice] as
    [less] is a strict weak order, as a sort needs it: it is irreflexive,
    asymmetric and transitive, and so is its complement. *)
Theorem flatten_less_strict_weak :
  (forall a, semverLess a a = false)
  /\ (forall a b, semverLess a b = true -> semverLess b a = false)
  /\ (forall a b c, semverLess a b = true -> semverLess b c = true ->
                    semverLess a c = true)
  /\ (forall a b c, semverLess a b = false -> semverLess b c = false ->
                    semverLess a c = false).
Proof.
  destruct total_Compare as [Hanti Htrans].
  assert (forall a b, semverLess a b = true <->
                      ~ semver.Compare (String "v" b) (String "v" a) <= 0) as Hlt.
  { intros a b. unfold semverLess. rewrite Z.ltb_lt.
    rewrite (Hanti (String "v" a) (String "v" b)). lia. }
  assert (forall a b, semverLess a b = false <->
                      semver.Compare (String "v" b) (String "v" a) <= 0) as Hge.
  { intros a b. rewrite <- Bool.not_true_iff_false, Hlt.
    split; [| tauto].
    destruct (Z_le_dec (semver.Compare (String "v" b) (String "v" a)) 0); tauto. }
  repeat split.
  - intros a. apply Hge.
    pose proof (Hanti (String "v" a) (String "v" a)). lia.
  - intros a b H. apply semverLess_asym, H.
  - intros a b c Hab Hbc. apply Hlt. intros Hca.
    apply Hlt in Hab. apply Hab.
    apply (Htrans _ (String "v" c) _); [| exact Hca].
    apply semverLess_asym, Hge in Hbc. exact Hbc.
  - intros a b c Hab Hbc. apply Hge. apply Hge in Hab, Hbc.
    exact (Htrans _ _ _ Hbc Hab).
Qed.

Lemma sorted_before {A : Type} (R : A -> A -> Prop) (l : list A) (a b : A) :
  StronglySorted R l -> In a l -> In b l -> a <> b -> ~ R b a ->
  exists l1 l2 l3, l = (l1 ++ a :: l2 ++ b :: l3)%list.
Proof.
  intros Hs Ha Hb Hne Hnot. induction Hs as [| x l Hs IH Hx]; [destruct Ha |].
  destruct Ha as [-> | Ha]; destruct Hb as [-> | Hb].
  - contradiction Hne. reflexivity.
  - destruct (in_split _ _ Hb) as (l2 & l3 & ->).
    exists [], l2, l3. reflexivity.
  - rewrite Forall_forall in Hx. contradiction Hnot. apply Hx, Ha.
  - destruct (IH Ha Hb) as (l1 & l2 & l3 & ->).
    exists (x :: l1), l2, l3. reflexivity.
Qed.

(** X23: an identifier that is no semantic version once ["v"] stands
    before it is less than every identifier that is one, and nothing is
    less than it; in the result of [FlattenVersions] it stands before
    every identifier that is a semantic version. *)
Theorem invalid_identifiers_sort_first (a : string) :
  semver.parse (String "v" a) = None ->
  (forall b, semverLess b a = false)
  /\ (forall b, semverLess a b = true <-> semver.parse (String "v" b) <> None)
  /\ (forall p b,
        In a (FlattenVersions p) -> In b (FlattenVersions p) ->
        semver.parse (String "v" b) <> None ->
        exists l1 l2 l3, FlattenVersions p = (l1 ++ a :: l2 ++ b :: l3)%list).
Proof.
  intros Ha.
  assert (forall b, semverLess b a = false) as H1.
  { intros b. unfold semverLess. rewrite Compare_version, Ha.
    destruct (semver.parse (String "v" b)); reflexivity. }
  assert (forall b, semverLess a b = true <->
                    semver.parse (String "v" b) <> None) as H2.
  { intros b. unfold semverLess. rewrite Compare_version, Ha.
    destruct (semver.parse (String "v" b)); simpl; split; intros H;
      try reflexivity; try discriminate; congruence. }
  repeat split; try apply H1; try apply H2.
  intros p b Hina Hinb Hb.
  apply (sorted_before semverLe).
  - apply FlattenVersions_sorted.
  - exact Hina.
  - exact Hinb.
  - intros ->. contradiction.
  - intros Hle. apply semverLess_false in Hle.
    apply H2 in Hb. congruence.
Qed.

Lemma invalid_identifiers_sort_first_witness :
  exists l1 l2 l3,
    FlattenVersions
      (Sample.project [("1.7", ["1.7.10"]); ("1.13", ["1.13-pre7"])])
    = (l1 ++ "1.13-pre7" :: l2 ++ "1.7.10" :: l3)%list.
Proof.
  apply (proj2 (proj2 (invalid_identifiers_sort_first "1.13-pre7" eq_refl))
           (Sample.project [("1.7", ["1.7.10"]); ("1.13", ["1.13-pre7"])])).
  - vm_compute. auto.
  - vm_compute. auto.
  - vm_compute. discriminate.
Defined.

(** * GetLatestBuildV3 under a limit *)

Lemma In_lastN {T : Type} (n : Z) (l : list T) (x : T) :
  In x (lastN n l) -> In x l.
Proof.
  unfold lastN. destruct (n >? 0); [apply In_skipn | auto].
Qed.

Lemma GetBuilds_lastN (c : Client) (projectID version : string)
    (channels : list Channel) (raw : list BuildV3Response) :
  get_builds (HTTPClient c) (buildsURL c projectID version channels) = Fetched raw ->
  GetBuilds c projectID version channels = Ok (lastN (Limit c) raw).
Proof.
  intros H. unfold GetBuilds. rewrite H, <- lastN_cut.
  destruct ((Limit c >? 0) && (len raw >? Limit c)); reflexivity.
Qed.

(** X24: under a channel filter the limit of the client can only lower
    the build that [GetLatestBuildV3] returns: it is the highest of the
    builds that the cut keeps, which are the last ones of the response.
    The limit does not change whether the call fails. *)
Theorem latest_build_limit_lowers (c : Client) (limit : Z)
    (projectID version : string) :
  Channel_filter c <> "" ->
  (forall b,
      GetLatestBuildV3 (WithLimit c limit) projectID version = Ok b ->
      exists b',
        GetLatestBuildV3 (WithLimit c 0) projectID version = Ok b'
        /\ ID b <= ID b')
  /\ (forall b',
         GetLatestBuildV3 (WithLimit c 0) projectID version = Ok b' ->
         exists b,
           GetLatestBuildV3 (WithLimit c limit) projectID version = Ok b).
Proof.
  intros Hch. apply String.eqb_neq in Hch.
  unfold GetLatestBuildV3. cbn [Channel_filter WithLimit].
  rewrite Hch. cbn [negb].
  destruct (get_builds (HTTPClient c)
              (buildsURL c projectID version [Channel_filter c]))
    as [raw | e | e] eqn:Hraw.
  2, 3: unfold GetBuilds, buildsURL in *; cbn [BaseURL HTTPClient WithLimit] in *;
        rewrite Hraw; split; intros ? H; discriminate H.
  rewrite (GetBuilds_lastN (WithLimit c limit) _ _ _ raw Hraw).
  rewrite (GetBuilds_lastN (WithLimit c 0) _ _ _ raw Hraw).
  cbn [Limit WithLimit]. change (lastN 0 raw) with raw.
  destruct (lastN limit raw) as [| first rest] eqn:E.
  - apply lastN_nil in E. subst raw.
    split; intros ? H; discriminate H.
  - destruct raw as [| first' rest'];
      [unfold lastN in E; destruct (limit >? 0); discriminate E |].
    split.
    + intros b H. injection H as <-. eexists. split; [reflexivity |].
      destruct (highestID_spec (first :: rest) first) as (Hm & _ & _).
      destruct (highestID_spec (first' :: rest') first') as (_ & _ & Hall).
      apply Hall. apply (In_lastN limit). rewrite E.
      destruct Hm as [Hm | Hm]; [left; symmetry; exact Hm | exact Hm].
    + intros b' _. eexists. reflexivity.
Qed.

Lemma latest_build_limit_lowers_witness :
  exists b',
    GetLatestBuildV3
      (WithLimit (WithChannel (Sample.client 0 "abc123" (Ok Sample.abc))
                    ChannelRecommended) 0)
      "paper" "1.21.11" = Ok b'
    /\ 73 <= ID b'.
Proof.
  apply (proj1 (latest_build_limit_lowers
                  (WithChannel (Sample.client 0 "abc123" (Ok Sample.abc))
                     ChannelRecommended)
                  1 "paper" "1.21.11" ltac:(discriminate))
           (Sample.build 73 "RECOMMENDED" "abc123")).
  reflexivity.
Defined.
